(** * Link2Vid: the download API handler

    A shallow embedding of the download orchestration code: the rate
    limiter [checkRateLimit], the client key [getClientIP], the allow-list
    [isAllowedDomain], the retry wrapper [retryOperation], the admission
    wait [waitForSlot], the cleanup closure of [createCleanupFunction] and
    the request [handler] that composes them.

    Conventions.
    - JavaScript numbers that hold counters and millisecond time stamps are
      integers ([Z]).
    - Strings are byte strings; [toLowerCase] acts on the ASCII letters.
    - The two [NodeCache] instances are finite maps from keys to a value
      and the time stamp at which it expires (0: never), as the node-cache
      package keeps them.
    - Module-level [let]/[const] bindings and the file system under /tmp
      form the record [State], threaded through every function.
    - [throw] and [try]/[catch] are a sum-typed result. *)

From Stdlib Require Import ZArith Lia Bool List Ascii String.
From stdpp Require Import base option gmap strings list fin_maps pretty.

Open Scope string_scope.
Open Scope Z_scope.

(** ** Strings, as the JavaScript methods used by the source *)

Module Str.

Fixpoint startsWith (s p : string) : bool :=
  match p, s with
  | EmptyString, _ => true
  | String a p', String b s' => if Ascii.eqb a b then startsWith s' p' else false
  | String _ _, EmptyString => false
  end.

Fixpoint includes (s p : string) : bool :=
  startsWith s p ||
  match s with
  | EmptyString => false
  | String _ s' => includes s' p
  end.

Definition endsWith (s p : string) : bool :=
  startsWith (String.rev s) (String.rev p).

Definition lower_ascii (c : ascii) : ascii :=
  let n := nat_of_ascii c in
  if (65 <=? n)%nat && (n <=? 90)%nat then ascii_of_nat (n + 32) else c.

Fixpoint toLowerCase (s : string) : string :=
  match s with
  | EmptyString => EmptyString
  | String c s' => String (lower_ascii c) (toLowerCase s')
  end.

(** [s.split(',')[0]] *)
Fixpoint split_comma_head (s : string) : string :=
  match s with
  | EmptyString => EmptyString
  | String c s' => if Ascii.eqb c "," then EmptyString else String c (split_comma_head s')
  end.

(** [xs.join(sep)] *)
Fixpoint join (sep : string) (xs : list string) : string :=
  match xs with
  | [] => ""
  | [x] => x
  | x :: rest => x ++ sep ++ join sep rest
  end.

(** JavaScript truthiness of a string: the empty string is falsy. *)
Definition truthy (s : string) : bool :=
  match s with EmptyString => false | _ => true end.

End Str.

(** ** Configuration ([const config]) *)

Module config.
Definition rateLimit_windowMs : Z := 15 * 60 * 1000.
Definition rateLimit_maxRequests : Z := 5.
Definition maxConcurrentDownloads : Z := 3.
Definition cache_ttl : Z := 2 * 60 * 60.
Definition cache_checkPeriod : Z := 30 * 60.
Definition cache_maxSize : Z := 100.
Definition maxFileSizeMB : Z := 100.
Definition maxRetries : Z := 2.
Definition retryDelay : Z := 3000.
Definition allowedDomains : list string :=
  ["youtube.com"; "youtu.be"; "instagram.com"; "facebook.com";
   "twitter.com"; "x.com"; "tiktok.com"; "twitch.tv"].
Definition downloadTimeoutMs : Z := 5 * 60 * 1000.
End config.

Definition maxConcurrent : Z := config.maxConcurrentDownloads.

(** ** Values kept in the caches *)

Record RateData := mkRateData { count : Z; firstRequest : Z }.

Record CachedVideo := mkCachedVideo {
  filePath : string;
  filename : string;
  contentType : string;
  size : Z
}.

(** ** What the handler writes down as it runs *)

Inductive Event :=
| EvInvoke (format : string)      (* a call of youtubedl with this format *)
| EvTimer (ms : Z)                (* the timeout timer of one retry attempt *)
| EvSleep (ms : Z)                (* an awaited setTimeout *)
| EvUnlink (path : string)        (* unlinkSync removed a file *)
| EvCopy (src dst : string)       (* copyFileSync *)
| EvStream (path : string).       (* createReadStream(path).pipe(res) *)

(** ** The process state *)

Record State := mkState {
  now : Z;                                     (* Date.now() *)
  rateLimitCache : gmap string (RateData * Z);
  videoCache : gmap string (CachedVideo * Z);
  activeDownloads : Z;
  files : gmap string Z;                       (* path |-> size in bytes *)
  log : list Event
}.

Definition set_now (t : Z) (s : State) : State :=
  mkState t (rateLimitCache s) (videoCache s) (activeDownloads s) (files s) (log s).
Definition set_rateLimitCache (m : gmap string (RateData * Z)) (s : State) : State :=
  mkState (now s) m (videoCache s) (activeDownloads s) (files s) (log s).
Definition set_videoCache (m : gmap string (CachedVideo * Z)) (s : State) : State :=
  mkState (now s) (rateLimitCache s) m (activeDownloads s) (files s) (log s).
Definition set_activeDownloads (a : Z) (s : State) : State :=
  mkState (now s) (rateLimitCache s) (videoCache s) a (files s) (log s).
Definition set_files (f : gmap string Z) (s : State) : State :=
  mkState (now s) (rateLimitCache s) (videoCache s) (activeDownloads s) f (log s).
Definition emit (e : Event) (s : State) : State :=
  mkState (now s) (rateLimitCache s) (videoCache s) (activeDownloads s) (files s)
          (log s ++ [e]).

(** An awaited [setTimeout(resolve, ms)]: the clock moves on by [ms], as
    if every timer fired on time. *)
Definition sleep (ms : Z) (s : State) : State :=
  emit (EvSleep ms) (set_now (now s + ms) s).

(** ** node-cache: [get] and [set] with a time to live

    An entry is a value and its expiry time stamp [t]; [t = 0] means no
    expiry. [get] drops an entry with [t <> 0] and [t < Date.now()] and
    answers undefined; [set] stores the value with [t = now + ttl * 1000]
    ([ttl] in seconds, 0: no expiry) and throws when [maxKeys] is set and
    reached. The periodic sweep of expired entries is not modelled: [get]
    drops them when it meets them. *)

Module NodeCache.

Definition expired (tnow t : Z) : bool := negb (t =? 0) && (t <? tnow).

Definition get {V} (tnow : Z) (key : string) (m : gmap string (V * Z))
  : option V * gmap string (V * Z) :=
  match m !! key with
  | Some (v, t) => if expired tnow t then (None, delete key m) else (Some v, m)
  | None => (None, m)
  end.

Definition livetime (tnow ttl : Z) : Z :=
  if ttl =? 0 then 0 else tnow + ttl * 1000.

(** [maxKeys]: [None] for the default (-1, no bound). *)
Definition set {V} (tnow stdTTL : Z) (maxKeys : option Z)
           (key : string) (v : V) (m : gmap string (V * Z))
  : option (gmap string (V * Z)) :=
  match maxKeys with
  | Some k =>
      if k <=? Z.of_nat (base.size m) then None
      else Some (<[key := (v, livetime tnow stdTTL)]> m)
  | None => Some (<[key := (v, livetime tnow stdTTL)]> m)
  end.

End NodeCache.

(** ** checkRateLimit *)

Record RateResult := mkRateResult { allowed : bool; retryAfter : option Z }.

(** [Math.ceil(x / 1000)] on an integer [x]. *)
Definition ceil_div_1000 (x : Z) : Z := - ((- x) / 1000).

Definition rate_stdTTL : Z := config.rateLimit_windowMs / 1000.

Definition rate_set (key : string) (d : RateData) (s : State) : State :=
  match NodeCache.set (now s) rate_stdTTL None key d (rateLimitCache s) with
  | Some m => set_rateLimitCache m s
  | None => s
  end.

Definition checkRateLimit (clientIP : string) (s : State) : RateResult * State :=
  let key := "rate_" ++ clientIP in
  let '(requestData, m) := NodeCache.get (now s) key (rateLimitCache s) in
  let s := set_rateLimitCache m s in
  let now_ := now s in
  match requestData with
  | None =>
      (mkRateResult true None, rate_set key (mkRateData 1 now_) s)
  | Some requestData =>
      if config.rateLimit_windowMs <? now_ - firstRequest requestData then
        (mkRateResult true None, rate_set key (mkRateData 1 now_) s)
      else if config.rateLimit_maxRequests <=? count requestData then
        let retryAfter :=
          ceil_div_1000 (config.rateLimit_windowMs - (now_ - firstRequest requestData)) in
        (mkRateResult false (Some retryAfter), s)
      else
        (mkRateResult true None,
         rate_set key (mkRateData (count requestData + 1) (firstRequest requestData)) s)
  end.

(** [checkRateLimit] when [Date.now()] is [t]. *)
Definition call_at (clientIP : string) (t : Z) (s : State) : RateResult * State :=
  checkRateLimit clientIP (set_now t s).

(** The client has a window that started at [f], counts [c] requests, and
    whose cache entry lives until the window is over at least. *)
Definition window (clientIP : string) (c f : Z) (s : State) : Prop :=
  exists t, rateLimitCache s !! ("rate_" ++ clientIP) = Some (mkRateData c f, t)
            /\ f + config.rateLimit_windowMs <= t.

(** [n] further calls inside the window, at the times [ts]. *)
Fixpoint calls_at (clientIP : string) (ts : list Z) (s : State)
  : list RateResult * State :=
  match ts with
  | [] => ([], s)
  | t :: ts' =>
      let '(r, s1) := call_at clientIP t s in
      let '(rs, s2) := calls_at clientIP ts' s1 in
      (r :: rs, s2)
  end.

(** Times in order, from [lo] on, none after [hi]. *)
Fixpoint ordered (lo : Z) (ts : list Z) (hi : Z) : Prop :=
  match ts with
  | [] => lo <= hi
  | t :: ts' => lo <= t /\ ordered t ts' hi
  end.

(** ** getClientIP *)

Inductive HeaderValue :=
| HString (s : string)
| HArray (xs : list string).

Record Request := mkRequest {
  method : string;
  body_url : option string;             (* req.body.url when it is a string *)
  x_forwarded_for : option HeaderValue; (* req.headers['x-forwarded-for'] *)
  remoteAddress : option string         (* req.connection.remoteAddress *)
}.

(** The result is [None] where the JavaScript expression yields undefined
    (the first element of an empty array). *)
Definition getClientIP (req : Request) : option string :=
  match x_forwarded_for req with
  | Some (HArray xs) => head xs
  | Some (HString s) =>
      if Str.truthy s then Some (Str.split_comma_head s)
      else match remoteAddress req with
           | Some a => if Str.truthy a then Some a else Some "unknown"
           | None => Some "unknown"
           end
  | None =>
      match remoteAddress req with
      | Some a => if Str.truthy a then Some a else Some "unknown"
      | None => Some "unknown"
      end
  end.

(** The client identifier as it enters the template string of the key. *)
Definition ip_string (ip : option string) : string :=
  match ip with Some s => s | None => "undefined" end.

(** Neither an x-forwarded-for header nor a remote address. *)
Definition anonymous (req : Request) : Prop :=
  x_forwarded_for req = None /\ remoteAddress req = None.

(** The rate limiter as the handler calls it, for requests that arrive at
    the given times. *)
Fixpoint requests_at (rts : list (Request * Z)) (s : State)
  : list RateResult * State :=
  match rts with
  | [] => ([], s)
  | (req, t) :: rest =>
      let '(r, s1) := call_at (ip_string (getClientIP req)) t s in
      let '(rs, s2) := requests_at rest s1 in
      (r :: rs, s2)
  end.

(** ** Thrown values and completions *)

Inductive Thrown :=
| ErrorObj (message : string)     (* an Error carrying this message *)
| Undefined.                      (* [throw lastError!] before any assignment *)

Inductive Completion (A : Type) :=
| Normal (a : A)
| Throws (e : Thrown).
Arguments Normal {A} a.
Arguments Throws {A} e.

(** ** retryOperation

    An operation, started in a state, settles after [d] milliseconds with a
    completion and leaves its effects in the state. [Promise.race] picks
    the operation when it settles before the timer ([d < timeoutMs]) and
    the timer's rejection otherwise; the loser is not cancelled, so the
    effects of the operation stay either way. *)

Definition Operation (T : Type) : Type := State -> (Z * Completion T) * State.

Definition timeoutError : Thrown := ErrorObj "Operation timed out".

Definition race {T} (timeoutMs : Z) (settled : Z * Completion T) : Z * Completion T :=
  if fst settled <? timeoutMs then settled else (timeoutMs, Throws timeoutError).

(** The [for] loop: [n] iterations are left, [attempt] is the loop
    variable, [lastError] the variable of that name. *)
Fixpoint retry_loop {T} (operation : Operation T) (maxRetries delay timeoutMs : Z)
         (n : nat) (attempt : Z) (lastError : Thrown) (s : State)
  : Completion T * State :=
  match n with
  | O => (Throws lastError, s)
  | S n' =>
      let start := now s in
      let '(settled, s1) := operation (emit (EvTimer timeoutMs) s) in
      let '(d, r) := race timeoutMs settled in
      let s2 := set_now (start + d) s1 in
      match r with
      | Normal v => (Normal v, s2)
      | Throws error =>
          let s3 := if attempt <? maxRetries then sleep (delay * attempt) s2 else s2 in
          retry_loop operation maxRetries delay timeoutMs n' (attempt + 1) error s3
      end
  end.

Definition retryOperation {T} (operation : Operation T)
           (maxRetries delay timeoutMs : Z) (s : State) : Completion T * State :=
  retry_loop operation maxRetries delay timeoutMs (Z.to_nat maxRetries) 1 Undefined s.

Section RetrySpec.

Context {T : Type}.
Variable operation : Operation T.
Variables maxAttempts baseDelay perAttemptTimeout : Z.

(** One attempt, from the state [s] in which it starts, fails with [e] and
    ends in [s2]: the operation rejects with [e] before the timer, or the
    timer wins and [e] is the timeout error. *)
Definition attempt_fails (s : State) (e : Thrown) (s2 : State) : Prop :=
  (exists d s1,
      operation (emit (EvTimer perAttemptTimeout) s) = ((d, Throws e), s1) /\
      d < perAttemptTimeout /\ s2 = set_now (now s + d) s1)
  \/
  (exists d c s1,
      operation (emit (EvTimer perAttemptTimeout) s) = ((d, c), s1) /\
      perAttemptTimeout <= d /\ e = timeoutError /\
      s2 = set_now (now s + perAttemptTimeout) s1).

(** The wrapper as the specification words it, from attempt number [i]
    on: an attempt that the operation wins returns its result; a failed
    attempt with attempts left waits [baseDelay * i] and goes on; the last
    failed attempt hands on its error. *)
Inductive retry_spec : Z -> State -> Completion T * State -> Prop :=
| spec_returns i s d v s1 :
    operation (emit (EvTimer perAttemptTimeout) s) = ((d, Normal v), s1) ->
    d < perAttemptTimeout ->
    retry_spec i s (Normal v, set_now (now s + d) s1)
| spec_retries i s e s2 r :
    i < maxAttempts ->
    attempt_fails s e s2 ->
    retry_spec (i + 1) (sleep (baseDelay * i) s2) r ->
    retry_spec i s r
| spec_propagates i s e s2 :
    i = maxAttempts ->
    attempt_fails s e s2 ->
    retry_spec i s (Throws e, s2).

End RetrySpec.

(** ** The file system calls *)

Definition existsSync (path : string) (s : State) : bool :=
  match files s !! path with Some _ => true | None => false end.

Definition tmp_name (path : string) : option string :=
  if Str.startsWith path "/tmp/" then Some (String.substring 5 (String.length path - 5) path)
  else None.

(** [readdirSync('/tmp')] *)
Definition readdirSync_tmp (s : State) : list string :=
  omap (fun kv => tmp_name (fst kv)) (map_to_list (files s)).

(** ** createCleanupFunction: the closure and its captured [cleaned] *)

Record Cleanup := mkCleanup { cl_outputPath : string; cleaned : bool }.

Definition createCleanupFunction (outputPath : string) : Cleanup :=
  mkCleanup outputPath false.

(** ** waitForSlot: constants *)

Definition maxWaitTime : Z := 60000.
Definition checkInterval : Z := 1000.
Definition busyError : Thrown := ErrorObj "Server too busy. Please try again later.".

(** One test of the [while] condition and of the deadline inside it. *)
Inductive Poll := PollFree | PollBusy | PollSleep.

Definition poll (startTime now_ active : Z) : Poll :=
  if maxConcurrent <=? active then
    if maxWaitTime <? now_ - startTime then PollBusy else PollSleep
  else PollFree.

(** ** Responses *)

Inductive Response :=
| RJson (status : Z) (error : string) (retryAfter : option Z) (load : option (Z * Z))
| RStream (headers : list (string * string)) (path : string).

(** The outcome of one run of youtubedl. *)
Record ToolRun := mkToolRun {
  tr_duration : Z;
  tr_error : option string;           (* None: resolved; Some m: rejected, message m *)
  tr_files : list (string * Z)        (* names and sizes written under /tmp *)
}.

Definition is_invoke (e : Event) : bool :=
  match e with EvInvoke _ => true | _ => false end.

Definition invocations (l : list Event) : list Event := List.filter is_invoke l.

Definition write_files (fs : list (string * Z)) (s : State) : State :=
  set_files (fold_left (fun m nf => <[("/tmp/" ++ fst nf) := snd nf]> m) fs (files s)) s.

Definition contentTypes : list (string * string) :=
  [(".mp4", "video/mp4"); (".webm", "video/webm"); (".mkv", "video/x-matroska");
   (".avi", "video/x-msvideo"); (".mov", "video/quicktime"); (".flv", "video/x-flv");
   (".m4v", "video/mp4")].

Fixpoint assoc (k : string) (l : list (string * string)) : option string :=
  match l with
  | [] => None
  | (k', v) :: l' => if String.eqb k k' then Some v else assoc k l'
  end.

Definition MB : Z := 1024 * 1024.

(** The double quote that surrounds the file name in Content-Disposition. *)
Definition dquote : string := String (ascii_of_nat 34) EmptyString.

(** The error classification of the [catch] block. *)
Definition classify (error : Thrown) : string * Z :=
  match error with
  | ErrorObj message =>
      let errorMsg := Str.toLowerCase message in
      if Str.includes errorMsg "server too busy" then
        ("Server is currently busy. Please try again in a few minutes.", 503)
      else if Str.includes errorMsg "timed out" then
        ("Download timed out. Please try again with a shorter video.", 408)
      else if Str.includes errorMsg "unsupported url" then
        ("This URL is not supported", 400)
      else if Str.includes errorMsg "video unavailable" then
        ("Video is unavailable or private", 404)
      else if Str.includes errorMsg "file too large" then
        (message, 413)
      else if Str.includes errorMsg "network" || Str.includes errorMsg "connection" then
        ("Network error occurred. Please try again.", 503)
      else if Str.includes errorMsg "rate" || Str.includes errorMsg "429" then
        ("Too many requests. Please try again later.", 429)
      else ("Download failed", 500)
  | Undefined => ("Download failed", 500)
  end.

(** ** The two formats, and counting their invocations in the log *)

Definition primary_format : string := "best[height<=720]/best".
Definition fallback_format : string := "best".

Definition is_fallback (e : Event) : bool :=
  match e with EvInvoke f => String.eqb f fallback_format | _ => false end.

Definition is_primary (e : Event) : bool :=
  match e with EvInvoke f => String.eqb f primary_format | _ => false end.

Definition fallbacks (l : list Event) : nat := length (List.filter is_fallback l).
Definition primaries (l : list Event) : nat := length (List.filter is_primary l).

(** What waiting for a slot and cleaning up leave alone: the two caches
    and the numbers of primary and fallback invocations in the log. *)
Record Kept := mkKept {
  k_videoCache : gmap string (CachedVideo * Z);
  k_rateLimitCache : gmap string (RateData * Z);
  k_primaries : nat;
  k_fallbacks : nat
}.

Definition kept (s : State) : Kept :=
  mkKept (videoCache s) (rateLimitCache s) (primaries (log s)) (fallbacks (log s)).

(** From [s] to [s'] the log gained [p] primary and [f] fallback
    invocations. *)
Definition invoked (p f : nat) (s s' : State) : Prop :=
  primaries (log s') = (primaries (log s) + p)%nat /\
  fallbacks (log s') = (fallbacks (log s) + f)%nat.

(** Over a request: no more fallback than primary invocations, and no more
    primary invocations than the retry loop has attempts. *)
Definition bounded_invocations (s s' : State) : Prop :=
  exists p f, invoked p f s s' /\ (f <= p <= Z.to_nat config.maxRetries)%nat.

(** ** The handler and what it calls, over the external collaborators *)

Section Handler.

(** [new URL(url).hostname]; [None] when the constructor throws. *)
Variable url_hostname : string -> option string.
(** [crypto.createHash('sha256').update(url).digest('hex')] *)
Variable sha256_hex : string -> string.
(** [path.extname] *)
Variable extname : string -> string.
(** [sanitizeFilename], a chain of regular-expression replacements. *)
Variable sanitizeFilename : string -> string.
(** [(fileSize / (1024 * 1024)).toFixed(1)] *)
Variable toFixed1_MB : Z -> string.
(** The run of youtubedl number [n] on a url, output template and format. *)
Variable youtubedl : nat -> string -> string -> string -> ToolRun.
(** Whether [unlinkSync] / [copyFileSync] throw on a path. *)
Variable unlink_fails : string -> bool.
Variable copy_fails : string -> bool.
(** What the other requests make of [activeDownloads] while this one
    sleeps in [waitForSlot]: from the time and the value to the value. *)
Variable others : Z -> Z -> Z.

(** *** isAllowedDomain *)

Definition domain_matches (hostname domain : string) : bool :=
  String.eqb hostname domain || Str.endsWith hostname ("." ++ domain).

Definition isAllowedDomain (url : string) : bool :=
  match url_hostname url with
  | Some h =>
      let hostname := Str.toLowerCase h in
      existsb (domain_matches hostname) config.allowedDomains
  | None => false
  end.

Definition getCacheKey (url : string) : string := sha256_hex url.

(** *** unlinkSync: [None] when it throws *)

Definition unlinkSync (path : string) (s : State) : option State :=
  if unlink_fails path || negb (existsSync path s) then None
  else Some (emit (EvUnlink path) (set_files (delete path (files s)) s)).

(** *** The closure returned by createCleanupFunction *)

Definition run_cleanup (c : Cleanup) (s : State) : Cleanup * State :=
  if cleaned c then (c, s)
  else
    let c' := mkCleanup (cl_outputPath c) true in
    (* try { ... } catch { log } *)
    let s1 :=
      if Str.truthy (cl_outputPath c) && existsSync (cl_outputPath c) s then
        match unlinkSync (cl_outputPath c) s with
        | Some s' => s'
        | None => s
        end
      else s in
    (* finally { ... } *)
    let s2 :=
      if 0 <? activeDownloads s1
      then set_activeDownloads (activeDownloads s1 - 1) s1
      else s1 in
    (c', s2).

(** [n] invocations of the same closure, one after the other. *)
Fixpoint cleanup_times (n : nat) (c : Cleanup) (s : State) : Cleanup * State :=
  match n with
  | O => (c, s)
  | S n' => let '(c', s') := run_cleanup c s in cleanup_times n' c' s'
  end.

(** *** waitForSlot *)

Definition interfere (s : State) : State :=
  set_activeDownloads (others (now s) (activeDownloads s)) s.

Fixpoint waitForSlot_loop (fuel : nat) (startTime : Z) (s : State)
  : option (Completion unit * State) :=
  match fuel with
  | O => None
  | S fuel' =>
      match poll startTime (now s) (activeDownloads s) with
      | PollFree => Some (Normal tt, s)
      | PollBusy => Some (Throws busyError, s)
      | PollSleep => waitForSlot_loop fuel' startTime (interfere (sleep checkInterval s))
      end
  end.

(** 62 tests of the loop condition are the most that one call makes
    ([waitForSlot_total] below), so the second branch is never taken. *)
Definition waitForSlot (s : State) : Completion unit * State :=
  match waitForSlot_loop 62 (now s) s with
  | Some r => r
  | None => (Throws busyError, s)
  end.

(** *** The operation handed to retryOperation *)

Definition invoke (url output format : string) (s : State) : ToolRun * State :=
  let r := youtubedl (length (invocations (log s))) url output format in
  (r, write_files (tr_files r) (emit (EvInvoke format) s)).

Definition format_unavailable (message : string) : bool :=
  Str.truthy message && Str.includes message "Requested format is not available".

Definition download_operation (url output : string) : Operation unit :=
  fun s =>
    let '(r1, s1) := invoke url output primary_format s in
    match tr_error r1 with
    | None => ((tr_duration r1, Normal tt), s1)
    | Some message =>
        if format_unavailable message then
          let '(r2, s2) := invoke url output fallback_format s1 in
          match tr_error r2 with
          | None => ((tr_duration r1 + tr_duration r2, Normal tt), s2)
          | Some message2 =>
              ((tr_duration r1 + tr_duration r2, Throws (ErrorObj message2)), s2)
          end
        else ((tr_duration r1, Throws (ErrorObj message)), s1)
    end.

(** What one run of the operation adds to the log: the primary invocation
    and, when that one fails on the format, one fallback invocation. *)
Definition operation_trace (url output : string) (s : State) : list Event :=
  let r1 := youtubedl (length (invocations (log s))) url output primary_format in
  match tr_error r1 with
  | Some message =>
      if format_unavailable message
      then [EvInvoke primary_format; EvInvoke fallback_format]
      else [EvInvoke primary_format]
  | None => [EvInvoke primary_format]
  end.

(** *** The [try] block of the handler

    The result carries the local [outputPath] as it stands where the
    block is left, for the [catch] block to read. The call of the history
    sink (getServerSession, saveDownload) sits in a [try] of its own whose
    [catch] only logs, and touches nothing of [State]; it is left out. *)

Definition hit_headers (c : CachedVideo) : list (string * string) :=
  [("Content-Type", contentType c);
   ("Content-Length", pretty (size c));
   ("Content-Disposition", "attachment; filename=" ++ dquote ++ filename c ++ dquote);
   ("Cache-Control", "no-cache, no-store, must-revalidate");
   ("X-Cache", "HIT");
   ("X-Download-Time", "0")].

Definition miss_headers (ctype sanitized : string) (fileSize downloadTime active : Z)
  : list (string * string) :=
  [("Content-Type", ctype);
   ("Content-Length", pretty fileSize);
   ("Content-Disposition", "attachment; filename=" ++ dquote ++ sanitized ++ dquote);
   ("Cache-Control", "no-cache, no-store, must-revalidate");
   ("Connection", "keep-alive");
   ("Keep-Alive", "timeout=300, max=1000");
   ("X-Cache", "MISS");
   ("X-Download-Time", pretty downloadTime);
   ("X-File-Size", toFixed1_MB fileSize ++ "MB");
   ("X-Active-Downloads", pretty active)].

Definition video_prefix (timestamp : Z) : string :=
  "video_" ++ pretty timestamp ++ "_".

Definition is_download (timestamp : Z) (file : string) : bool :=
  Str.startsWith file (video_prefix timestamp) && negb (Str.endsWith file ".part").

(** Populate the cache: [copyFileSync] then [videoCache.set], inside a
    [try] whose [catch] only logs. *)
Definition cache_video (cacheKey ext outputPath ctype sanitized : string)
           (fileSize : Z) (s : State) : State :=
  let cacheFilePath := "/tmp/cached_" ++ cacheKey ++ ext in
  if copy_fails cacheFilePath then s
  else
    let s1 := emit (EvCopy outputPath cacheFilePath)
                   (set_files (<[cacheFilePath := fileSize]> (files s)) s) in
    match NodeCache.set (now s1) config.cache_ttl (Some config.cache_maxSize) cacheKey
                        (mkCachedVideo cacheFilePath sanitized ctype fileSize)
                        (videoCache s1) with
    | Some m => set_videoCache m s1
    | None => s1
    end.

(** The cache hit: headers, then the cached file is piped to the
    response. *)
Definition serve_cached (c : CachedVideo) (s : State)
  : (Completion (Response * option Cleanup) * option string) * State :=
  ((Normal (RStream (hit_headers c) (filePath c), None), None),
   emit (EvStream (filePath c)) s).

(** From "Find downloaded file" to the end of the [try] block. *)
Definition deliver (cacheKey : string) (timestamp startTime : Z) (s : State)
  : (Completion (Response * option Cleanup) * option string) * State :=
  let downloadTime := now s - startTime in
  match List.find (is_download timestamp) (readdirSync_tmp s) with
  | None => ((Throws (ErrorObj "Downloaded file not found"), None), s)
  | Some downloadedFile =>
      let outputPath := "/tmp/" ++ downloadedFile in
      match files s !! outputPath with
      | None =>
          ((Throws (ErrorObj "Downloaded file does not exist"), Some outputPath), s)
      | Some fileSize =>
          if config.maxFileSizeMB * MB <? fileSize then
            ((Throws (ErrorObj ("File too large: " ++ toFixed1_MB fileSize
                                ++ "MB (max: " ++ pretty config.maxFileSizeMB
                                ++ "MB)")),
              Some outputPath), s)
          else
            let ext := Str.toLowerCase (extname downloadedFile) in
            let ctype :=
              match assoc ext contentTypes with
              | Some t => t
              | None => "application/octet-stream"
              end in
            let sanitized := sanitizeFilename downloadedFile in
            let s :=
              if fileSize <? 50 * MB
              then cache_video cacheKey ext outputPath ctype sanitized fileSize s
              else s in
            let headers :=
              miss_headers ctype sanitized fileSize downloadTime (activeDownloads s) in
            let cleanup := createCleanupFunction outputPath in
            ((Normal (RStream headers outputPath, Some cleanup), Some outputPath),
             emit (EvStream outputPath) s)
      end
  end.

(** From [await waitForSlot()] on: admission, extraction, delivery. *)
Definition download_fresh (url cacheKey : string) (startTime : Z) (s : State)
  : (Completion (Response * option Cleanup) * option string) * State :=
  match waitForSlot s with
  | (Throws e, s) => ((Throws e, None), s)
  | (Normal _, s) =>
      let s := set_activeDownloads (activeDownloads s + 1) s in
      let timestamp := now s in
      let outputTemplate := "/tmp/" ++ video_prefix timestamp ++ "%(title)s.%(ext)s" in
      match retryOperation (download_operation url outputTemplate)
                           config.maxRetries config.retryDelay
                           config.downloadTimeoutMs s with
      | (Throws e, s) => ((Throws e, None), s)
      | (Normal _, s) => deliver cacheKey timestamp startTime s
      end
  end.

Definition try_block (url : string) (startTime : Z) (s : State)
  : (Completion (Response * option Cleanup) * option string) * State :=
  let cacheKey := getCacheKey url in
  let '(cachedVideo, vc) := NodeCache.get (now s) cacheKey (videoCache s) in
  let s := set_videoCache vc s in
  match cachedVideo with
  | Some c =>
      if existsSync (filePath c) s then serve_cached c s
      else download_fresh url cacheKey startTime s
  | None => download_fresh url cacheKey startTime s
  end.

(** The entry under the key of [url] is within its time to live. *)
Definition cached (url : string) (c : CachedVideo) (s : State) : Prop :=
  exists t, videoCache s !! getCacheKey url = Some (c, t) /\
            NodeCache.expired (now s) t = false.

(** *** The [catch] block *)

Definition catch_cleanup (cleanup : option Cleanup) (outputPath : option string)
           (s : State) : State :=
  match cleanup with
  | Some c => snd (run_cleanup c s)
  | None =>
      match outputPath with
      | Some p =>
          if Str.truthy p && existsSync p s then
            match unlinkSync p s with
            | Some s' => set_activeDownloads (Z.max 0 (activeDownloads s' - 1)) s'
            | None => s
            end
          else s
      | None => s
      end
  end.

Definition catch_block (error : Thrown) (cleanup : option Cleanup)
           (outputPath : option string) (s : State) : Response * State :=
  let s := catch_cleanup cleanup outputPath s in
  let '(errorMessage, statusCode) := classify error in
  (RJson statusCode errorMessage None (Some (activeDownloads s, maxConcurrent)), s).

(** *** handler

    Where the [try] block can throw, [cleanup] is still undefined: it is
    assigned after the last statement that throws. The [catch] block is
    therefore entered with [cleanup] undefined and [outputPath] as the
    block left it. After a normal end the closure is what the stream's
    'end' and 'error' events and the request's 'close' event invoke. *)

Definition domain_error : string :=
  "Domain not supported. Supported domains: " ++ Str.join ", " config.allowedDomains.

Definition rate_error : string :=
  "Rate limit exceeded. Max " ++ pretty config.rateLimit_maxRequests
  ++ " downloads per " ++ pretty (config.rateLimit_windowMs / 60000) ++ " minutes.".

(** [rateLimitResult.retryAfter || 900] *)
Definition retryAfter_or_900 (r : option Z) : Z :=
  match r with
  | Some x => if x =? 0 then 900 else x
  | None => 900
  end.

Definition handler (req : Request) (s : State)
  : (Response * option Cleanup) * State :=
  if negb (String.eqb (method req) "POST") then
    ((RJson 405 "Method not allowed" None None, None), s)
  else
    let clientIP := getClientIP req in
    match body_url req with
    | None => ((RJson 400 "URL parameter is required" None None, None), s)
    | Some url =>
        if negb (Str.truthy url) then
          ((RJson 400 "URL parameter is required" None None, None), s)
        else
          match url_hostname url with
          | None => ((RJson 400 "Invalid URL format" None None, None), s)
          | Some _ =>
              if negb (isAllowedDomain url) then
                ((RJson 400 domain_error None None, None), s)
              else
                let '(rateLimitResult, s) := checkRateLimit (ip_string clientIP) s in
                if negb (allowed rateLimitResult) then
                  ((RJson 429 rate_error
                          (Some (retryAfter_or_900 (retryAfter rateLimitResult))) None,
                    None), s)
                else
                  let startTime := now s in
                  match try_block url startTime s with
                  | ((Normal r, _), s) => (r, s)
                  | ((Throws error, outputPath), s) =>
                      let '(resp, s) := catch_block error None outputPath s in
                      ((resp, None), s)
                  end
          end
    end.

(** A POST request whose body carries a url of an allow-listed host. *)
Definition acceptable (req : Request) (url : string) : Prop :=
  method req = "POST" /\ body_url req = Some url /\ Str.truthy url = true /\
  isAllowedDomain url = true.

End Handler.

(** ** Several requests at the gate

    A handler runs in segments that end at each [await]; a segment is
    atomic, and between two segments of one request the segments of other
    requests that are ready may run. [await waitForSlot()] ends a segment
    even when the promise is already resolved, so the test of the loop
    condition and [activeDownloads++] are in different segments. The
    system below keeps, of each request, where it stands relative to the
    gate. *)

Module Gate.

Inductive Phase :=
| Sleeping (startTime wake : Z)   (* in waitForSlot, awaiting the setTimeout *)
| Resuming                        (* waitForSlot has returned; the rest of the
                                     handler is queued behind the await *)
| Holding                         (* past activeDownloads++ *)
| Rejected                        (* waitForSlot threw *)
| Finished.                       (* the cleanup closure has run *)

Record Sys := mkSys { clock : Z; active : Z; reqs : list Phase }.

Definition after_poll (startTime now_ : Z) (p : Poll) : Phase :=
  match p with
  | PollFree => Resuming
  | PollBusy => Rejected
  | PollSleep => Sleeping startTime (now_ + checkInterval)
  end.

(** The guarded decrement in the [finally] of the cleanup closure. *)
Definition decrement (a : Z) : Z := if 0 <? a then a - 1 else a.

Inductive step : Sys -> Sys -> Prop :=
| step_tick sys dt :
    0 <= dt ->
    step sys (mkSys (clock sys + dt) (active sys) (reqs sys))
| step_arrive sys :
    (* from the start of the handler to [await waitForSlot()] *)
    step sys (mkSys (clock sys) (active sys)
                    (reqs sys ++ [after_poll (clock sys) (clock sys)
                                    (poll (clock sys) (clock sys) (active sys))]))
| step_wake sys i startTime wake :
    (* the timer fires and the loop tests its condition again *)
    reqs sys !! i = Some (Sleeping startTime wake) ->
    wake <= clock sys ->
    step sys (mkSys (clock sys) (active sys)
                    (<[i := after_poll startTime (clock sys)
                               (poll startTime (clock sys) (active sys))]> (reqs sys)))
| step_admit sys i :
    (* the segment after [await waitForSlot()]: activeDownloads++ *)
    reqs sys !! i = Some Resuming ->
    step sys (mkSys (clock sys) (active sys + 1) (<[i := Holding]> (reqs sys)))
| step_release sys i :
    reqs sys !! i = Some Holding ->
    step sys (mkSys (clock sys) (decrement (active sys)) (<[i := Finished]> (reqs sys))).

(** Four requests arrive while no download is active; each finds the loop
    condition of waitForSlot false and is suspended at the await; then
    each runs its increment. *)
Definition four_resuming : Sys := mkSys 0 0 [Resuming; Resuming; Resuming; Resuming].
Definition four_holding : Sys := mkSys 0 4 [Holding; Holding; Holding; Holding].

Definition is_holding (p : Phase) : bool :=
  match p with Holding => true | _ => false end.

(** The number of requests that are past their increment and have not
    run their cleanup. *)
Definition holding (l : list Phase) : Z := Z.of_nat (length (List.filter is_holding l)).

Definition init : Sys := mkSys 0 0 [].

Definition reachable (sys : Sys) : Prop := rtc step init sys.

End Gate.

(** ** Concrete collaborators, for running the handler *)

Module Demo.

(** The host of an https url: what stands between the scheme and the
    first slash. *)
Fixpoint until_slash (s : string) : string :=
  match s with
  | EmptyString => EmptyString
  | String c s' => if Ascii.eqb c "/" then EmptyString else String c (until_slash s')
  end.

Definition hostname (url : string) : option string :=
  if Str.startsWith url "https://"
  then Some (until_slash (String.substring 8 (String.length url - 8) url))
  else None.

Definition ext_mp4 (file : string) : string := ".mp4".
Definition same (x : string) : string := x.
Definition no_digits (fileSize : Z) : string := "0.0".
Definition never (path : string) : bool := false.
Definition nobody (t a : Z) : Z := a.

(** A tool that rejects every run with the same message and writes
    nothing. *)
Definition failing_tool (message : string) (n : nat) (url output format : string)
  : ToolRun := mkToolRun 2000 (Some message) [].

Definition handler_with (tool : nat -> string -> string -> string -> ToolRun)
  : Request -> State -> (Response * option Cleanup) * State :=
  handler hostname same ext_mp4 same no_digits tool never never nobody.

Definition empty_state : State := mkState 0 ∅ ∅ 0 ∅ [].

Definition post (url : string) (ip : string) : Request :=
  mkRequest "POST" (Some url) None (Some ip).

Definition youtube_url : string := "https://youtube.com/watch?v=X".

End Demo.

Definition demo_state : State :=
  mkState 0 ∅ ∅ 1 (<["/tmp/video_0_a.mp4" := 10]> ∅) [].

(** An operation that never settles in time. *)
Definition hanging : Operation unit := fun s => ((1000000000, Normal tt), s).

Module DemoCache.

Definition clip : CachedVideo :=
  mkCachedVideo "/tmp/cached_clip.mp4" "clip.mp4" "video/mp4" 10.

(** The clip is cached under the key of the url, and its file is there. *)
Definition hit_state : State :=
  mkState 0 ∅ (<[Demo.youtube_url := (clip, 7200000)]> ∅) 0
          (<["/tmp/cached_clip.mp4" := 10]> ∅) [].

(** The same, after the file has been removed behind the cache's back. *)
Definition stale_state : State :=
  mkState 0 ∅ (<[Demo.youtube_url := (clip, 7200000)]> ∅) 0 ∅ [].

Definition unavailable : nat -> string -> string -> string -> ToolRun :=
  Demo.failing_tool "ERROR: Video unavailable".

End DemoCache.

Module DemoLeak.

(** A tool that reports success and leaves only a partial file. *)
Definition partial_tool (n : nat) (url output format : string) : ToolRun :=
  mkToolRun 2000 None [("video_0_clip.mp4.part", 500)].

End DemoLeak.

Module DemoAnon.

Definition bare (url : string) : Request := mkRequest "POST" (Some url) None None.

Definition a : Request := bare "https://youtube.com/watch?v=A".
Definition b : Request := bare "https://youtu.be/B".

End DemoAnon.

(** ** Further notions about the rate limiter *)

(** Every stored window counts at least one request and at most
    [maxRequests]. *)
Definition rate_ok (s : State) : Prop :=
  forall key d t,
    rateLimitCache s !! key = Some (d, t) ->
    1 <= count d <= config.rateLimit_maxRequests.

(** No stored window starts after the current time. *)
Definition rate_past (s : State) : Prop :=
  forall key d t,
    rateLimitCache s !! key = Some (d, t) -> firstRequest d <= now s.

Module DemoRate.

(** The client 1.2.3.4 has used up its window, which started at time 0. *)
Definition limited_state : State :=
  mkState 5 (<["rate_1.2.3.4" := (mkRateData 5 0, 900000)]> ∅) ∅ 0 ∅ [].

End DemoRate.

(** ** Texts as toFixed prints them *)

Definition digit_or_dot (c : ascii) : bool :=
  let n := nat_of_ascii c in
  ((48 <=? n)%nat && (n <=? 57)%nat) || Ascii.eqb c ".".

(** Decimal digits and full stops only. *)
Fixpoint plain_number (s : string) : bool :=
  match s with
  | EmptyString => true
  | String c s' => digit_or_dot c && plain_number s'
  end.

(** The character occurs in the text. *)
Fixpoint occurs (c : ascii) (s : string) : bool :=
  match s with
  | EmptyString => false
  | String x s' => Ascii.eqb c x || occurs c s'
  end.

(** The message of the error thrown for a file above the limit. *)
Definition too_large_message (formatted : string) : string :=
  "File too large: " ++ formatted ++ "MB (max: 100MB)".

Module DemoDeliver.

(** A tool whose first run succeeds and leaves one finished file of the
    given size. *)
Definition tool (fileSize : Z) (n : nat) (url output format : string) : ToolRun :=
  mkToolRun 2000 None [("video_0_clip.mp4", fileSize)].

(** After the download of request time 0: one slot taken, the file in
    place. *)
Definition downloaded (fileSize : Z) : State :=
  mkState 2000 ∅ ∅ 1 (<["/tmp/video_0_clip.mp4" := fileSize]> ∅) [].

Definition one_decimal (fileSize : Z) : string := "123.4".

End DemoDeliver.

(** ** The size of the video cache *)

(** No more entries than [maxKeys]. *)
Definition cache_bounded (s : State) : Prop :=
  Z.of_nat (base.size (videoCache s)) <= config.cache_maxSize.

(** The content type that goes with a file extension. *)
Definition content_type_of (ext : string) : string :=
  match assoc ext contentTypes with
  | Some t => t
  | None => "application/octet-stream"
  end.

(** ** sanitizeFilename

    The regular expressions of [sanitizeFilename] carry no [u] flag: they
    work on the UTF-16 code units of the string, so here a string is the
    list of its code units. *)

Module Sanitize.

(** [\w] *)
Definition is_word (c : Z) : bool :=
  ((48 <=? c) && (c <=? 57)) || ((65 <=? c) && (c <=? 90))
  || ((97 <=? c) && (c <=? 122)) || (c =? 95).

(** [\s], which is also what [trim] strips: the white space and line
    terminator code points. *)
Definition is_space (c : Z) : bool :=
  ((9 <=? c) && (c <=? 13)) || (c =? 32) || (c =? 160) || (c =? 5760)
  || ((8192 <=? c) && (c <=? 8202)) || (c =? 8232) || (c =? 8233)
  || (c =? 8239) || (c =? 8287) || (c =? 12288) || (c =? 65279).

(** The class [\w\s\-_.()] whose complement the first replace removes. *)
Definition is_kept (c : Z) : bool :=
  is_word c || is_space c || (c =? 45) || (c =? 95) || (c =? 46)
  || (c =? 40) || (c =? 41).

(** [.replace(/[^\w\s\-_.()]/g, '')] *)
Definition strip (l : list Z) : list Z := List.filter is_kept l.

(** [.replace(/\s+/g, ' ')]: [in_run] says that the code unit before was
    white space, whose run has been replaced already. *)
Fixpoint collapse_from (in_run : bool) (l : list Z) : list Z :=
  match l with
  | [] => []
  | c :: l' =>
      if is_space c
      then (if in_run then collapse_from true l' else 32 :: collapse_from true l')
      else c :: collapse_from false l'
  end.

Definition collapse (l : list Z) : list Z := collapse_from false l.

Fixpoint trim_start (l : list Z) : list Z :=
  match l with
  | [] => []
  | c :: l' => if is_space c then trim_start l' else l
  end.

Fixpoint trim_end (l : list Z) : list Z :=
  match l with
  | [] => []
  | c :: l' =>
      match trim_end l' with
      | [] => if is_space c then [] else [c]
      | r => c :: r
      end
  end.

(** [.trim()] *)
Definition trim (l : list Z) : list Z := trim_end (trim_start l).

(** [.substring(0, 180)] *)
Definition substring_0_180 (l : list Z) : list Z := firstn 180 l.

Definition sanitizeFilename (filename : list Z) : list Z :=
  substring_0_180 (trim (collapse (strip filename))).

(** A letter, a digit, an underscore, a space, a hyphen, a full stop or a
    parenthesis. *)
Definition is_plain (c : Z) : bool :=
  is_word c || (c =? 32) || (c =? 45) || (c =? 46) || (c =? 40) || (c =? 41).

(** No space follows a space. *)
Fixpoint single_spaced (l : list Z) : bool :=
  match l with
  | [] => true
  | c :: l' =>
      match l' with
      | d :: _ => negb ((c =? 32) && (d =? 32)) && single_spaced l'
      | [] => true
      end
  end.

(** The code units of a text in ASCII. *)
Fixpoint units (s : string) : list Z :=
  match s with
  | EmptyString => []
  | String c s' => Z.of_nat (nat_of_ascii c) :: units s'
  end.

End Sanitize.

(** A tool that takes 400 seconds over every run. *)

Module DemoSlow.

Definition tool (n : nat) (url output format : string) : ToolRun :=
  mkToolRun 400000 None [].

End DemoSlow.

(** ** The page that calls the handler ([handleDownload])

    What the page reads off a response that is ok. *)

Module Client.

(** [response.headers.get(name)]: names compare without regard to case.
    The handler sets each name once. *)
Fixpoint headers_get (name : string) (headers : list (string * string))
  : option string :=
  match headers with
  | [] => None
  | (k, v) :: rest =>
      if String.eqb (Str.toLowerCase k) (Str.toLowerCase name) then Some v
      else headers_get name rest
  end.

(** [x || d], for [x] a string or null. *)
Definition or_default (x : option string) (d : string) : string :=
  match x with
  | Some v => if Str.truthy v then v else d
  | None => d
  end.

Definition cacheStatus (headers : list (string * string)) : option string :=
  headers_get "X-Cache-Status" headers.

Definition videoTitle (headers : list (string * string)) : string :=
  or_default (headers_get "X-Video-Title" headers) "Downloaded Video".

Definition platform (headers : list (string * string)) : string :=
  or_default (headers_get "X-Platform" headers) "Unknown".

(** [cacheStatus === 'HIT'] *)
Definition cached (headers : list (string * string)) : bool :=
  match cacheStatus headers with
  | Some v => String.eqb v "HIT"
  | None => false
  end.

Definition cacheMessage (headers : list (string * string)) : string :=
  if cached headers then " (cached)" else "".

Definition message (headers : list (string * string)) : string :=
  "Download successful" ++ cacheMessage headers.

(** *** The file name

    The regular expression of the page: the literal [filename=], an
    optional quote, a group of one or more characters that are no quote,
    an optional quote. *)

Definition is_quote (c : ascii) : bool := Ascii.eqb c (ascii_of_nat 34).

(** What is left of [s] after the literal [p], when [s] starts with it. *)
Fixpoint after_literal (p s : string) : option string :=
  match p with
  | EmptyString => Some s
  | String a p' =>
      match s with
      | String b s' => if Ascii.eqb a b then after_literal p' s' else None
      | EmptyString => None
      end
  end.

(** The longest run that the group can take. *)
Fixpoint not_quote_run (s : string) : string :=
  match s with
  | EmptyString => EmptyString
  | String c s' => if is_quote c then EmptyString else String c (not_quote_run s')
  end.

(** The group, when it takes at least one character. Nothing makes it
    give any back: the optional quote behind it matches the empty
    string. *)
Definition group (s : string) : option string :=
  let run := not_quote_run s in
  if Str.truthy run then Some run else None.

(** A match that starts at the head of [s]: the literal, then the
    optional quote, tried first as one quote and then as nothing. *)
Definition match_here (s : string) : option string :=
  match after_literal "filename=" s with
  | None => None
  | Some rest =>
      match rest with
      | String c rest' =>
          if is_quote c then
            match group rest' with
            | Some g => Some g
            | None => group rest
            end
          else group rest
      | EmptyString => group rest
      end
  end.

(** The leftmost match; the result is the group. *)
Fixpoint filename_match (s : string) : option string :=
  match match_here s with
  | Some g => Some g
  | None =>
      match s with
      | EmptyString => None
      | String _ s' => filename_match s'
      end
  end.

(** [filenameMatch ? filenameMatch[1] : 'video'] *)
Definition filename (headers : list (string * string)) : string :=
  match headers_get "Content-Disposition" headers with
  | Some contentDisposition =>
      match filename_match contentDisposition with
      | Some g => g
      | None => "video"
      end
  | None => "video"
  end.

Fixpoint no_quote (s : string) : bool :=
  match s with
  | EmptyString => true
  | String c s' => negb (is_quote c) && no_quote s'
  end.

End Client.

(** The headers of a streamed response: those of a hit or of a miss. *)
Definition handler_headers (toFixed1_MB : Z -> string)
           (headers : list (string * string)) : Prop :=
  (exists c, headers = hit_headers c) \/
  (exists ctype sanitized fileSize downloadTime active,
      headers = miss_headers toFixed1_MB ctype sanitized fileSize downloadTime active).

(** Boolean tests on code units, as arithmetic. *)
Ltac units_arith :=
  repeat match goal with
         | H : (_ || _) = true |- _ => apply orb_true_iff in H; destruct H
         | H : (_ || _) = false |- _ => apply orb_false_iff in H; destruct H
         | H : (_ && _) = true |- _ => apply andb_true_iff in H; destruct H
         | H : (_ && _) = false |- _ => apply andb_false_iff in H; destruct H
         | H : (_ <=? _) = true |- _ => apply Z.leb_le in H
         | H : (_ <=? _) = false |- _ => apply Z.leb_gt in H
         | H : (_ =? _) = true |- _ => apply Z.eqb_eq in H
         | H : (_ =? _) = false |- _ => apply Z.eqb_neq in H
         end.

(** ** The download history of the page

    The state [downloadHistory] and the item that localStorage keeps under
    the key downloadHistory. What JSON.stringify writes, JSON.parse and
    [new Date(item.timestamp)] read back as it was, so the stored item is
    kept here as the list it stands for. *)

Module History.

Record HistoryItem := mkHistoryItem {
  id : string;
  title : string;
  url : string;
  platform : string;
  fileSize : string;
  timestamp : Z
}.

Record Entry := mkEntry {
  e_title : string;
  e_url : string;
  e_platform : string;
  e_fileSize : string
}.

Record Page := mkPage {
  downloadHistory : list HistoryItem;
  stored : option (list HistoryItem)
}.

(** The effect on [downloadHistory]: it runs after every render in which
    the state has changed, and writes only a history that is not empty. *)
Definition save_effect (p : Page) : Page :=
  if (0 <? length (downloadHistory p))%nat
  then mkPage (downloadHistory p) (Some (downloadHistory p))
  else p.

Definition setDownloadHistory (h : list HistoryItem) (p : Page) : Page :=
  save_effect (mkPage h (stored p)).

(** [Date.now()] is [t_id], [new Date()] is [t_stamp]. *)
Definition addToHistory (t_id t_stamp : Z) (item : Entry) (p : Page) : Page :=
  let historyItem :=
    mkHistoryItem (pretty t_id) (e_title item) (e_url item) (e_platform item)
                  (e_fileSize item) t_stamp in
  setDownloadHistory (firstn 50 (historyItem :: downloadHistory p)) p.

Definition removeFromHistory (i : string) (p : Page) : Page :=
  setDownloadHistory
    (List.filter (fun item => negb (String.eqb (id item) i)) (downloadHistory p)) p.

Definition clearHistory (p : Page) : Page :=
  save_effect (mkPage [] None).

(** The page as it comes up: the history starts empty, and the effect on
    mount loads what is stored. *)
Definition mount (storage : option (list HistoryItem)) : Page :=
  match storage with
  | Some savedHistory => setDownloadHistory savedHistory (mkPage [] storage)
  | None => save_effect (mkPage [] None)
  end.

(** Leaving the page and coming back. *)
Definition reload (p : Page) : Page := mount (stored p).

Inductive Action :=
| Add (t_id t_stamp : Z) (item : Entry)
| Remove (i : string)
| Clear.

Definition act (a : Action) (p : Page) : Page :=
  match a with
  | Add t_id t_stamp item => addToHistory t_id t_stamp item p
  | Remove i => removeFromHistory i p
  | Clear => clearHistory p
  end.

Definition run (actions : list Action) (p : Page) : Page :=
  fold_left (fun p a => act a p) actions p.

(** What is stored is the history, unless the history is empty. *)
Definition in_step (p : Page) : Prop :=
  downloadHistory p <> [] -> stored p = Some (downloadHistory p).

End History.

(** A page with one download in its history, stored. *)

Module DemoHistory.

Definition item : History.HistoryItem :=
  History.mkHistoryItem "17" "Downloaded Video" "https://youtu.be/x" "Unknown"
                        "1.0MB" 17.

Definition page : History.Page := History.mkPage [item] (Some [item]).

End DemoHistory.

(** * Properties *)

(** ** Strings *)

Lemma truthy_false_empty (s : string) : Str.truthy s = false -> s = "".
Proof. destruct s; [reflexivity | discriminate]. Qed.

(** ** The state setters *)

Lemma activeDownloads_emit e s : activeDownloads (emit e s) = activeDownloads s.
Proof. reflexivity. Qed.

Lemma activeDownloads_sleep ms s : activeDownloads (sleep ms s) = activeDownloads s.
Proof. reflexivity. Qed.

Lemma state_eta s :
  mkState (now s) (rateLimitCache s) (videoCache s) (activeDownloads s) (files s) (log s) = s.
Proof. destruct s; reflexivity. Qed.

(** ** The cleanup closure *)

Section CleanupFacts.

Variable unlink_fails : string -> bool.

Lemma run_cleanup_cleaned c s :
  cleaned (fst (run_cleanup unlink_fails c s)) = true.
Proof.
  unfold run_cleanup. destruct (cleaned c) eqn:E; simpl; [exact E | reflexivity].
Qed.

Lemma run_cleanup_done c s :
  cleaned c = true -> run_cleanup unlink_fails c s = (c, s).
Proof. intros H. unfold run_cleanup. rewrite H. reflexivity. Qed.

Lemma cleanup_times_done n c s :
  cleaned c = true -> cleanup_times unlink_fails n c s = (c, s).
Proof.
  induction n as [|n IH]; intros H; cbn [cleanup_times]; [reflexivity|].
  rewrite run_cleanup_done by exact H. apply IH, H.
Qed.

Lemma unlinkSync_activeDownloads p s s' :
  unlinkSync unlink_fails p s = Some s' -> activeDownloads s' = activeDownloads s.
Proof.
  unfold unlinkSync.
  destruct (unlink_fails p || negb (existsSync p s)); [discriminate|].
  intros [= <-]. reflexivity.
Qed.

(** One invocation takes the counter down by one at most, and never
    below zero. *)
Lemma run_cleanup_counter c s :
  0 <= activeDownloads s ->
  0 <= activeDownloads (snd (run_cleanup unlink_fails c s)) <= activeDownloads s.
Proof.
  intros H0. unfold run_cleanup.
  destruct (cleaned c); simpl; [lia|].
  set (s1 := if Str.truthy (cl_outputPath c) && existsSync (cl_outputPath c) s
             then _ else s).
  assert (E : activeDownloads s1 = activeDownloads s).
  { subst s1. destruct (Str.truthy _ && existsSync _ s); [|reflexivity].
    destruct (unlinkSync _ _ s) eqn:U; [|reflexivity].
    eapply unlinkSync_activeDownloads, U. }
  destruct (0 <? activeDownloads s1) eqn:P; simpl; lia.
Qed.

Lemma cleanup_times_counter n : forall c s,
  0 <= activeDownloads s ->
  0 <= activeDownloads (snd (cleanup_times unlink_fails n c s)) <= activeDownloads s.
Proof.
  induction n as [|n IH]; intros c s H0; cbn [cleanup_times]; [simpl; lia|].
  pose proof (run_cleanup_counter c s H0) as H1.
  destruct (run_cleanup unlink_fails c s) as [c' s']; simpl in H1.
  specialize (IH c' s' ltac:(lia)). lia.
Qed.

(** C3. The closure made by createCleanupFunction is idempotent: once it
    has been invoked, any later invocation, in whatever state it finds,
    changes neither the closure nor the state (so neither activeDownloads
    nor the files); [n + 1] invocations in a row end where the first one
    ends; and no number of invocations takes activeDownloads below zero. *)
Theorem cleanup_idempotent (outputPath : string) (s : State) (n : nat)
        (Hs : 0 <= activeDownloads s) :
  let c0 := createCleanupFunction outputPath in
  let c1 := fst (run_cleanup unlink_fails c0 s) in
  (forall s', run_cleanup unlink_fails c1 s' = (c1, s')) /\
  cleanup_times unlink_fails (S n) c0 s = run_cleanup unlink_fails c0 s /\
  0 <= activeDownloads (snd (cleanup_times unlink_fails n c0 s)) /\
  activeDownloads s - 1 <= activeDownloads (snd (cleanup_times unlink_fails (S n) c0 s)).
Proof.
  intros c0 c1. split; [|split; [|split]].
  - intros s'. apply run_cleanup_done. apply run_cleanup_cleaned.
  - cbn [cleanup_times]. pose proof (run_cleanup_cleaned c0 s) as Hc.
    destruct (run_cleanup unlink_fails c0 s) as [c' s1]; simpl in Hc.
    apply cleanup_times_done, Hc.
  - apply cleanup_times_counter, Hs.
  - cbn [cleanup_times]. pose proof (run_cleanup_cleaned c0 s) as Hc.
    assert (Hd : activeDownloads s - 1
                 <= activeDownloads (snd (run_cleanup unlink_fails c0 s))).
    { unfold run_cleanup, c0; simpl.
      set (s1 := if Str.truthy outputPath && existsSync outputPath s then _ else s).
      assert (E : activeDownloads s1 = activeDownloads s).
      { subst s1. destruct (Str.truthy _ && existsSync _ s); [|reflexivity].
        destruct (unlinkSync _ _ s) eqn:U; [|reflexivity].
        eapply unlinkSync_activeDownloads, U. }
      destruct (0 <? activeDownloads s1); simpl; lia. }
    destruct (run_cleanup unlink_fails c0 s) as [c' s1]; simpl in Hc, Hd.
    rewrite cleanup_times_done by exact Hc. exact Hd.
Qed.

End CleanupFacts.

Lemma cleanup_idempotent_witness :
  let c0 := createCleanupFunction "/tmp/video_0_a.mp4" in
  let c1 := fst (run_cleanup (fun _ => false) c0 demo_state) in
  (forall s', run_cleanup (fun _ => false) c1 s' = (c1, s')) /\
  cleanup_times (fun _ => false) 3 c0 demo_state
    = run_cleanup (fun _ => false) c0 demo_state /\
  0 <= activeDownloads (snd (cleanup_times (fun _ => false) 2 c0 demo_state)) /\
  activeDownloads demo_state - 1
    <= activeDownloads (snd (cleanup_times (fun _ => false) 3 c0 demo_state)).
Proof.
  apply (cleanup_idempotent (fun _ => false) "/tmp/video_0_a.mp4" demo_state 2).
  simpl. lia.
Defined.

(** ** The rate limiter *)

Lemma set_rateLimitCache_same s : set_rateLimitCache (rateLimitCache s) s = s.
Proof. destruct s; reflexivity. Qed.

Lemma ceil_div_1000_pos x : 0 < x -> 0 < ceil_div_1000 x.
Proof.
  intros H. unfold ceil_div_1000.
  assert ((- x) / 1000 < 0) by (apply Z.div_lt_upper_bound; lia). lia.
Qed.

Lemma ceil_div_1000_spec x :
  1000 * (ceil_div_1000 x - 1) < x <= 1000 * ceil_div_1000 x.
Proof.
  unfold ceil_div_1000.
  pose proof (Z.div_mod (- x) 1000 ltac:(lia)).
  pose proof (Z.mod_pos_bound (- x) 1000 ltac:(lia)). lia.
Qed.

Lemma call_first ip t s :
  rateLimitCache s !! ("rate_" ++ ip) = None ->
  fst (call_at ip t s) = mkRateResult true None /\
  window ip 1 t (snd (call_at ip t s)).
Proof.
  intros H. unfold call_at, checkRateLimit, NodeCache.get. simpl.
  rewrite H. simpl. split; [reflexivity|].
  exists (t + 900000). unfold rate_set, NodeCache.set. simpl.
  rewrite lookup_insert_eq. split; [reflexivity|].
  unfold config.rateLimit_windowMs. lia.
Qed.

Lemma not_expired tnow t : tnow <= t -> NodeCache.expired tnow t = false.
Proof.
  intros H. unfold NodeCache.expired.
  destruct (t <? tnow) eqn:E; [lia|]. apply andb_false_r.
Qed.

Lemma call_increment ip c f t s :
  window ip c f s ->
  f <= t -> t - f <= config.rateLimit_windowMs -> c < config.rateLimit_maxRequests ->
  fst (call_at ip t s) = mkRateResult true None /\
  window ip (c + 1) f (snd (call_at ip t s)).
Proof.
  intros (te & Hl & Hte) Hft Hw Hc.
  unfold call_at, checkRateLimit, NodeCache.get. simpl.
  rewrite Hl. rewrite not_expired by lia. simpl.
  destruct (config.rateLimit_windowMs <? t - f) eqn:E1; [lia|].
  destruct (config.rateLimit_maxRequests <=? c) eqn:E2; [lia|].
  simpl. split; [reflexivity|].
  exists (t + 900000). unfold rate_set, NodeCache.set. simpl.
  rewrite lookup_insert_eq. split; [reflexivity|].
  unfold config.rateLimit_windowMs in *. lia.
Qed.

Lemma call_denied ip c f t s :
  window ip c f s ->
  t - f <= config.rateLimit_windowMs -> config.rateLimit_maxRequests <= c ->
  call_at ip t s =
    (mkRateResult false
       (Some (ceil_div_1000 (config.rateLimit_windowMs - (t - f)))),
     set_now t s).
Proof.
  intros (te & Hl & Hte) Hw Hc.
  unfold call_at, checkRateLimit, NodeCache.get. simpl.
  rewrite Hl. rewrite not_expired by lia. simpl.
  destruct (config.rateLimit_windowMs <? t - f) eqn:E1; [lia|].
  destruct (config.rateLimit_maxRequests <=? c) eqn:E2; [|lia].
  reflexivity.
Qed.

(** A window that is over is started again, with count 1. *)
Lemma call_reset ip c f t s :
  window ip c f s ->
  config.rateLimit_windowMs < t - f ->
  fst (call_at ip t s) = mkRateResult true None /\
  window ip 1 t (snd (call_at ip t s)).
Proof.
  intros (te & Hl & Hte) Hw.
  unfold call_at, checkRateLimit, NodeCache.get. simpl. rewrite Hl.
  destruct (NodeCache.expired t te) eqn:Ex; simpl.
  - split; [reflexivity|]. exists (t + 900000).
    unfold rate_set, NodeCache.set. simpl. rewrite lookup_insert_eq.
    split; [reflexivity|]. unfold config.rateLimit_windowMs. lia.
  - destruct (config.rateLimit_windowMs <? t - f) eqn:E1; [|lia].
    simpl. split; [reflexivity|]. exists (t + 900000).
    unfold rate_set, NodeCache.set. simpl. rewrite lookup_insert_eq.
    split; [reflexivity|]. unfold config.rateLimit_windowMs. lia.
Qed.

Lemma ordered_le lo ts hi : ordered lo ts hi -> lo <= hi.
Proof.
  revert lo. induction ts as [|t ts IH]; simpl; intros lo H; [exact H|].
  destruct H as [H1 H2]. specialize (IH _ H2). lia.
Qed.

Lemma calls_in_window ip f hi : forall ts c s,
  window ip c f s ->
  f <= hi -> hi - f <= config.rateLimit_windowMs ->
  c + Z.of_nat (length ts) <= config.rateLimit_maxRequests ->
  forall lo, f <= lo -> ordered lo ts hi ->
  Forall (fun r => r = mkRateResult true None) (fst (calls_at ip ts s)) /\
  length (fst (calls_at ip ts s)) = length ts /\
  window ip (c + Z.of_nat (length ts)) f (snd (calls_at ip ts s)).
Proof.
  induction ts as [|t ts IH]; intros c s Hw Hf Hhi Hc lo Hlo Ho.
  - simpl. rewrite Z.add_0_r. auto.
  - cbn [calls_at]. simpl in Ho. destruct Ho as [Ho1 Ho2].
    pose proof (ordered_le _ _ _ Ho2) as Hle.
    cbn [length] in Hc.
    destruct (call_increment ip c f t s Hw ltac:(lia) ltac:(lia) ltac:(lia))
      as [Hr Hw'].
    destruct (call_at ip t s) as [r s1]; simpl in Hr, Hw'.
    specialize (IH (c + 1) s1 Hw' Hf Hhi ltac:(lia) t ltac:(lia) Ho2).
    destruct (calls_at ip ts s1) as [rs s2]; simpl in IH |- *.
    destruct IH as (IH1 & IH2 & IH3).
    split; [constructor; assumption|]. split; [congruence|].
    replace (c + Z.of_nat (S (length ts))) with (c + 1 + Z.of_nat (length ts)) by lia.
    exact IH3.
Qed.

(** ** The handler up to the rate limiter *)

Section HandlerFacts.

Variable url_hostname : string -> option string.
Variable sha256_hex : string -> string.
Variable extname : string -> string.
Variable sanitizeFilename : string -> string.
Variable toFixed1_MB : Z -> string.
Variable youtubedl : nat -> string -> string -> string -> ToolRun.
Variable unlink_fails : string -> bool.
Variable copy_fails : string -> bool.
Variable others : Z -> Z -> Z.

Local Abbreviation handler_ :=
  (handler url_hostname sha256_hex extname sanitizeFilename toFixed1_MB
           youtubedl unlink_fails copy_fails others).
Local Abbreviation try_block_ :=
  (try_block sha256_hex extname sanitizeFilename toFixed1_MB
             youtubedl copy_fails others).
Local Abbreviation catch_block_ := (catch_block unlink_fails).

Lemma isAllowedDomain_parses url :
  isAllowedDomain url_hostname url = true -> exists h, url_hostname url = Some h.
Proof.
  unfold isAllowedDomain. destruct (url_hostname url) as [h|]; [eauto | discriminate].
Qed.

(** Past the validation the handler asks the rate limiter, and goes on to
    the [try] block when it allows the request. *)
Lemma handler_acceptable req url s :
  acceptable url_hostname req url ->
  handler_ req s =
    let '(r, s1) := checkRateLimit (ip_string (getClientIP req)) s in
    if negb (allowed r) then
      ((RJson 429 rate_error (Some (retryAfter_or_900 (retryAfter r))) None, None), s1)
    else
      match try_block_ url (now s1) s1 with
      | ((Normal r, _), s2) => (r, s2)
      | ((Throws error, outputPath), s2) =>
          let '(resp, s3) := catch_block_ error None outputPath s2 in
          ((resp, None), s3)
      end.
Proof.
  intros (Hm & Hb & Ht & Ha). unfold handler.
  rewrite Hm, Hb, Ht, Ha. simpl.
  destruct (isAllowedDomain_parses url Ha) as [h Hh]. rewrite Hh.
  reflexivity.
Qed.

Lemma handler_rate_limited req url s x :
  acceptable url_hostname req url ->
  checkRateLimit (ip_string (getClientIP req)) s = (mkRateResult false (Some x), s) ->
  handler_ req s = ((RJson 429 rate_error (Some (retryAfter_or_900 (Some x))) None, None), s).
Proof.
  intros Ha Hr. rewrite (handler_acceptable req url s Ha). rewrite Hr. reflexivity.
Qed.

(** C6, amended. A client with no window issues [maxRequests + 1] calls,
    the last one less than [windowMs] after the first: the first call
    opens the window with count 1 and is allowed, the following
    [maxRequests - 1] calls are allowed and take the count to
    [maxRequests] in the same window, and the last call is denied with a
    positive retryAfter, [ceil((windowMs - (now - windowStart)) / 1000)],
    which the handler sends with status 429. *)
Theorem rate_limit_window (ip : string) (s : State) (t1 : Z) (mid : list Z) (tN : Z)
        (Hfresh : rateLimitCache s !! ("rate_" ++ ip) = None)
        (Hlen : Z.of_nat (length mid) = config.rateLimit_maxRequests - 1)
        (Hord : ordered t1 mid tN)
        (Hin : tN - t1 < config.rateLimit_windowMs) :
  let '(r1, s1) := call_at ip t1 s in
  let '(rs, s5) := calls_at ip mid s1 in
  let '(rN, sN) := call_at ip tN s5 in
  let after := ceil_div_1000 (config.rateLimit_windowMs - (tN - t1)) in
  r1 = mkRateResult true None /\ window ip 1 t1 s1 /\
  Forall (fun r => r = mkRateResult true None) rs /\
  length rs = length mid /\
  window ip config.rateLimit_maxRequests t1 s5 /\
  rN = mkRateResult false (Some after) /\ 0 < after /\
  forall req url,
    acceptable url_hostname req url -> ip_string (getClientIP req) = ip ->
    handler_ req (set_now tN s5)
    = ((RJson 429 rate_error (Some after) None, None), set_now tN s5).
Proof.
  pose proof (ordered_le _ _ _ Hord) as Hle.
  destruct (call_first ip t1 s Hfresh) as [H1 Hw1].
  destruct (call_at ip t1 s) as [r1 s1]; simpl in H1, Hw1.
  destruct (calls_in_window ip t1 tN mid 1 s1 Hw1 Hle ltac:(lia) ltac:(lia)
                            t1 ltac:(lia) Hord) as (Hrs & Hl & Hw5).
  destruct (calls_at ip mid s1) as [rs s5]; simpl in Hrs, Hl, Hw5.
  replace (1 + Z.of_nat (length mid)) with config.rateLimit_maxRequests in Hw5 by lia.
  pose proof (call_denied ip _ t1 tN s5 Hw5 ltac:(lia) ltac:(lia)) as Hd.
  destruct (call_at ip tN s5) as [rN sN] eqn:EN.
  injection Hd as HrN HsN.
  assert (Hpos : 0 < ceil_div_1000 (config.rateLimit_windowMs - (tN - t1)))
    by (apply ceil_div_1000_pos; lia).
  repeat split; try assumption.
  intros req url Hacc Hip.
  assert (Hc : checkRateLimit (ip_string (getClientIP req)) (set_now tN s5)
               = (mkRateResult false
                    (Some (ceil_div_1000 (config.rateLimit_windowMs - (tN - t1)))),
                  set_now tN s5)).
  { rewrite Hip. change (checkRateLimit ip (set_now tN s5)) with (call_at ip tN s5).
    rewrite EN, HrN, HsN. reflexivity. }
  rewrite (handler_rate_limited req url _ _ Hacc Hc).
  unfold retryAfter_or_900.
  destruct (ceil_div_1000 (config.rateLimit_windowMs - (tN - t1)) =? 0) eqn:E; [lia|].
  reflexivity.
Qed.

(** C9. A POST request whose url parses to a host that is neither an
    allow-listed domain nor a subdomain of one is answered with status 400
    and leaves the whole state as it was: no rate-limit entry is made or
    changed and activeDownloads is not touched. *)
Theorem disallowed_host_rejected (req : Request) (url h : string) (s : State)
        (Hm : method req = "POST")
        (Hb : body_url req = Some url)
        (Hp : url_hostname url = Some h)
        (Hd : Forall (fun d => Str.toLowerCase h <> d /\
                               Str.endsWith (Str.toLowerCase h) ("." ++ d) = false)
                     config.allowedDomains) :
  exists msg,
    handler_ req s = ((RJson 400 msg None None, None), s) /\
    (Str.truthy url = true -> msg = domain_error).
Proof.
  assert (Hna : isAllowedDomain url_hostname url = false).
  { unfold isAllowedDomain. rewrite Hp.
    apply not_true_is_false. intros Hex.
    apply existsb_exists in Hex. destruct Hex as (d & Hin & Hmatch).
    rewrite Forall_forall in Hd. destruct (Hd d) as [Hne Hends].
    { apply list_elem_of_In. exact Hin. }
    unfold domain_matches in Hmatch. rewrite Hends, orb_false_r in Hmatch.
    apply String.eqb_eq in Hmatch. contradiction. }
  unfold handler. rewrite Hm, Hb. simpl.
  destruct (Str.truthy url) eqn:Ht; simpl.
  - rewrite Hp, Hna. simpl. eexists; split; [reflexivity | auto].
  - eexists; split; [reflexivity | discriminate].
Qed.

(** Whatever the method, a request for a host outside the allow-list
    leaves the state alone. *)
Lemma disallowed_host_no_effect req url s :
  body_url req = Some url ->
  isAllowedDomain url_hostname url = false ->
  snd (handler_ req s) = s.
Proof.
  intros Hb Hna. unfold handler. rewrite Hb.
  destruct (negb (String.eqb (method req) "POST")); [reflexivity|].
  destruct (negb (Str.truthy url)); [reflexivity|].
  destruct (url_hostname url); [|reflexivity].
  rewrite Hna. reflexivity.
Qed.

End HandlerFacts.

Lemma rate_limit_window_witness :
  let ip := "1.2.3.4" in
  let '(r1, s1) := call_at ip 0 Demo.empty_state in
  let '(rs, s5) := calls_at ip [1; 2; 3; 4] s1 in
  let '(rN, sN) := call_at ip 5 s5 in
  let after := ceil_div_1000 (config.rateLimit_windowMs - (5 - 0)) in
  r1 = mkRateResult true None /\ window ip 1 0 s1 /\
  Forall (fun r => r = mkRateResult true None) rs /\
  length rs = length [1; 2; 3; 4] /\
  window ip config.rateLimit_maxRequests 0 s5 /\
  rN = mkRateResult false (Some after) /\ 0 < after /\
  forall req url,
    acceptable Demo.hostname req url -> ip_string (getClientIP req) = ip ->
    Demo.handler_with (Demo.failing_tool "x") req (set_now 5 s5)
    = ((RJson 429 rate_error (Some after) None, None), set_now 5 s5).
Proof.
  apply (rate_limit_window Demo.hostname Demo.same Demo.ext_mp4 Demo.same
           Demo.no_digits (Demo.failing_tool "x") Demo.never Demo.never Demo.nobody
           "1.2.3.4" Demo.empty_state 0 [1; 2; 3; 4] 5).
  - reflexivity.
  - reflexivity.
  - simpl. lia.
  - reflexivity.
Defined.

(** C6 as stated fails where the last call comes exactly [windowMs] after
    the first: the window is not over (the call is denied, not counted in
    a new window), checkRateLimit computes retryAfter 0, which is not
    positive, and the handler sends 900 in its place. *)
Lemma rate_limit_boundary_counterexample :
  let ip := "1.2.3.4" in
  let '(r1, s1) := call_at ip 0 Demo.empty_state in
  let '(rs, s5) := calls_at ip [0; 0; 0; 0] s1 in
  let '(rN, sN) := call_at ip 900000 s5 in
  900000 - 0 <= config.rateLimit_windowMs /\
  allowed rN = false /\
  retryAfter rN = Some 0 /\
  ceil_div_1000 (config.rateLimit_windowMs - (900000 - 0)) = 0 /\
  ~ (exists a, retryAfter rN = Some a /\ 0 < a) /\
  fst (Demo.handler_with (Demo.failing_tool "x")
         (Demo.post Demo.youtube_url ip) (set_now 900000 s5))
  = (RJson 429 rate_error (Some 900) None, None).
Proof.
  vm_compute. repeat split; try discriminate; try reflexivity.
  intros (a & Ha & Hpos). injection Ha as <-. discriminate Hpos.
Qed.

Lemma disallowed_host_rejected_witness :
  exists msg,
    Demo.handler_with (Demo.failing_tool "x")
      (Demo.post "https://example.org/v" "1.2.3.4") Demo.empty_state
    = ((RJson 400 msg None None, None), Demo.empty_state) /\
    (Str.truthy "https://example.org/v" = true -> msg = domain_error).
Proof.
  apply (disallowed_host_rejected Demo.hostname Demo.same Demo.ext_mp4 Demo.same
           Demo.no_digits (Demo.failing_tool "x") Demo.never Demo.never Demo.nobody
           (Demo.post "https://example.org/v" "1.2.3.4")
           "https://example.org/v" "example.org" Demo.empty_state).
  - reflexivity.
  - reflexivity.
  - reflexivity.
  - repeat constructor; discriminate.
Defined.

(** ** The retry wrapper *)

Section RetryFacts.

Context {T : Type}.
Variable operation : Operation T.
Variables maxAttempts baseDelay perAttemptTimeout : Z.

Local Abbreviation retry_spec_ :=
  (retry_spec operation maxAttempts baseDelay perAttemptTimeout).
Local Abbreviation attempt_fails_ := (attempt_fails operation perAttemptTimeout).

Lemma retry_loop_spec n : forall i lastError s,
  n <> O -> Z.of_nat n = maxAttempts - i + 1 ->
  retry_spec_ i s
    (retry_loop operation maxAttempts baseDelay perAttemptTimeout n i lastError s).
Proof.
  induction n as [|n IH]; intros i lastError s Hn Hi; [congruence|].
  cbn [retry_loop].
  destruct (operation (emit (EvTimer perAttemptTimeout) s)) as [[d c] s1] eqn:Eop.
  unfold race. cbn [fst].
  destruct (d <? perAttemptTimeout) eqn:Ed.
  - destruct c as [v|e].
    + eapply spec_returns; [exact Eop | lia].
    + assert (Hf : attempt_fails_ s e (set_now (now s + d) s1)).
      { left. exists d, s1. repeat split; [exact Eop | lia]. }
      destruct n as [|n'].
      * assert (i = maxAttempts) by lia.
        destruct (i <? maxAttempts) eqn:Ei; [lia|].
        cbn [retry_loop]. eapply spec_propagates; eassumption.
      * destruct (i <? maxAttempts) eqn:Ei; [|lia].
        eapply spec_retries; [lia | exact Hf |].
        apply IH; [discriminate | lia].
  - assert (Hf : attempt_fails_ s timeoutError
                   (set_now (now s + perAttemptTimeout) s1)).
    { right. exists d, c, s1. repeat split; [exact Eop | lia]. }
    destruct n as [|n'].
    + assert (i = maxAttempts) by lia.
      destruct (i <? maxAttempts) eqn:Ei; [lia|].
      cbn [retry_loop]. eapply spec_propagates; eassumption.
    + destruct (i <? maxAttempts) eqn:Ei; [|lia].
      eapply spec_retries; [lia | exact Hf |].
      apply IH; [discriminate | lia].
Qed.

Lemma attempt_fails_functional s e e' s2 s2' :
  attempt_fails_ s e s2 -> attempt_fails_ s e' s2' -> e = e' /\ s2 = s2'.
Proof.
  intros [(d & s1 & Ho & Hd & ->) | (d & c & s1 & Ho & Hd & -> & ->)]
         [(d' & s1' & Ho' & Hd' & ->) | (d' & c' & s1' & Ho' & Hd' & -> & ->)];
    rewrite Ho in Ho'; injection Ho' as; subst; try lia; try congruence; auto.
Qed.

(** The specification leaves one result. *)
Lemma retry_spec_functional i s r :
  retry_spec_ i s r -> forall r', retry_spec_ i s r' -> r = r'.
Proof.
  induction 1 as [i s d v s1 Ho Hd | i s e s2 r Hi Hf Hr IH | i s e s2 Hi Hf];
    intros r' H'; inversion H' as [? ? d' v' s1' Ho' Hd' | ? ? e' s2' ? Hi' Hf' Hr'
                                   | ? ? e' s2' Hi' Hf']; subst.
  - rewrite Ho in Ho'. injection Ho' as; subst. reflexivity.
  - destruct Hf' as [(d' & s1' & Ho' & _) | (d' & c' & s1' & Ho' & Hd' & _)];
      rewrite Ho in Ho'; injection Ho' as; subst; [discriminate | lia].
  - destruct Hf' as [(d' & s1' & Ho' & _) | (d' & c' & s1' & Ho' & Hd' & _)];
      rewrite Ho in Ho'; injection Ho' as; subst; [discriminate | lia].
  - destruct Hf as [(d0 & s0 & Ho & _) | (d0 & c0 & s0 & Ho & Hd0 & _)];
      rewrite Ho in Ho'; injection Ho' as; subst; [discriminate | lia].
  - destruct (attempt_fails_functional _ _ _ _ _ Hf Hf') as [-> ->].
    apply IH, Hr'.
  - lia.
  - destruct Hf as [(d0 & s0 & Ho & _) | (d0 & c0 & s0 & Ho & Hd0 & _)];
      rewrite Ho in Ho'; injection Ho' as; subst; [discriminate | lia].
  - lia.
  - destruct (attempt_fails_functional _ _ _ _ _ Hf Hf') as [-> ->]. reflexivity.
Qed.

(** C8. retryOperation does what the wrapper is specified to do: every
    attempt starts a fresh timer of [perAttemptTimeout] and races the
    operation against it; a timer win is a failed attempt whose error is
    the timeout error; after a failed attempt [i < maxAttempts] it waits
    [baseDelay * i] and tries again; after the last failed attempt it
    throws the error of that attempt as it is. *)
Theorem retryOperation_meets_spec (s : State) (Hmax : 1 <= maxAttempts) :
  retry_spec_ 1 s
    (retryOperation operation maxAttempts baseDelay perAttemptTimeout s).
Proof.
  unfold retryOperation. apply retry_loop_spec; lia.
Qed.

End RetryFacts.

Example retry_hanging :
  retryOperation hanging 2 3000 300000 Demo.empty_state
  = (Throws timeoutError,
     mkState 603000 ∅ ∅ 0 ∅ [EvTimer 300000; EvSleep 3000; EvTimer 300000]).
Proof. reflexivity. Qed.

Lemma retryOperation_meets_spec_witness :
  1 <= 2 /\
  retry_spec hanging 2 3000 300000 1 Demo.empty_state
    (retryOperation hanging 2 3000 300000 Demo.empty_state).
Proof.
  split; [lia|].
  apply (retryOperation_meets_spec hanging 2 3000 300000 Demo.empty_state). lia.
Defined.

(** ** Extraction: the primary format and the fallback *)

Lemma fallbacks_app l1 l2 : fallbacks (l1 ++ l2)%list = (fallbacks l1 + fallbacks l2)%nat.
Proof. unfold fallbacks. rewrite List.filter_app, length_app. reflexivity. Qed.

Lemma primaries_app l1 l2 : primaries (l1 ++ l2)%list = (primaries l1 + primaries l2)%nat.
Proof. unfold primaries. rewrite List.filter_app, length_app. reflexivity. Qed.

Lemma log_write_files fs s : log (write_files fs s) = log s.
Proof. reflexivity. Qed.

Section ExtractionFacts.

Variable youtubedl : nat -> string -> string -> string -> ToolRun.

Local Abbreviation invoke_ := (invoke youtubedl).
Local Abbreviation download_operation_ := (download_operation youtubedl).

Lemma download_operation_log url output s :
  log (snd (download_operation_ url output s)) = (log s ++ operation_trace youtubedl url output s)%list.
Proof.
  unfold download_operation, operation_trace, invoke. cbn [fst snd].
  destruct (tr_error (youtubedl _ url output primary_format)) as [m|]; [|reflexivity].
  destruct (format_unavailable m); [|reflexivity].
  destruct (tr_error _) eqn:E2; simpl; rewrite <- app_assoc; reflexivity.
Qed.

Lemma operation_trace_counts url output s :
  primaries (operation_trace youtubedl url output s) = 1%nat /\
  (fallbacks (operation_trace youtubedl url output s) <= 1)%nat.
Proof.
  unfold operation_trace.
  destruct (tr_error _) as [m|]; [destruct (format_unavailable m)|];
    split; vm_compute; lia.
Qed.

(** Over the attempts of the retry loop: one primary invocation an
    attempt, and no more fallback invocations than primary ones. *)
Lemma retry_loop_invocations url output maxRetries delay timeoutMs n :
  forall attempt lastError s,
  exists tr,
    log (snd (retry_loop (download_operation_ url output) maxRetries delay timeoutMs
                         n attempt lastError s)) = (log s ++ tr)%list /\
    (fallbacks tr <= primaries tr <= n)%nat /\ (n <> O -> 1 <= primaries tr)%nat.
Proof.
  induction n as [|n IH]; intros attempt lastError s.
  - exists []. simpl. rewrite app_nil_r.
    split; [reflexivity | split; [vm_compute; lia | congruence]].
  - cbn [retry_loop].
    pose proof (download_operation_log url output (emit (EvTimer timeoutMs) s)) as Hlog.
    pose proof (operation_trace_counts url output (emit (EvTimer timeoutMs) s))
      as [Hp Hf].
    set (tr1 := operation_trace youtubedl url output (emit (EvTimer timeoutMs) s)) in *.
    destruct (download_operation_ url output (emit (EvTimer timeoutMs) s))
      as [[d c] s1]. cbn [snd] in Hlog.
    destruct (race timeoutMs (d, c)) as [d' r].
    assert (Hs2 : log (set_now (now s + d') s1) = (log s ++ EvTimer timeoutMs :: tr1)%list).
    { simpl. rewrite Hlog. simpl. rewrite <- app_assoc. reflexivity. }
    destruct r as [v|e].
    + exists (EvTimer timeoutMs :: tr1). cbn [snd]. split; [exact Hs2|].
      change (EvTimer timeoutMs :: tr1) with ([EvTimer timeoutMs] ++ tr1)%list.
      rewrite fallbacks_app, primaries_app.
      change (fallbacks [EvTimer timeoutMs]) with 0%nat.
      change (primaries [EvTimer timeoutMs]) with 0%nat. lia.
    + set (s3 := if attempt <? maxRetries
                 then sleep (delay * attempt) (set_now (now s + d') s1)
                 else set_now (now s + d') s1).
      assert (Hs3 : exists w, log s3 = (log s ++ (EvTimer timeoutMs :: tr1) ++ w)%list /\
                              fallbacks w = 0%nat /\ primaries w = 0%nat).
      { subst s3. destruct (attempt <? maxRetries).
        - exists [EvSleep (delay * attempt)]. split; [|split; reflexivity].
          unfold sleep. cbn [log emit set_now] in Hs2 |- *.
          rewrite Hs2. rewrite <- app_assoc. reflexivity.
        - exists []. rewrite app_nil_r. split; [exact Hs2 | split; reflexivity]. }
      destruct Hs3 as (w & Hw & Hwf & Hwp).
      destruct (IH (attempt + 1) e s3) as (tr & Htr & Hc & _).
      exists ((EvTimer timeoutMs :: tr1) ++ w ++ tr)%list.
      split.
      * rewrite Htr, Hw. rewrite <- !app_assoc. reflexivity.
      * change (EvTimer timeoutMs :: tr1) with ([EvTimer timeoutMs] ++ tr1)%list.
        rewrite !fallbacks_app, !primaries_app, Hwf, Hwp.
        change (fallbacks [EvTimer timeoutMs]) with 0%nat.
        change (primaries [EvTimer timeoutMs]) with 0%nat. lia.
Qed.

End ExtractionFacts.

(** ** What the parts of the handler leave alone *)

Lemma checkRateLimit_frame ip s :
  exists m, snd (checkRateLimit ip s) = set_rateLimitCache m s.
Proof.
  unfold checkRateLimit, NodeCache.get.
  destruct (rateLimitCache s !! ("rate_" ++ ip)) as [[d t]|].
  - destruct (NodeCache.expired (now s) t); simpl.
    + eexists. reflexivity.
    + destruct (_ <? _); simpl; [eexists; reflexivity|].
      destruct (_ <=? _); simpl; [|eexists; reflexivity].
      exists (rateLimitCache s). reflexivity.
  - simpl. eexists. reflexivity.
Qed.

Lemma primaries_emit e s :
  is_invoke e = false -> primaries (log (emit e s)) = primaries (log s).
Proof.
  intros H. simpl. rewrite primaries_app.
  destruct e; try discriminate; unfold primaries; simpl; lia.
Qed.

Lemma fallbacks_emit e s :
  is_invoke e = false -> fallbacks (log (emit e s)) = fallbacks (log s).
Proof.
  intros H. simpl. rewrite fallbacks_app.
  destruct e; try discriminate; unfold fallbacks; simpl; lia.
Qed.

Lemma kept_emit e s : is_invoke e = false -> kept (emit e s) = kept s.
Proof.
  intros H. unfold kept. rewrite primaries_emit, fallbacks_emit by exact H.
  reflexivity.
Qed.

Lemma kept_sleep ms s : kept (sleep ms s) = kept s.
Proof. unfold sleep. rewrite kept_emit by reflexivity. reflexivity. Qed.

Section FrameFacts.

Variable url_hostname : string -> option string.
Variable sha256_hex : string -> string.
Variable extname : string -> string.
Variable sanitizeFilename : string -> string.
Variable toFixed1_MB : Z -> string.
Variable youtubedl : nat -> string -> string -> string -> ToolRun.
Variable unlink_fails : string -> bool.
Variable copy_fails : string -> bool.
Variable others : Z -> Z -> Z.

Local Abbreviation handler_ :=
  (handler url_hostname sha256_hex extname sanitizeFilename toFixed1_MB
           youtubedl unlink_fails copy_fails others).
Local Abbreviation try_block_ :=
  (try_block sha256_hex extname sanitizeFilename toFixed1_MB
             youtubedl copy_fails others).
Local Abbreviation download_fresh_ :=
  (download_fresh extname sanitizeFilename toFixed1_MB youtubedl copy_fails others).
Local Abbreviation deliver_ :=
  (deliver extname sanitizeFilename toFixed1_MB copy_fails).

Lemma waitForSlot_loop_kept fuel : forall st s r s',
  waitForSlot_loop others fuel st s = Some (r, s') -> kept s' = kept s.
Proof.
  induction fuel as [|fuel IH]; intros st s r s' H; [discriminate|].
  cbn [waitForSlot_loop] in H.
  destruct (poll st (now s) (activeDownloads s)).
  - injection H as _ <-. reflexivity.
  - injection H as _ <-. reflexivity.
  - apply IH in H. rewrite H. unfold interfere.
    change (kept (set_activeDownloads ?a ?x)) with (kept x).
    apply kept_sleep.
Qed.

Lemma waitForSlot_kept s : kept (snd (waitForSlot others s)) = kept s.
Proof.
  unfold waitForSlot.
  destruct (waitForSlot_loop others 62 (now s) s) as [[r s']|] eqn:E; [|reflexivity].
  eapply waitForSlot_loop_kept, E.
Qed.

Lemma unlinkSync_kept p s s' :
  unlinkSync unlink_fails p s = Some s' -> kept s' = kept s.
Proof.
  unfold unlinkSync. destruct (_ || _); [discriminate|].
  intros [= <-]. rewrite kept_emit by reflexivity. reflexivity.
Qed.

Lemma catch_cleanup_kept outputPath s :
  kept (catch_cleanup unlink_fails None outputPath s) = kept s.
Proof.
  unfold catch_cleanup. destruct outputPath as [p|]; [|reflexivity].
  destruct (_ && _); [|reflexivity].
  destruct (unlinkSync unlink_fails p s) as [s'|] eqn:E; [|reflexivity].
  change (kept (set_activeDownloads ?a ?x)) with (kept x).
  eapply unlinkSync_kept, E.
Qed.

Lemma catch_block_kept e outputPath s :
  kept (snd (catch_block unlink_fails e None outputPath s)) = kept s.
Proof.
  unfold catch_block. destruct (classify e). apply catch_cleanup_kept.
Qed.

(** Leaving [deliver] by a throw leaves the state as it was. *)
Lemma deliver_throws cacheKey timestamp startTime s e p s' :
  deliver_ cacheKey timestamp startTime s = ((Throws e, p), s') -> s' = s.
Proof.
  unfold deliver.
  destruct (List.find _ _) as [f|]; [|intros [= _ _ <-]; reflexivity].
  destruct (files s !! _) as [sz|]; [|intros [= _ _ <-]; reflexivity].
  destruct (_ <? sz); [intros [= _ _ <-]; reflexivity | discriminate].
Qed.

Lemma cache_video_counts cacheKey ext outputPath ctype sanitized fileSize s :
  let s' := cache_video copy_fails cacheKey ext outputPath ctype sanitized fileSize s in
  primaries (log s') = primaries (log s) /\ fallbacks (log s') = fallbacks (log s) /\
  activeDownloads s' = activeDownloads s.
Proof.
  unfold cache_video. destruct (copy_fails _); [auto|].
  destruct (NodeCache.set _ _ _ _ _ _); simpl;
    rewrite primaries_app, fallbacks_app; unfold primaries, fallbacks; simpl;
    repeat split; lia.
Qed.

Lemma deliver_counts cacheKey timestamp startTime s :
  let s' := snd (deliver_ cacheKey timestamp startTime s) in
  primaries (log s') = primaries (log s) /\ fallbacks (log s') = fallbacks (log s).
Proof.
  unfold deliver.
  destruct (List.find _ _) as [f|]; [|auto].
  destruct (files s !! _) as [sz|]; [|auto].
  destruct (_ <? sz); [auto|]. cbn [snd].
  rewrite primaries_emit, fallbacks_emit by reflexivity.
  destruct (sz <? 50 * MB); [|auto].
  pose proof (cache_video_counts (* cacheKey *) cacheKey
                (Str.toLowerCase (extname f)) ("/tmp/" ++ f)
                (match assoc (Str.toLowerCase (extname f)) contentTypes with
                 | Some t => t | None => "application/octet-stream" end)
                (sanitizeFilename f) sz s) as (H1 & H2 & _).
  auto.
Qed.

(** The retry loop around the download operation writes to the log, the
    files and the clock only. *)
Lemma retry_download_frame url output maxRetries delay timeoutMs n :
  forall attempt lastError s,
  let s' := snd (retry_loop (download_operation youtubedl url output)
                            maxRetries delay timeoutMs n attempt lastError s) in
  videoCache s' = videoCache s /\ rateLimitCache s' = rateLimitCache s /\
  activeDownloads s' = activeDownloads s.
Proof.
  induction n as [|n IH]; intros attempt lastError s; [simpl; auto|].
  cbn [retry_loop].
  assert (Hop : forall s0,
             let s1 := snd (download_operation youtubedl url output s0) in
             videoCache s1 = videoCache s0 /\ rateLimitCache s1 = rateLimitCache s0 /\
             activeDownloads s1 = activeDownloads s0).
  { intros s0. unfold download_operation, invoke. cbn [fst snd].
    destruct (tr_error _) as [m|]; [|simpl; auto].
    destruct (format_unavailable m); [|simpl; auto].
    destruct (tr_error _); simpl; auto. }
  specialize (Hop (emit (EvTimer timeoutMs) s)).
  destruct (download_operation youtubedl url output (emit (EvTimer timeoutMs) s))
    as [[d c] s1]. cbn [snd] in Hop. cbv zeta in Hop.
  destruct (race timeoutMs (d, c)) as [d' r].
  destruct r as [v|e]; [simpl; exact Hop|].
  set (s3 := if attempt <? maxRetries then _ else _).
  specialize (IH (attempt + 1) e s3). cbv zeta in IH.
  assert (H3 : videoCache s3 = videoCache s1 /\ rateLimitCache s3 = rateLimitCache s1 /\
               activeDownloads s3 = activeDownloads s1).
  { subst s3. destruct (attempt <? maxRetries); simpl; auto. }
  cbv zeta. simpl in Hop.
  destruct IH as (I1 & I2 & I3), H3 as (J1 & J2 & J3), Hop as (K1 & K2 & K3).
  rewrite I1, I2, I3, J1, J2, J3, K1, K2, K3. auto.
Qed.

End FrameFacts.

(** ** Invocations of youtubedl over one request *)

Lemma invoked_kept s s' : kept s' = kept s -> invoked 0 0 s s'.
Proof.
  intros H. unfold invoked.
  assert (H1 : k_primaries (kept s') = k_primaries (kept s)) by (rewrite H; reflexivity).
  assert (H2 : k_fallbacks (kept s') = k_fallbacks (kept s)) by (rewrite H; reflexivity).
  simpl in H1, H2. lia.
Qed.

Lemma invoked_trans p1 f1 p2 f2 s1 s2 s3 :
  invoked p1 f1 s1 s2 -> invoked p2 f2 s2 s3 -> invoked (p1 + p2) (f1 + f2) s1 s3.
Proof. unfold invoked. lia. Qed.

Section InvocationFacts.

Variable url_hostname : string -> option string.
Variable sha256_hex : string -> string.
Variable extname : string -> string.
Variable sanitizeFilename : string -> string.
Variable toFixed1_MB : Z -> string.
Variable youtubedl : nat -> string -> string -> string -> ToolRun.
Variable unlink_fails : string -> bool.
Variable copy_fails : string -> bool.
Variable others : Z -> Z -> Z.

Local Abbreviation handler_ :=
  (handler url_hostname sha256_hex extname sanitizeFilename toFixed1_MB
           youtubedl unlink_fails copy_fails others).
Local Abbreviation try_block_ :=
  (try_block sha256_hex extname sanitizeFilename toFixed1_MB
             youtubedl copy_fails others).
Local Abbreviation download_fresh_ :=
  (download_fresh extname sanitizeFilename toFixed1_MB youtubedl copy_fails others).
Local Abbreviation deliver_ :=
  (deliver extname sanitizeFilename toFixed1_MB copy_fails).

Lemma bounded_refl s s' : invoked 0 0 s s' -> bounded_invocations s s'.
Proof. intros H. exists 0%nat, 0%nat. split; [exact H | lia]. Qed.

Lemma bounded_then_quiet s s1 s2 :
  bounded_invocations s s1 -> invoked 0 0 s1 s2 -> bounded_invocations s s2.
Proof.
  intros (p & f & H & Hb) H2. exists p, f. split; [|exact Hb].
  unfold invoked in *. lia.
Qed.

Lemma quiet_then_bounded s s1 s2 :
  invoked 0 0 s s1 -> bounded_invocations s1 s2 -> bounded_invocations s s2.
Proof.
  intros H1 (p & f & H & Hb). exists p, f. split; [|exact Hb].
  unfold invoked in *. lia.
Qed.

Lemma download_fresh_bounded url cacheKey startTime s :
  bounded_invocations s (snd (download_fresh_ url cacheKey startTime s)).
Proof.
  unfold download_fresh.
  pose proof (waitForSlot_kept others s) as Hw.
  destruct (waitForSlot others s) as [[[]|e] s1]; cbn [snd] in Hw |- *;
    [|apply bounded_refl, invoked_kept, Hw].
  apply quiet_then_bounded with (s1 := set_activeDownloads (activeDownloads s1 + 1) s1).
  { apply invoked_kept. rewrite <- Hw. reflexivity. }
  set (s2 := set_activeDownloads (activeDownloads s1 + 1) s1).
  set (out := ("/tmp/" ++ video_prefix (now s2) ++ "%(title)s.%(ext)s")%string).
  unfold retryOperation.
  destruct (retry_loop_invocations youtubedl url out config.maxRetries
              config.retryDelay config.downloadTimeoutMs
              (Z.to_nat config.maxRetries) 1 Undefined s2) as (tr & Htr & Hc & _).
  destruct (retry_loop _ _ _ _ _ _ _ s2) as [[[]|e] s3]; cbn [snd] in Htr |- *.
  - apply bounded_then_quiet with (s1 := s3).
    + exists (primaries tr), (fallbacks tr). split; [|exact Hc].
      unfold invoked. rewrite Htr, primaries_app, fallbacks_app. lia.
    + unfold invoked.
      pose proof (deliver_counts extname sanitizeFilename toFixed1_MB copy_fails
                    cacheKey (now s2) startTime s3) as [H1 H2].
      cbv zeta in H1, H2. lia.
  - exists (primaries tr), (fallbacks tr). split; [|exact Hc].
    unfold invoked. rewrite Htr, primaries_app, fallbacks_app. lia.
Qed.

Lemma try_block_bounded url startTime s :
  bounded_invocations s (snd (try_block_ url startTime s)).
Proof.
  unfold try_block.
  destruct (NodeCache.get (now s) (getCacheKey sha256_hex url) (videoCache s))
    as [cv vc].
  set (s0 := set_videoCache vc s).
  assert (H0 : invoked 0 0 s s0) by (unfold invoked; simpl; lia).
  apply quiet_then_bounded with (s1 := s0); [exact H0|].
  destruct cv as [c|]; [|apply download_fresh_bounded].
  destruct (existsSync (filePath c) s0); [|apply download_fresh_bounded].
  apply bounded_refl. unfold serve_cached, invoked. cbn [snd].
  rewrite primaries_emit, fallbacks_emit by reflexivity. lia.
Qed.

Lemma handler_bounded req s : bounded_invocations s (snd (handler_ req s)).
Proof.
  assert (Hs : bounded_invocations s s) by (apply bounded_refl; unfold invoked; lia).
  unfold handler.
  destruct (negb (String.eqb (method req) "POST")); [exact Hs|].
  destruct (body_url req) as [url|]; [|exact Hs].
  destruct (negb (Str.truthy url)); [exact Hs|].
  destruct (url_hostname url); [|exact Hs].
  destruct (negb (isAllowedDomain url_hostname url)); [exact Hs|].
  destruct (checkRateLimit_frame (ip_string (getClientIP req)) s) as [m Hm].
  destruct (checkRateLimit (ip_string (getClientIP req)) s) as [r s1].
  cbn [snd] in Hm. subst s1.
  assert (H1 : invoked 0 0 s (set_rateLimitCache m s)) by (unfold invoked; simpl; lia).
  destruct (negb (allowed r)); [apply bounded_refl, H1|].
  apply quiet_then_bounded with (s1 := set_rateLimitCache m s); [exact H1|].
  pose proof (try_block_bounded url (now (set_rateLimitCache m s))
                (set_rateLimitCache m s)) as Ht.
  destruct (try_block_ url _ _) as [[[r'|e] op] s2]; cbn [snd] in Ht; [exact Ht|].
  pose proof (catch_block_kept unlink_fails e op s2) as Hc.
  destruct (catch_block unlink_fails e None op s2) as [resp s3]. cbn [snd] in Hc |- *.
  eapply bounded_then_quiet; [exact Ht | apply invoked_kept, Hc].
Qed.

(** C4, amended. Inside one run of the operation that retryOperation is
    given, a primary invocation (format best[height<=720]/best) that fails
    with a message saying the requested format is not available is
    followed by exactly one fallback invocation (format best), and no
    other run makes a fallback invocation. The retry wrapper runs the
    operation up to [maxRetries] times, so over a whole request there are
    at most [maxRetries] (2) primary invocations and at most as many
    fallback invocations as primary ones. *)
Theorem fallback_once_per_attempt (req : Request) (s s0 : State) (url output : string) :
  log (snd (download_operation youtubedl url output s0))
  = (log s0 ++ operation_trace youtubedl url output s0)%list /\
  exists p f,
    invoked p f s (snd (handler_ req s)) /\
    (f <= p <= Z.to_nat config.maxRetries)%nat.
Proof.
  split; [apply download_operation_log | apply handler_bounded].
Qed.

End InvocationFacts.

(** C4 as stated fails when the fallback invocation fails as well: the
    retry wrapper runs the operation again, and the second run makes a
    second fallback invocation. *)
Lemma two_fallbacks_counterexample :
  let tool := Demo.failing_tool "ERROR: Requested format is not available" in
  let s' := snd (Demo.handler_with tool (Demo.post Demo.youtube_url "1.2.3.4")
                                   Demo.empty_state) in
  invocations (log s')
  = [EvInvoke primary_format; EvInvoke fallback_format;
     EvInvoke primary_format; EvInvoke fallback_format] /\
  fallbacks (log s') = 2%nat /\ ~ (fallbacks (log s') <= 1)%nat.
Proof.
  vm_compute. repeat split; lia.
Qed.

(** ** The cache lookup of the handler *)

Lemma invocations_app l1 l2 :
  invocations (l1 ++ l2)%list = (invocations l1 ++ invocations l2)%list.
Proof. unfold invocations. apply List.filter_app. Qed.

Lemma set_videoCache_same s : set_videoCache (videoCache s) s = s.
Proof. destruct s; reflexivity. Qed.

Section CacheFacts.

Variable url_hostname : string -> option string.
Variable sha256_hex : string -> string.
Variable extname : string -> string.
Variable sanitizeFilename : string -> string.
Variable toFixed1_MB : Z -> string.
Variable youtubedl : nat -> string -> string -> string -> ToolRun.
Variable unlink_fails : string -> bool.
Variable copy_fails : string -> bool.
Variable others : Z -> Z -> Z.

Local Abbreviation handler_ :=
  (handler url_hostname sha256_hex extname sanitizeFilename toFixed1_MB
           youtubedl unlink_fails copy_fails others).
Local Abbreviation try_block_ :=
  (try_block sha256_hex extname sanitizeFilename toFixed1_MB
             youtubedl copy_fails others).
Local Abbreviation download_fresh_ :=
  (download_fresh extname sanitizeFilename toFixed1_MB youtubedl copy_fails others).
Local Abbreviation deliver_ :=
  (deliver extname sanitizeFilename toFixed1_MB copy_fails).

Lemma cached_get url c s :
  cached sha256_hex url c s ->
  NodeCache.get (now s) (getCacheKey sha256_hex url) (videoCache s)
  = (Some c, videoCache s).
Proof.
  intros (t & Hl & He). unfold NodeCache.get. rewrite Hl, He. reflexivity.
Qed.

Lemma try_block_hit url startTime c s :
  cached sha256_hex url c s -> existsSync (filePath c) s = true ->
  try_block_ url startTime s = serve_cached c s.
Proof.
  intros Hc He. unfold try_block. rewrite (cached_get url c s Hc).
  rewrite set_videoCache_same, He. reflexivity.
Qed.

Lemma try_block_stale url startTime c s :
  cached sha256_hex url c s -> existsSync (filePath c) s = false ->
  try_block_ url startTime s
  = download_fresh_ url (getCacheKey sha256_hex url) startTime s.
Proof.
  intros Hc He. unfold try_block. rewrite (cached_get url c s Hc).
  rewrite set_videoCache_same, He. reflexivity.
Qed.

Lemma cache_hit_acceptable req url c s :
  acceptable url_hostname req url ->
  cached sha256_hex url c s -> existsSync (filePath c) s = true ->
  let '(r, s1) := checkRateLimit (ip_string (getClientIP req)) s in
  let '((resp, cleanup), s') := handler_ req s in
  activeDownloads s' = activeDownloads s /\
  invocations (log s') = invocations (log s) /\
  (allowed r = true ->
   resp = RStream (hit_headers c) (filePath c) /\ cleanup = None /\
   s' = emit (EvStream (filePath c)) s1).
Proof.
  intros Hacc Hc Hfile.
  rewrite (handler_acceptable url_hostname sha256_hex extname sanitizeFilename
             toFixed1_MB youtubedl unlink_fails copy_fails others req url s Hacc).
  destruct (checkRateLimit_frame (ip_string (getClientIP req)) s) as [m Hm].
  destruct (checkRateLimit (ip_string (getClientIP req)) s) as [r s1].
  cbn [snd] in Hm. subst s1.
  destruct (allowed r) eqn:Ha; cbn [negb].
  - assert (Hc1 : cached sha256_hex url c (set_rateLimitCache m s)) by exact Hc.
    assert (Hf1 : existsSync (filePath c) (set_rateLimitCache m s) = true) by exact Hfile.
    rewrite (try_block_hit url _ c _ Hc1 Hf1). unfold serve_cached.
    split; [reflexivity|]. split.
    + cbn [log emit set_rateLimitCache]. rewrite invocations_app. simpl.
      apply app_nil_r.
    + intros _. repeat split; reflexivity.
  - split; [reflexivity|]. split; [reflexivity | discriminate].
Qed.

(** A request that is not acceptable is answered before any state is
    touched. *)
Lemma handler_not_acceptable req url s :
  body_url req = Some url ->
  ~ acceptable url_hostname req url ->
  snd (handler_ req s) = s.
Proof.
  intros Hb Hna. unfold handler. rewrite Hb.
  destruct (String.eqb (method req) "POST") eqn:Em; [|reflexivity]. cbn [negb].
  destruct (Str.truthy url) eqn:Et; [|reflexivity]. cbn [negb].
  destruct (url_hostname url) as [h|]; [|reflexivity].
  destruct (isAllowedDomain url_hostname url) eqn:Ea; [|reflexivity].
  exfalso. apply Hna. apply String.eqb_eq in Em. repeat split; assumption.
Qed.

Lemma acceptable_dec req url :
  acceptable url_hostname req url \/ ~ acceptable url_hostname req url.
Proof.
  unfold acceptable.
  destruct (String.eqb (method req) "POST") eqn:Em.
  - apply String.eqb_eq in Em.
    destruct (decide (body_url req = Some url)) as [Hb|Hb]; [|right; tauto].
    destruct (Str.truthy url); [|right; intros (_ & _ & H & _); discriminate].
    destruct (isAllowedDomain url_hostname url);
      [left; auto | right; intros (_ & _ & _ & H); discriminate].
  - right. intros (Hm & _). apply String.eqb_neq in Em. contradiction.
Qed.

(** C7. A request whose url has a cache entry within its time to live and
    with its file in place takes no slot (activeDownloads is as before) and
    invokes no extraction; when the request gets as far as the lookup (it
    is acceptable and the rate limiter allows it) the cached file is
    streamed with X-Cache HIT and X-Download-Time 0, and the handler ends
    there, with no cleanup closure made. *)
Theorem cache_hit_served (req : Request) (url : string) (c : CachedVideo) (s : State)
        (Hurl : body_url req = Some url)
        (Hc : cached sha256_hex url c s)
        (Hfile : existsSync (filePath c) s = true) :
  let '(r, s1) := checkRateLimit (ip_string (getClientIP req)) s in
  let '((resp, cleanup), s') := handler_ req s in
  activeDownloads s' = activeDownloads s /\
  invocations (log s') = invocations (log s) /\
  (acceptable url_hostname req url -> allowed r = true ->
   resp = RStream (hit_headers c) (filePath c) /\ cleanup = None /\
   s' = emit (EvStream (filePath c)) s1 /\
   assoc "X-Cache" (hit_headers c) = Some "HIT" /\
   assoc "X-Download-Time" (hit_headers c) = Some "0").
Proof.
  destruct (acceptable_dec req url) as [Hacc|Hna].
  - pose proof (cache_hit_acceptable req url c s Hacc Hc Hfile) as H.
    destruct (checkRateLimit (ip_string (getClientIP req)) s) as [r s1].
    destruct (handler_ req s) as [[resp cleanup] s'].
    destruct H as (H1 & H2 & H3). split; [exact H1|]. split; [exact H2|].
    intros _ Ha. destruct (H3 Ha) as (-> & -> & ->). repeat split; reflexivity.
  - pose proof (handler_not_acceptable req url s Hurl Hna) as H.
    destruct (checkRateLimit (ip_string (getClientIP req)) s) as [r s1].
    destruct (handler_ req s) as [[resp cleanup] s']. cbn [snd] in H. subst s'.
    split; [reflexivity|]. split; [reflexivity|]. intros Hacc. contradiction.
Qed.

(** After an admission with a free slot the download operation runs. *)
Lemma waitForSlot_free s :
  activeDownloads s < maxConcurrent -> waitForSlot others s = (Normal tt, s).
Proof.
  intros H. unfold waitForSlot. cbn [waitForSlot_loop]. unfold poll.
  destruct (maxConcurrent <=? activeDownloads s) eqn:E; [lia | reflexivity].
Qed.

Lemma download_fresh_invokes url cacheKey startTime s :
  activeDownloads s < maxConcurrent ->
  (primaries (log s) + 1
   <= primaries (log (snd (download_fresh_ url cacheKey startTime s))))%nat.
Proof.
  intros Hfree. unfold download_fresh. rewrite (waitForSlot_free s Hfree).
  set (s2 := set_activeDownloads (activeDownloads s + 1) s).
  set (out := ("/tmp/" ++ video_prefix (now s2) ++ "%(title)s.%(ext)s")%string).
  unfold retryOperation.
  destruct (retry_loop_invocations youtubedl url out config.maxRetries
              config.retryDelay config.downloadTimeoutMs
              (Z.to_nat config.maxRetries) 1 Undefined s2) as (tr & Htr & _ & Hone).
  specialize (Hone ltac:(discriminate)).
  assert (Hs2 : primaries (log s2) = primaries (log s)) by reflexivity.
  destruct (retry_loop _ _ _ _ _ _ _ s2) as [[[]|e] s3]; cbn [snd] in Htr |- *.
  - pose proof (deliver_counts extname sanitizeFilename toFixed1_MB copy_fails
                  cacheKey (now s2) startTime s3) as [H1 _].
    cbv zeta in H1. rewrite H1, Htr, primaries_app. lia.
  - rewrite Htr, primaries_app. lia.
Qed.

(** A request that leaves [download_fresh] by a throw has not written to
    the video cache, and neither does the [catch] block. *)
Lemma download_fresh_throws_cache url cacheKey startTime s e p s' :
  download_fresh_ url cacheKey startTime s = ((Throws e, p), s') ->
  videoCache (snd (catch_block unlink_fails e None p s')) = videoCache s.
Proof.
  intros H.
  assert (Hk : videoCache s' = videoCache s).
  { unfold download_fresh in H.
    pose proof (waitForSlot_kept others s) as Hw.
    destruct (waitForSlot others s) as [[[]|e1] s1]; cbn [snd] in Hw.
    - set (s2 := set_activeDownloads (activeDownloads s1 + 1) s1) in *.
      unfold retryOperation in H.
      pose proof (retry_download_frame youtubedl url
                    ("/tmp/" ++ video_prefix (now s2) ++ "%(title)s.%(ext)s")
                    config.maxRetries config.retryDelay config.downloadTimeoutMs
                    (Z.to_nat config.maxRetries) 1 Undefined s2) as (Hv & _).
      cbv zeta in Hv.
      destruct (retry_loop _ _ _ _ _ _ _ s2) as [[[]|e2] s3]; cbn [snd] in Hv.
      + apply deliver_throws in H. subst s'. rewrite Hv.
        change (videoCache s2) with (videoCache s1).
        change (k_videoCache (kept s1) = k_videoCache (kept s)). rewrite Hw. reflexivity.
      + injection H as _ _ <-. rewrite Hv.
        change (videoCache s2) with (videoCache s1).
        change (k_videoCache (kept s1) = k_videoCache (kept s)). rewrite Hw. reflexivity.
    - injection H as _ _ <-.
      change (k_videoCache (kept s1) = k_videoCache (kept s)). rewrite Hw. reflexivity. }
  pose proof (catch_block_kept unlink_fails e p s') as Hc.
  change (k_videoCache (kept (snd (catch_block unlink_fails e None p s')))
          = videoCache s).
  rewrite Hc. exact Hk.
Qed.

(** C5, amended. When the cache holds an entry for the key whose file is
    gone, the lookup counts as a miss: the handler goes on to admission and,
    with a slot free, invokes the extraction. The lookup does not remove
    the entry: the cache is as before, and when the request then fails the
    entry is still there for the next lookup to find. *)
Theorem stale_entry_is_miss (url : string) (startTime : Z) (c : CachedVideo) (s : State)
        (Hc : cached sha256_hex url c s)
        (Hgone : existsSync (filePath c) s = false) :
  try_block_ url startTime s
  = download_fresh_ url (getCacheKey sha256_hex url) startTime s /\
  (activeDownloads s < maxConcurrent ->
   (primaries (log s) + 1 <= primaries (log (snd (try_block_ url startTime s))))%nat) /\
  snd (NodeCache.get (now s) (getCacheKey sha256_hex url) (videoCache s))
  = videoCache s /\
  forall e p s',
    try_block_ url startTime s = ((Throws e, p), s') ->
    videoCache (snd (catch_block unlink_fails e None p s')) = videoCache s.
Proof.
  pose proof (try_block_stale url startTime c s Hc Hgone) as Hmiss.
  split; [exact Hmiss|]. split; [|split].
  - intros Hfree. rewrite Hmiss. apply download_fresh_invokes, Hfree.
  - rewrite (cached_get url c s Hc). reflexivity.
  - intros e p s' H. rewrite Hmiss in H.
    eapply download_fresh_throws_cache, H.
Qed.

(** When the extraction fails on every attempt, the [catch] block has no
    [outputPath] to go by and the counter keeps the increment. *)
Lemma download_fresh_keeps_slot url cacheKey startTime s e s3 :
  activeDownloads s < maxConcurrent ->
  retryOperation
    (download_operation youtubedl url
       ("/tmp/" ++ video_prefix (now s) ++ "%(title)s.%(ext)s"))
    config.maxRetries config.retryDelay config.downloadTimeoutMs
    (set_activeDownloads (activeDownloads s + 1) s) = (Throws e, s3) ->
  download_fresh_ url cacheKey startTime s = ((Throws e, None), s3) /\
  activeDownloads (snd (catch_block unlink_fails e None None s3))
  = activeDownloads s + 1.
Proof.
  intros Hfree Hr. unfold download_fresh. rewrite (waitForSlot_free s Hfree).
  cbn [now set_activeDownloads]. rewrite Hr. split; [reflexivity|].
  unfold catch_block, catch_cleanup. destruct (classify e). cbn [snd].
  pose proof (retry_download_frame youtubedl url
                ("/tmp/" ++ video_prefix (now s) ++ "%(title)s.%(ext)s")
                config.maxRetries config.retryDelay config.downloadTimeoutMs
                (Z.to_nat config.maxRetries) 1 Undefined
                (set_activeDownloads (activeDownloads s + 1) s)) as (_ & _ & Ha).
  cbv zeta in Ha. unfold retryOperation in Hr. rewrite Hr in Ha. exact Ha.
Qed.

End CacheFacts.

Lemma cache_hit_served_witness :
  let req := Demo.post Demo.youtube_url "1.2.3.4" in
  let '(r, s1) := checkRateLimit (ip_string (getClientIP req)) DemoCache.hit_state in
  let '((resp, cleanup), s') :=
    Demo.handler_with DemoCache.unavailable req DemoCache.hit_state in
  activeDownloads s' = activeDownloads DemoCache.hit_state /\
  invocations (log s') = invocations (log DemoCache.hit_state) /\
  (acceptable Demo.hostname req Demo.youtube_url -> allowed r = true ->
   resp = RStream (hit_headers DemoCache.clip) (filePath DemoCache.clip) /\
   cleanup = None /\
   s' = emit (EvStream (filePath DemoCache.clip)) s1 /\
   assoc "X-Cache" (hit_headers DemoCache.clip) = Some "HIT" /\
   assoc "X-Download-Time" (hit_headers DemoCache.clip) = Some "0").
Proof.
  apply (cache_hit_served Demo.hostname Demo.same Demo.ext_mp4 Demo.same
           Demo.no_digits DemoCache.unavailable Demo.never Demo.never Demo.nobody
           (Demo.post Demo.youtube_url "1.2.3.4") Demo.youtube_url DemoCache.clip
           DemoCache.hit_state).
  - reflexivity.
  - exists 7200000. split; reflexivity.
  - reflexivity.
Defined.

Lemma stale_entry_is_miss_witness :
  let try_block_ :=
    try_block Demo.same Demo.ext_mp4 Demo.same Demo.no_digits DemoCache.unavailable
              Demo.never Demo.nobody in
  let s := DemoCache.stale_state in
  try_block_ Demo.youtube_url 0 s
  = download_fresh Demo.ext_mp4 Demo.same Demo.no_digits DemoCache.unavailable
                   Demo.never Demo.nobody Demo.youtube_url
                   (getCacheKey Demo.same Demo.youtube_url) 0 s /\
  (activeDownloads s < maxConcurrent ->
   (primaries (log s) + 1
    <= primaries (log (snd (try_block_ Demo.youtube_url 0%Z s))))%nat) /\
  snd (NodeCache.get (now s) (getCacheKey Demo.same Demo.youtube_url) (videoCache s))
  = videoCache s /\
  forall e p s',
    try_block_ Demo.youtube_url 0 s = ((Throws e, p), s') ->
    videoCache (snd (catch_block Demo.never e None p s')) = videoCache s.
Proof.
  apply (stale_entry_is_miss Demo.same Demo.ext_mp4 Demo.same Demo.no_digits
           DemoCache.unavailable Demo.never Demo.never Demo.nobody
           Demo.youtube_url 0 DemoCache.clip DemoCache.stale_state).
  - exists 7200000. split; reflexivity.
  - reflexivity.
Defined.

(** C5 as stated fails: after a request that found the entry with its file
    gone, and whose download failed, the entry is still in the cache, and
    the next [get] for the key returns it again. *)
Lemma stale_entry_kept_counterexample :
  let key := getCacheKey Demo.same Demo.youtube_url in
  let s := DemoCache.stale_state in
  let s' := snd (Demo.handler_with DemoCache.unavailable
                   (Demo.post Demo.youtube_url "1.2.3.4") s) in
  existsSync (filePath DemoCache.clip) s = false /\
  videoCache s' !! key = Some (DemoCache.clip, 7200000) /\
  fst (NodeCache.get (now s') key (videoCache s')) = Some DemoCache.clip /\
  fst (NodeCache.get (now s') key (videoCache s')) <> None.
Proof.
  vm_compute. repeat split; discriminate.
Qed.

(** ** Failures after the slot was taken *)

(** C1 fails on the code. With no request in flight, a request whose
    extraction fails on every attempt is answered with the error status,
    and activeDownloads stays at 1: the [catch] block decrements only when
    [outputPath] was set and the file exists. The same when the tool
    reports success and no finished file is found; the partial file then
    stays under /tmp as well. *)
Lemma failed_extraction_keeps_slot :
  let req := Demo.post Demo.youtube_url "1.2.3.4" in
  let '((resp1, _), s1) :=
    Demo.handler_with DemoCache.unavailable req Demo.empty_state in
  let '((resp2, _), s2) :=
    Demo.handler_with DemoLeak.partial_tool req Demo.empty_state in
  activeDownloads Demo.empty_state = 0 /\
  resp1 = RJson 404 "Video is unavailable or private" None (Some (1, 3)) /\
  activeDownloads s1 = 1 /\
  resp2 = RJson 500 "Download failed" None (Some (1, 3)) /\
  activeDownloads s2 = 1 /\
  files s2 !! "/tmp/video_0_clip.mp4.part" = Some 500.
Proof.
  vm_compute. repeat split.
Qed.

(** The handler run on a cache hit, and with every slot taken. *)
Example cache_hit_run :
  fst (Demo.handler_with DemoCache.unavailable
         (Demo.post Demo.youtube_url "1.2.3.4") DemoCache.hit_state)
  = (RStream (hit_headers DemoCache.clip) "/tmp/cached_clip.mp4", None).
Proof. vm_compute. reflexivity. Qed.

Example busy_run :
  let '((resp, _), s') :=
    Demo.handler_with DemoCache.unavailable (Demo.post Demo.youtube_url "1.2.3.4")
                      (set_activeDownloads 3 Demo.empty_state) in
  resp = RJson 503 "Server is currently busy. Please try again in a few minutes."
               None (Some (3, 3)) /\
  now s' = 61000 /\ activeDownloads s' = 3 /\ invocations (log s') = [].
Proof. vm_compute. repeat split. Qed.

(** ** Requests without an address *)

Lemma anonymous_unknown req : anonymous req -> getClientIP req = Some "unknown".
Proof. intros [Hf Hr]. unfold getClientIP. rewrite Hf, Hr. reflexivity. Qed.

Lemma requests_at_anonymous rts : forall s,
  Forall (fun rt => anonymous (fst rt)) rts ->
  requests_at rts s = calls_at "unknown" (map snd rts) s.
Proof.
  induction rts as [|[req t] rts IH]; intros s H; [reflexivity|].
  apply Forall_cons_1 in H. destruct H as [Ha H]. cbn [fst] in Ha.
  cbn [requests_at calls_at map snd]. rewrite (anonymous_unknown req Ha).
  cbn [ip_string]. destruct (call_at "unknown" t s) as [r s1].
  rewrite (IH s1 H). reflexivity.
Qed.

(** C10. A request with neither an x-forwarded-for header nor a remote
    address gets the client identifier 'unknown'. All such requests count
    in the one window of the key rate_unknown: when, starting without a
    window, [maxRequests] of them have been let through, one more inside
    the window is denied, whichever requests they are. *)
Theorem anonymous_requests_share_window
        (first : Request) (t1 : Z) (mid : list (Request * Z))
        (last : Request) (tN : Z) (s : State)
        (Hfirst : anonymous first)
        (Hmid : Forall (fun rt => anonymous (fst rt)) mid)
        (Hlast : anonymous last)
        (Hfresh : rateLimitCache s !! "rate_unknown" = None)
        (Hlen : Z.of_nat (length mid) = config.rateLimit_maxRequests - 1)
        (Hord : ordered t1 (map snd mid) tN)
        (Hin : tN - t1 <= config.rateLimit_windowMs) :
  getClientIP first = Some "unknown" /\ getClientIP last = Some "unknown" /\
  Forall (fun rt => getClientIP (fst rt) = Some "unknown") mid /\
  let '(rs, s') := requests_at ((first, t1) :: mid) s in
  Forall (fun r => allowed r = true) rs /\
  Z.of_nat (length rs) = config.rateLimit_maxRequests /\
  window "unknown" config.rateLimit_maxRequests t1 s' /\
  allowed (fst (call_at (ip_string (getClientIP last)) tN s')) = false.
Proof.
  split; [apply anonymous_unknown, Hfirst|].
  split; [apply anonymous_unknown, Hlast|].
  split.
  { eapply Forall_impl; [exact Hmid|]. intros rt. apply anonymous_unknown. }
  rewrite requests_at_anonymous by (constructor; assumption).
  rewrite (anonymous_unknown last Hlast). cbn [ip_string map snd calls_at].
  pose proof (ordered_le _ _ _ Hord) as Hle.
  destruct (call_first "unknown" t1 s Hfresh) as [H1 Hw1].
  destruct (call_at "unknown" t1 s) as [r1 s1]; simpl in H1, Hw1.
  destruct (calls_in_window "unknown" t1 tN (map snd mid) 1 s1 Hw1 Hle Hin
              ltac:(rewrite length_map; lia) t1 ltac:(lia) Hord) as (Hrs & Hl & Hw5).
  destruct (calls_at "unknown" (map snd mid) s1) as [rs s5]; simpl in Hrs, Hl, Hw5.
  rewrite length_map in Hl, Hw5.
  replace (1 + Z.of_nat (length mid)) with config.rateLimit_maxRequests in Hw5 by lia.
  split; [|split; [|split]].
  - constructor; [rewrite H1; reflexivity|].
    eapply Forall_impl; [exact Hrs|]. intros r ->. reflexivity.
  - cbn [length]. lia.
  - exact Hw5.
  - rewrite (call_denied "unknown" _ t1 tN s5 Hw5 Hin ltac:(lia)). reflexivity.
Qed.

Lemma anonymous_requests_share_window_witness :
  getClientIP DemoAnon.a = Some "unknown" /\ getClientIP DemoAnon.b = Some "unknown" /\
  Forall (fun rt => getClientIP (fst rt) = Some "unknown")
         [(DemoAnon.b, 1); (DemoAnon.a, 2); (DemoAnon.b, 3); (DemoAnon.a, 4)] /\
  let '(rs, s') :=
    requests_at ((DemoAnon.a, 0)
                   :: [(DemoAnon.b, 1); (DemoAnon.a, 2); (DemoAnon.b, 3); (DemoAnon.a, 4)])
                Demo.empty_state in
  Forall (fun r => allowed r = true) rs /\
  Z.of_nat (length rs) = config.rateLimit_maxRequests /\
  window "unknown" config.rateLimit_maxRequests 0 s' /\
  allowed (fst (call_at (ip_string (getClientIP DemoAnon.b)) 5 s')) = false.
Proof.
  apply (anonymous_requests_share_window DemoAnon.a 0
           [(DemoAnon.b, 1); (DemoAnon.a, 2); (DemoAnon.b, 3); (DemoAnon.a, 4)]
           DemoAnon.b 5 Demo.empty_state).
  - split; reflexivity.
  - repeat constructor.
  - split; reflexivity.
  - reflexivity.
  - reflexivity.
  - simpl. lia.
  - vm_compute. discriminate.
Defined.

(** ** Admission *)

Section AdmissionFacts.

Variable others : Z -> Z -> Z.

Lemma now_interfere_sleep s :
  now (interfere others (sleep checkInterval s)) = now s + 1000.
Proof. reflexivity. Qed.

(** The loop ends within 62 tests of its condition. *)
Lemma waitForSlot_loop_total fuel : forall startTime s (k : nat),
  now s - startTime = 1000 * Z.of_nat k -> (k <= 61)%nat -> (62 <= fuel + k)%nat ->
  exists r, waitForSlot_loop others fuel startTime s = Some r.
Proof.
  induction fuel as [|fuel IH]; intros startTime s k Hk Hle Hfuel; [lia|].
  cbn [waitForSlot_loop]. unfold poll.
  destruct (maxConcurrent <=? activeDownloads s); [|eauto].
  destruct (maxWaitTime <? now s - startTime) eqn:E; [eauto|].
  unfold maxWaitTime in E.
  apply (IH startTime _ (S k)).
  - rewrite now_interfere_sleep. lia.
  - lia.
  - lia.
Qed.

Lemma waitForSlot_total s :
  waitForSlot_loop others 62 (now s) s = Some (waitForSlot others s).
Proof.
  destruct (waitForSlot_loop_total 62 (now s) s 0 ltac:(simpl; lia) ltac:(lia) ltac:(lia))
    as [r Hr].
  unfold waitForSlot. rewrite Hr. reflexivity.
Qed.

(** A normal return of waitForSlot has seen a free slot. *)
Lemma waitForSlot_loop_normal fuel : forall startTime s u s',
  waitForSlot_loop others fuel startTime s = Some (Normal u, s') ->
  activeDownloads s' < maxConcurrent.
Proof.
  induction fuel as [|fuel IH]; intros startTime s u s' H; [discriminate|].
  cbn [waitForSlot_loop] in H. unfold poll in H.
  destruct (maxConcurrent <=? activeDownloads s) eqn:E.
  - destruct (maxWaitTime <? now s - startTime); [discriminate|].
    eapply IH, H.
  - injection H as _ <-. lia.
Qed.

Lemma waitForSlot_normal s u s' :
  waitForSlot others s = (Normal u, s') -> activeDownloads s' < maxConcurrent.
Proof.
  intros H. pose proof (waitForSlot_total s) as Ht. rewrite H in Ht.
  eapply waitForSlot_loop_normal, Ht.
Qed.

(** While the other requests keep every slot taken, the loop sleeps
    [checkInterval] at a time and throws at the first test that finds more
    than [maxWaitTime] gone by. *)
Hypothesis no_slot_frees : forall t a, maxConcurrent <= a -> maxConcurrent <= others t a.



End AdmissionFacts.

Module GateFacts.

Import Gate.

Lemma arrive_free sys :
  active sys < maxConcurrent ->
  step sys (mkSys (clock sys) (active sys) (reqs sys ++ [Resuming])).
Proof.
  intros H. pose proof (step_arrive sys) as Hs. unfold poll in Hs.
  destruct (maxConcurrent <=? active sys) eqn:E; [lia|]. exact Hs.
Qed.

Lemma reach_four_resuming : reachable four_resuming.
Proof.
  unfold reachable, init, four_resuming.
  eapply rtc_l; [apply (arrive_free (mkSys 0 0 [])); vm_compute; reflexivity|].
  eapply rtc_l; [apply (arrive_free (mkSys 0 0 [Resuming])); vm_compute; reflexivity|].
  eapply rtc_l;
    [apply (arrive_free (mkSys 0 0 [Resuming; Resuming])); vm_compute; reflexivity|].
  eapply rtc_l;
    [apply (arrive_free (mkSys 0 0 [Resuming; Resuming; Resuming]));
     vm_compute; reflexivity|].
  apply rtc_refl.
Qed.

Lemma reach_four_holding : reachable four_holding.
Proof.
  unfold reachable. eapply rtc_trans; [apply reach_four_resuming|].
  unfold four_resuming, four_holding.
  eapply rtc_l;
    [apply (step_admit (mkSys 0 0 [Resuming; Resuming; Resuming; Resuming]) 0);
     reflexivity|].
  eapply rtc_l;
    [apply (step_admit (mkSys 0 1 [Holding; Resuming; Resuming; Resuming]) 1);
     reflexivity|].
  eapply rtc_l;
    [apply (step_admit (mkSys 0 2 [Holding; Holding; Resuming; Resuming]) 2);
     reflexivity|].
  eapply rtc_l;
    [apply (step_admit (mkSys 0 3 [Holding; Holding; Holding; Resuming]) 3);
     reflexivity|].
  apply rtc_refl.
Qed.

Lemma holding_app l1 l2 : holding (l1 ++ l2)%list = holding l1 + holding l2.
Proof. unfold holding. rewrite List.filter_app, length_app. lia. Qed.

Lemma holding_insert l i old new :
  l !! i = Some old ->
  holding (<[i := new]> l)
  = holding l - (if is_holding old then 1 else 0) + (if is_holding new then 1 else 0).
Proof.
  intros H. pose proof (lookup_lt_Some _ _ _ H) as Hlt.
  rewrite insert_take_drop by exact Hlt.
  rewrite <- (take_drop_middle l i old H) at 3.
  rewrite !holding_app.
  change (new :: drop (S i) l) with ([new] ++ drop (S i) l)%list.
  change (old :: drop (S i) l) with ([old] ++ drop (S i) l)%list.
  rewrite !holding_app. unfold holding at 2 5. simpl.
  destruct (is_holding old), (is_holding new); simpl; lia.
Qed.

Lemma holding_nonneg l : 0 <= holding l.
Proof. unfold holding. lia. Qed.

Lemma holding_member l i : l !! i = Some Holding -> 1 <= holding l.
Proof.
  intros H. rewrite <- (take_drop_middle l i Holding H).
  change (Holding :: drop (S i) l) with ([Holding] ++ drop (S i) l)%list.
  rewrite !holding_app.
  pose proof (holding_nonneg (take i l)). pose proof (holding_nonneg (drop (S i) l)).
  change (holding [Holding]) with 1. lia.
Qed.

(** What the gate does keep: the counter is never negative and never above
    the number of requests between their increment and their cleanup. *)
Lemma counter_within_holders sys :
  reachable sys -> 0 <= active sys <= holding (reqs sys).
Proof.
  unfold reachable. intros H.
  apply (rtc_ind_r (R := step)
           (fun sys => 0 <= active sys <= holding (reqs sys)) init);
    [| |exact H].
  - vm_compute. split; discriminate.
  - clear sys H. intros sys0 sys' _ Hstep IH.
    destruct Hstep as [sys dt Hdt | sys | sys i st w Hi Hw | sys i Hi | sys i Hi];
      cbn [active reqs].
    + exact IH.
    + rewrite holding_app.
      destruct (poll _ _ _); unfold holding in *; simpl; lia.
    + rewrite (holding_insert _ _ _ _ Hi).
      destruct (poll _ _ _); simpl; lia.
    + rewrite (holding_insert _ _ _ _ Hi). simpl. lia.
    + rewrite (holding_insert _ _ _ _ Hi). simpl. unfold decrement.
      pose proof (holding_member _ _ Hi).
      destruct (0 <? active sys) eqn:E; lia.
Qed.

(** C2 fails on the code. The test of [activeDownloads >= maxConcurrent]
    in waitForSlot and the increment after [await waitForSlot()] are not
    one atomic step: requests that pass the test before any of them has
    incremented are all admitted, and the counter goes beyond
    maxConcurrent. *)
Theorem gate_overbooked :
  exists sys, reachable sys /\ active sys = 4 /\ maxConcurrent < active sys.
Proof.
  exists four_holding. split; [apply reach_four_holding|].
  split; [reflexivity | vm_compute; reflexivity].
Qed.

End GateFacts.

(** * Further properties *)

(** ** The rate limiter: reset, isolation, bounds *)

Lemma rate_key_inj a b : "rate_" ++ a = "rate_" ++ b -> a = b.
Proof. simpl. intros H. injection H as H. exact H. Qed.

(** A call touches the entry of its own client only. *)
Lemma checkRateLimit_other a key s :
  key <> "rate_" ++ a ->
  rateLimitCache (snd (checkRateLimit a s)) !! key = rateLimitCache s !! key.
Proof.
  intros Hne. unfold checkRateLimit, NodeCache.get.
  destruct (rateLimitCache s !! ("rate_" ++ a)) as [[d t]|] eqn:E.
  - destruct (NodeCache.expired (now s) t); simpl.
    + unfold rate_set, NodeCache.set. simpl.
      rewrite lookup_insert_ne by congruence.
      rewrite lookup_delete_ne by congruence. reflexivity.
    + destruct (_ <? _); simpl.
      { unfold rate_set, NodeCache.set. simpl.
        rewrite lookup_insert_ne by congruence. reflexivity. }
      destruct (_ <=? _); simpl; [reflexivity|].
      unfold rate_set, NodeCache.set. simpl.
      rewrite lookup_insert_ne by congruence. reflexivity.
  - simpl. unfold rate_set, NodeCache.set. simpl.
    rewrite lookup_insert_ne by congruence. reflexivity.
Qed.

(** What a call answers, and the entry it leaves, depend on the time and
    on the entry of its client only. *)
Lemma checkRateLimit_local ip s1 s2 :
  now s1 = now s2 ->
  rateLimitCache s1 !! ("rate_" ++ ip) = rateLimitCache s2 !! ("rate_" ++ ip) ->
  fst (checkRateLimit ip s1) = fst (checkRateLimit ip s2) /\
  rateLimitCache (snd (checkRateLimit ip s1)) !! ("rate_" ++ ip)
  = rateLimitCache (snd (checkRateLimit ip s2)) !! ("rate_" ++ ip).
Proof.
  intros Hn Hl. unfold checkRateLimit, NodeCache.get. rewrite Hl, Hn.
  destruct (rateLimitCache s2 !! ("rate_" ++ ip)) as [[d t]|] eqn:E.
  - destruct (NodeCache.expired (now s2) t); simpl.
    + split; [reflexivity|]. unfold rate_set, NodeCache.set. simpl.
      rewrite !lookup_insert_eq, Hn. reflexivity.
    + rewrite Hn. destruct (_ <? _); simpl.
      { split; [reflexivity|]. unfold rate_set, NodeCache.set. simpl.
        rewrite !lookup_insert_eq, Hn. reflexivity. }
      destruct (_ <=? _); simpl; [split; [reflexivity|congruence]|].
      split; [reflexivity|]. unfold rate_set, NodeCache.set. simpl.
      rewrite !lookup_insert_eq, Hn. reflexivity.
  - simpl. split; [reflexivity|]. unfold rate_set, NodeCache.set. simpl.
    rewrite !lookup_insert_eq, Hn. reflexivity.
Qed.

(** X1. Once more than [windowMs] has gone by since a client's window
    started, its next call is allowed whatever the old count was and
    starts a new window with count 1 at the time of that call; the
    following [maxRequests - 1] calls inside the new window are allowed,
    and one more is denied. *)
Theorem rate_limit_window_resets (ip : string) (s : State) (c f t1 : Z)
        (mid : list Z) (tN : Z)
        (Hold : window ip c f s)
        (Hover : config.rateLimit_windowMs < t1 - f)
        (Hlen : Z.of_nat (length mid) = config.rateLimit_maxRequests - 1)
        (Hord : ordered t1 mid tN)
        (Hin : tN - t1 <= config.rateLimit_windowMs) :
  let '(r1, s1) := call_at ip t1 s in
  let '(rs, s5) := calls_at ip mid s1 in
  r1 = mkRateResult true None /\ window ip 1 t1 s1 /\
  Forall (fun r => r = mkRateResult true None) rs /\
  length rs = length mid /\
  window ip config.rateLimit_maxRequests t1 s5 /\
  allowed (fst (call_at ip tN s5)) = false.
Proof.
  pose proof (ordered_le _ _ _ Hord) as Hle.
  destruct (call_reset ip c f t1 s Hold Hover) as [H1 Hw1].
  destruct (call_at ip t1 s) as [r1 s1]; simpl in H1, Hw1.
  destruct (calls_in_window ip t1 tN mid 1 s1 Hw1 Hle Hin ltac:(lia)
                            t1 ltac:(lia) Hord) as (Hrs & Hl & Hw5).
  destruct (calls_at ip mid s1) as [rs s5]; simpl in Hrs, Hl, Hw5.
  replace (1 + Z.of_nat (length mid)) with config.rateLimit_maxRequests in Hw5 by lia.
  repeat split; try assumption.
  rewrite (call_denied ip _ t1 tN s5 Hw5 Hin ltac:(lia)). reflexivity.
Qed.

Lemma rate_limit_window_resets_witness :
  let s := snd (calls_at "1.2.3.4" [0; 0; 0; 0; 0] Demo.empty_state) in
  window "1.2.3.4" 5 0 s /\
  let '(r1, s1) := call_at "1.2.3.4" 900001 s in
  let '(rs, s5) := calls_at "1.2.3.4" [900002; 900003; 900004; 900005] s1 in
  r1 = mkRateResult true None /\ window "1.2.3.4" 1 900001 s1 /\
  Forall (fun r => r = mkRateResult true None) rs /\
  length rs = length [900002; 900003; 900004; 900005] /\
  window "1.2.3.4" config.rateLimit_maxRequests 900001 s5 /\
  allowed (fst (call_at "1.2.3.4" 900006 s5)) = false.
Proof.
  assert (Hw : window "1.2.3.4" 5 0
                 (snd (calls_at "1.2.3.4" [0; 0; 0; 0; 0] Demo.empty_state))).
  { exists 900000. split; [vm_compute; reflexivity | vm_compute; discriminate]. }
  split; [exact Hw|].
  apply (rate_limit_window_resets "1.2.3.4" _ 5 0 900001
           [900002; 900003; 900004; 900005] 900006 Hw).
  - reflexivity.
  - reflexivity.
  - simpl. lia.
  - vm_compute. discriminate.
Defined.

(** X2. The limit is per client: a call of client [a] leaves the window
    of another client [b] as it is, so what [b] is answered afterwards,
    and the window [b] is left with, are what they would have been without
    the call of [a]. *)
Theorem rate_limit_per_client (a b : string) (ta tb : Z) (s : State)
        (Hab : a <> b) :
  let s' := snd (call_at a ta s) in
  rateLimitCache s' !! ("rate_" ++ b) = rateLimitCache s !! ("rate_" ++ b) /\
  fst (call_at b tb s') = fst (call_at b tb s) /\
  rateLimitCache (snd (call_at b tb s')) !! ("rate_" ++ b)
  = rateLimitCache (snd (call_at b tb s)) !! ("rate_" ++ b).
Proof.
  assert (Hk : "rate_" ++ b <> "rate_" ++ a).
  { intros H. apply rate_key_inj in H. congruence. }
  assert (H1 : rateLimitCache (snd (call_at a ta s)) !! ("rate_" ++ b)
               = rateLimitCache s !! ("rate_" ++ b)).
  { unfold call_at. rewrite (checkRateLimit_other a _ _ Hk). reflexivity. }
  cbv zeta. split; [exact H1|].
  unfold call_at at 1 3 4 6.
  apply checkRateLimit_local; [reflexivity|]. exact H1.
Qed.

Lemma rate_limit_per_client_witness :
  let s' := snd (call_at "1.1.1.1" 5 Demo.empty_state) in
  rateLimitCache s' !! ("rate_" ++ "2.2.2.2")
  = rateLimitCache Demo.empty_state !! ("rate_" ++ "2.2.2.2") /\
  fst (call_at "2.2.2.2" 7 s') = fst (call_at "2.2.2.2" 7 Demo.empty_state) /\
  rateLimitCache (snd (call_at "2.2.2.2" 7 s')) !! ("rate_" ++ "2.2.2.2")
  = rateLimitCache (snd (call_at "2.2.2.2" 7 Demo.empty_state)) !! ("rate_" ++ "2.2.2.2").
Proof.
  apply (rate_limit_per_client "1.1.1.1" "2.2.2.2" 5 7 Demo.empty_state).
  discriminate.
Defined.

Lemma checkRateLimit_rate_ok ip s : rate_ok s -> rate_ok (snd (checkRateLimit ip s)).
Proof.
  intros Hok key d t.
  destruct (decide (key = "rate_" ++ ip)) as [->|Hne].
  - unfold checkRateLimit, NodeCache.get.
    destruct (rateLimitCache s !! ("rate_" ++ ip)) as [[d0 t0]|] eqn:E.
    + pose proof (Hok _ _ _ E) as H0.
      destruct (NodeCache.expired (now s) t0); simpl.
      * unfold rate_set, NodeCache.set. simpl. rewrite lookup_insert_eq.
        intros [= <- _]. simpl. unfold config.rateLimit_maxRequests. lia.
      * destruct (_ <? _); simpl.
        { unfold rate_set, NodeCache.set. simpl. rewrite lookup_insert_eq.
          intros [= <- _]. simpl. unfold config.rateLimit_maxRequests. lia. }
        destruct (config.rateLimit_maxRequests <=? count d0) eqn:Ec; simpl.
        { rewrite E. intros [= <- _]. exact H0. }
        unfold rate_set, NodeCache.set. simpl. rewrite lookup_insert_eq.
        intros [= <- _]. simpl. lia.
    + simpl. unfold rate_set, NodeCache.set. simpl. rewrite lookup_insert_eq.
      intros [= <- _]. simpl. unfold config.rateLimit_maxRequests. lia.
  - rewrite (checkRateLimit_other ip key s Hne). apply Hok.
Qed.

(** A denied call: the state is as before, and the number of seconds is
    between 0 and 900 when the window did not start in the future. *)
Lemma checkRateLimit_denied ip s r s' :
  checkRateLimit ip s = (r, s') -> allowed r = false ->
  s' = s /\
  exists d t,
    rateLimitCache s !! ("rate_" ++ ip) = Some (d, t) /\
    retryAfter r
    = Some (ceil_div_1000 (config.rateLimit_windowMs - (now s - firstRequest d))) /\
    now s - firstRequest d <= config.rateLimit_windowMs.
Proof.
  unfold checkRateLimit, NodeCache.get.
  destruct (rateLimitCache s !! ("rate_" ++ ip)) as [[d t]|] eqn:E.
  - destruct (NodeCache.expired (now s) t); simpl.
    { intros [= <- _]. discriminate. }
    destruct (_ <? _) eqn:E1; simpl.
    { intros [= <- _]. discriminate. }
    destruct (_ <=? _); simpl.
    + intros [= <- <-] _. split; [apply set_rateLimitCache_same|].
      exists d, t. repeat split. lia.
    + intros [= <- _]. discriminate.
  - simpl. intros [= <- _]. discriminate.
Qed.

Section RateHandlerFacts.

Variable url_hostname : string -> option string.
Variable sha256_hex : string -> string.
Variable extname : string -> string.
Variable sanitizeFilename : string -> string.
Variable toFixed1_MB : Z -> string.
Variable youtubedl : nat -> string -> string -> string -> ToolRun.
Variable unlink_fails : string -> bool.
Variable copy_fails : string -> bool.
Variable others : Z -> Z -> Z.

Local Abbreviation handler_ :=
  (handler url_hostname sha256_hex extname sanitizeFilename toFixed1_MB
           youtubedl unlink_fails copy_fails others).
Local Abbreviation try_block_ :=
  (try_block sha256_hex extname sanitizeFilename toFixed1_MB
             youtubedl copy_fails others).
Local Abbreviation download_fresh_ :=
  (download_fresh extname sanitizeFilename toFixed1_MB youtubedl copy_fails others).
Local Abbreviation deliver_ :=
  (deliver extname sanitizeFilename toFixed1_MB copy_fails).

Lemma cache_video_rateLimitCache cacheKey ext outputPath ctype sanitized fileSize s :
  rateLimitCache (cache_video copy_fails cacheKey ext outputPath ctype sanitized fileSize s)
  = rateLimitCache s.
Proof.
  unfold cache_video. destruct (copy_fails _); [reflexivity|].
  destruct (NodeCache.set _ _ _ _ _ _); reflexivity.
Qed.

Lemma deliver_rateLimitCache cacheKey timestamp startTime s :
  rateLimitCache (snd (deliver_ cacheKey timestamp startTime s)) = rateLimitCache s.
Proof.
  unfold deliver.
  destruct (List.find _ _) as [f|]; [|reflexivity].
  destruct (files s !! _) as [sz|]; [|reflexivity].
  destruct (_ <? sz); [reflexivity|]. cbn [snd]. simpl.
  destruct (sz <? 50 * MB); [|reflexivity].
  apply cache_video_rateLimitCache.
Qed.

Lemma download_fresh_rateLimitCache url cacheKey startTime s :
  rateLimitCache (snd (download_fresh_ url cacheKey startTime s)) = rateLimitCache s.
Proof.
  unfold download_fresh.
  pose proof (waitForSlot_kept others s) as Hw.
  assert (Hw' : rateLimitCache (snd (waitForSlot others s)) = rateLimitCache s).
  { change (k_rateLimitCache (kept (snd (waitForSlot others s)))
            = k_rateLimitCache (kept s)). rewrite Hw. reflexivity. }
  destruct (waitForSlot others s) as [[[]|e] s1]; cbn [snd] in Hw' |- *; [|exact Hw'].
  set (s2 := set_activeDownloads (activeDownloads s1 + 1) s1).
  unfold retryOperation.
  pose proof (retry_download_frame youtubedl url
                ("/tmp/" ++ video_prefix (now s2) ++ "%(title)s.%(ext)s")
                config.maxRetries config.retryDelay config.downloadTimeoutMs
                (Z.to_nat config.maxRetries) 1 Undefined s2) as (_ & Hr & _).
  cbv zeta in Hr.
  destruct (retry_loop _ _ _ _ _ _ _ s2) as [[[]|e] s3]; cbn [snd] in Hr |- *.
  - rewrite deliver_rateLimitCache, Hr. exact Hw'.
  - rewrite Hr. exact Hw'.
Qed.

Lemma try_block_rateLimitCache url startTime s :
  rateLimitCache (snd (try_block_ url startTime s)) = rateLimitCache s.
Proof.
  unfold try_block.
  destruct (NodeCache.get _ _ _) as [cv vc].
  change (rateLimitCache s) with (rateLimitCache (set_videoCache vc s)).
  destruct cv as [c|];
    [destruct (existsSync _ _); [reflexivity|]|];
    apply download_fresh_rateLimitCache.
Qed.

(** The handler writes to the rate-limit table through checkRateLimit
    only. *)
Lemma handler_rateLimitCache req s :
  rateLimitCache (snd (handler_ req s)) = rateLimitCache s \/
  rateLimitCache (snd (handler_ req s))
  = rateLimitCache (snd (checkRateLimit (ip_string (getClientIP req)) s)).
Proof.
  unfold handler.
  destruct (negb (String.eqb (method req) "POST")); [left; reflexivity|].
  destruct (body_url req) as [url|]; [|left; reflexivity].
  destruct (negb (Str.truthy url)); [left; reflexivity|].
  destruct (url_hostname url); [|left; reflexivity].
  destruct (negb (isAllowedDomain url_hostname url)); [left; reflexivity|].
  right.
  destruct (checkRateLimit (ip_string (getClientIP req)) s) as [r s1]. cbn [snd].
  destruct (negb (allowed r)); [reflexivity|].
  pose proof (try_block_rateLimitCache url (now s1) s1) as Ht.
  destruct (try_block_ url (now s1) s1) as [[[r'|e] op] s2]; cbn [snd] in Ht |- *;
    [exact Ht|].
  pose proof (catch_block_kept unlink_fails e op s2) as Hc.
  destruct (catch_block unlink_fails e None op s2) as [resp s3]. cbn [snd] in Hc |- *.
  change (k_rateLimitCache (kept s3) = rateLimitCache s1). rewrite Hc. exact Ht.
Qed.

(** X3. Whatever the request, the handler keeps every stored rate-limit
    window at a count between 1 and [maxRequests]. *)
Theorem handler_keeps_counts_bounded (req : Request) (s : State)
        (Hok : rate_ok s) :
  rate_ok (snd (handler_ req s)).
Proof.
  intros key d t.
  destruct (handler_rateLimitCache req s) as [-> | ->].
  - apply Hok.
  - apply (checkRateLimit_rate_ok _ s Hok).
Qed.

(** X4. The handler sends a retryAfter only with status 429 from the rate
    limiter; when no stored window starts in the future the number sent is
    between 1 and 900 seconds, and the refused request has changed nothing:
    it is not counted and no slot, file or cache entry is touched. *)
Theorem retryAfter_sent_in_range (req : Request) (s s' : State)
        (status x : Z) (error : string) (load : option (Z * Z))
        (cleanup : option Cleanup)
        (Hpast : rate_past s)
        (Hresp : handler_ req s = ((RJson status error (Some x) load, cleanup), s')) :
  status = 429 /\ error = rate_error /\ 1 <= x <= 900 /\ s' = s.
Proof.
  unfold handler in Hresp.
  destruct (negb (String.eqb (method req) "POST")); [discriminate|].
  destruct (body_url req) as [url|]; [|discriminate].
  destruct (negb (Str.truthy url)); [discriminate|].
  destruct (url_hostname url); [|discriminate].
  destruct (negb (isAllowedDomain url_hostname url)); [discriminate|].
  destruct (checkRateLimit (ip_string (getClientIP req)) s) as [r s1] eqn:Ec.
  destruct (allowed r) eqn:Ea; cbn [negb] in Hresp.
  - destruct (try_block_ url (now s1) s1) as [[[r'|e] op] s2] eqn:Et.
    + exfalso. unfold try_block in Et.
      destruct (NodeCache.get _ _ _) as [cv vc].
      assert (Hd : forall k st0, fst (fst (download_fresh_ url k (now s1) st0))
                            <> Normal (RJson status error (Some x) load, cleanup)).
      { intros k st0. unfold download_fresh.
        destruct (waitForSlot others st0) as [[[]|e0] s3]; [|discriminate].
        destruct (retryOperation _ _ _ _ _) as [[[]|e1] s4]; [|discriminate].
        unfold deliver.
        destruct (List.find _ _); [|discriminate].
        destruct (files s4 !! _); [|discriminate].
        destruct (_ <? _); discriminate. }
      injection Hresp as Hr' _. subst r'.
      destruct cv as [c|].
      * destruct (existsSync _ _).
        { unfold serve_cached in Et. discriminate. }
        eapply Hd. rewrite Et. reflexivity.
      * eapply Hd. rewrite Et. reflexivity.
    + unfold catch_block in Hresp. destruct (classify e). discriminate.
  - injection Hresp as <- <- <- _ _ <-.
    destruct (checkRateLimit_denied _ _ _ _ Ec Ea) as (-> & d & t & Hl & Hr & Hw).
    rewrite Hr. repeat split.
    + pose proof (Hpast _ _ _ Hl) as Hf.
      pose proof (ceil_div_1000_spec
                    (config.rateLimit_windowMs - (now s - firstRequest d))) as Hs.
      unfold retryAfter_or_900, config.rateLimit_windowMs in *.
      destruct (_ =? 0) eqn:E0; lia.
    + pose proof (Hpast _ _ _ Hl) as Hf.
      pose proof (ceil_div_1000_spec
                    (config.rateLimit_windowMs - (now s - firstRequest d))) as Hs.
      unfold retryAfter_or_900, config.rateLimit_windowMs in *.
      destruct (_ =? 0) eqn:E0; lia.
Qed.

End RateHandlerFacts.

Lemma limited_state_entry key d t :
  rateLimitCache DemoRate.limited_state !! key = Some (d, t) ->
  d = mkRateData 5 0.
Proof.
  unfold DemoRate.limited_state. cbn [rateLimitCache].
  intros H. apply lookup_insert_Some in H.
  destruct H as [[_ H] | [_ H]]; [congruence|].
  rewrite lookup_empty in H. discriminate.
Defined.

Lemma handler_keeps_counts_bounded_witness :
  rate_ok DemoRate.limited_state /\
  rate_ok (snd (Demo.handler_with DemoCache.unavailable
                  (Demo.post Demo.youtube_url "1.2.3.4") DemoRate.limited_state)).
Proof.
  assert (H : rate_ok DemoRate.limited_state).
  { intros key d t Hl. rewrite (limited_state_entry key d t Hl). simpl.
    unfold config.rateLimit_maxRequests. lia. }
  split; [exact H|].
  apply (handler_keeps_counts_bounded Demo.hostname Demo.same Demo.ext_mp4 Demo.same
           Demo.no_digits DemoCache.unavailable Demo.never Demo.never Demo.nobody
           (Demo.post Demo.youtube_url "1.2.3.4") DemoRate.limited_state H).
Defined.

Lemma retryAfter_sent_in_range_witness :
  rate_past DemoRate.limited_state /\
  Demo.handler_with DemoCache.unavailable
    (Demo.post Demo.youtube_url "1.2.3.4") DemoRate.limited_state
  = ((RJson 429 rate_error (Some 900) None, None), DemoRate.limited_state) /\
  429 = 429 /\ rate_error = rate_error /\ 1 <= 900 <= 900 /\
  DemoRate.limited_state = DemoRate.limited_state.
Proof.
  assert (H : rate_past DemoRate.limited_state).
  { intros key d t Hl. rewrite (limited_state_entry key d t Hl). simpl. lia. }
  assert (Hr : Demo.handler_with DemoCache.unavailable
                 (Demo.post Demo.youtube_url "1.2.3.4") DemoRate.limited_state
               = ((RJson 429 rate_error (Some 900) None, None), DemoRate.limited_state)).
  { vm_compute. reflexivity. }
  split; [exact H|]. split; [exact Hr|].
  apply (retryAfter_sent_in_range Demo.hostname Demo.same Demo.ext_mp4 Demo.same
           Demo.no_digits DemoCache.unavailable Demo.never Demo.never Demo.nobody
           (Demo.post Demo.youtube_url "1.2.3.4") DemoRate.limited_state
           DemoRate.limited_state 429 900 rate_error None None H Hr).
Defined.

(** ** Strings: prefixes and suffixes *)

Lemma append_cons (a : ascii) (s t : string) : String a s ++ t = String a (s ++ t).
Proof. reflexivity. Qed.

Lemma append_nil_l (s : string) : "" ++ s = s.
Proof. reflexivity. Qed.

Lemma append_nil_r (s : string) : s ++ "" = s.
Proof.
  induction s as [|a s IH]; [reflexivity|]. rewrite append_cons, IH. reflexivity.
Qed.

Lemma append_assoc (a b c : string) : (a ++ b) ++ c = a ++ (b ++ c).
Proof.
  induction a as [|x a IH]; [reflexivity|]. rewrite !append_cons, IH. reflexivity.
Qed.

Lemma rev_app_spec (s1 s2 : string) : String.rev_app s1 s2 = String.rev s1 ++ s2.
Proof.
  unfold String.rev. revert s2.
  induction s1 as [|a s1 IH]; intros s2; [reflexivity|].
  cbn [String.rev_app]. rewrite IH, (IH (String a "")), append_assoc. reflexivity.
Qed.

Lemma rev_append (s1 s2 : string) :
  String.rev (s1 ++ s2) = String.rev s2 ++ String.rev s1.
Proof.
  induction s1 as [|a s1 IH].
  - rewrite append_nil_l. change (String.rev "") with "".
    rewrite append_nil_r. reflexivity.
  - rewrite append_cons.
    unfold String.rev at 1 3. cbn [String.rev_app].
    rewrite !rev_app_spec, IH, append_assoc. reflexivity.
Qed.

Lemma rev_involutive (s : string) : String.rev (String.rev s) = s.
Proof.
  induction s as [|a s IH]; [reflexivity|].
  unfold String.rev at 2. cbn [String.rev_app].
  rewrite rev_app_spec, rev_append, IH. reflexivity.
Qed.

Lemma startsWith_nil (s : string) : Str.startsWith s "" = true.
Proof. destruct s; reflexivity. Qed.

Lemma startsWith_spec (s p : string) :
  Str.startsWith s p = true <-> exists r, s = p ++ r.
Proof.
  revert s. induction p as [|a p IH]; intros s.
  - destruct s; cbn [Str.startsWith]; (split; [intros _; eexists; reflexivity | reflexivity]).
  - destruct s as [|b s]; cbn [Str.startsWith].
    + split; [discriminate | intros [r Hr]; discriminate].
    + destruct (Ascii.eqb a b) eqn:E.
      * apply Ascii.eqb_eq in E. subst b. rewrite IH.
        split; intros [r Hr]; exists r.
        -- rewrite append_cons. f_equal. exact Hr.
        -- rewrite append_cons in Hr. injection Hr as Hr. exact Hr.
      * apply Ascii.eqb_neq in E.
        split; [discriminate|]. intros [r Hr]. rewrite append_cons in Hr.
        injection Hr as Ha _. congruence.
Qed.

Lemma endsWith_spec (s p : string) :
  Str.endsWith s p = true <-> exists q, s = q ++ p.
Proof.
  unfold Str.endsWith. rewrite startsWith_spec. split.
  - intros [r Hr]. exists (String.rev r).
    rewrite <- (rev_involutive s), Hr, rev_append, rev_involutive. reflexivity.
  - intros [q ->]. exists (String.rev q). apply rev_append.
Qed.

(** ** The allow-list *)

Section AllowListFacts.

Variable url_hostname : string -> option string.

(** X5. A url is allowed exactly when it parses and its host, in lower
    case, is one of the listed domains or ends with a dot followed by one
    of them: letter case in the host does not matter, and a host that has
    a listed domain as a suffix without the dot is not allowed by that
    domain. *)
Theorem isAllowedDomain_spec (url : string) :
  isAllowedDomain url_hostname url = true <->
  exists h d,
    url_hostname url = Some h /\ In d config.allowedDomains /\
    (Str.toLowerCase h = d \/ exists sub, Str.toLowerCase h = sub ++ "." ++ d).
Proof.
  unfold isAllowedDomain. destruct (url_hostname url) as [h|].
  - rewrite existsb_exists. split.
    + intros (d & Hin & Hm). exists h, d. split; [reflexivity|]. split; [exact Hin|].
      unfold domain_matches in Hm. apply orb_true_iff in Hm.
      destruct Hm as [Hm|Hm].
      * left. apply String.eqb_eq, Hm.
      * right. apply endsWith_spec in Hm. exact Hm.
    + intros (h' & d & [= <-] & Hin & Hm). exists d. split; [exact Hin|].
      unfold domain_matches. apply orb_true_iff.
      destruct Hm as [Hm|Hm].
      * left. apply String.eqb_eq, Hm.
      * right. apply endsWith_spec. exact Hm.
  - split; [discriminate|]. intros (h & d & H & _). discriminate.
Qed.

End AllowListFacts.

(** ** The client identifier *)

Lemma split_comma_head_no_comma (s : string) :
  Str.includes (Str.split_comma_head s) "," = false.
Proof.
  induction s as [|c s IH]; [reflexivity|].
  cbn [Str.split_comma_head]. destruct (Ascii.eqb c ",") eqn:E; [reflexivity|].
  cbn [Str.includes Str.startsWith]. rewrite Ascii.eqb_sym, E. exact IH.
Qed.

Lemma split_comma_head_app (a rest : string) :
  Str.includes a "," = false -> Str.split_comma_head (a ++ "," ++ rest) = a.
Proof.
  induction a as [|c a IH]; intros H.
  - reflexivity.
  - cbn [Str.includes Str.startsWith] in H.
    rewrite append_cons.
    cbn [Str.split_comma_head].
    destruct (Ascii.eqb c ",") eqn:E.
    + rewrite Ascii.eqb_sym, E, startsWith_nil in H. discriminate.
    + rewrite Ascii.eqb_sym, E in H. cbn in H. rewrite (IH H). reflexivity.
Qed.

(** X6. When the request has a non-empty x-forwarded-for header, the
    client identifier is the text of the header before its first comma,
    whatever the remote address of the connection is; it holds no comma,
    and it is the first element of a comma-separated list as it stands.
    The rate limiter then goes by that text alone: with no window stored
    for it, the request is allowed. *)
Theorem forwarded_header_names_client (req : Request) (h : string) (s : State)
        (Hh : x_forwarded_for req = Some (HString h))
        (Hne : Str.truthy h = true) :
  getClientIP req = Some (Str.split_comma_head h) /\
  Str.includes (ip_string (getClientIP req)) "," = false /\
  (forall a rest,
      h = a ++ "," ++ rest -> Str.includes a "," = false ->
      getClientIP req = Some a) /\
  (rateLimitCache s !! ("rate_" ++ Str.split_comma_head h) = None ->
   allowed (fst (checkRateLimit (ip_string (getClientIP req)) s)) = true).
Proof.
  assert (Hip : getClientIP req = Some (Str.split_comma_head h)).
  { unfold getClientIP. rewrite Hh, Hne. reflexivity. }
  split; [exact Hip|]. rewrite Hip. cbn [ip_string].
  split; [apply split_comma_head_no_comma|]. split.
  - intros a rest -> Ha. rewrite (split_comma_head_app a rest Ha). reflexivity.
  - intros Hnone. unfold checkRateLimit, NodeCache.get. rewrite Hnone. reflexivity.
Qed.

Lemma forwarded_header_names_client_witness :
  let req := mkRequest "POST" (Some Demo.youtube_url)
                       (Some (HString "9.9.9.9, 1.2.3.4")) (Some "1.2.3.4") in
  getClientIP req = Some (Str.split_comma_head "9.9.9.9, 1.2.3.4") /\
  Str.includes (ip_string (getClientIP req)) "," = false /\
  (forall a rest,
      "9.9.9.9, 1.2.3.4" = a ++ "," ++ rest -> Str.includes a "," = false ->
      getClientIP req = Some a) /\
  (rateLimitCache DemoRate.limited_state
     !! ("rate_" ++ Str.split_comma_head "9.9.9.9, 1.2.3.4") = None ->
   allowed (fst (checkRateLimit (ip_string (getClientIP req))
                                DemoRate.limited_state)) = true).
Proof.
  apply (forwarded_header_names_client
           (mkRequest "POST" (Some Demo.youtube_url)
                      (Some (HString "9.9.9.9, 1.2.3.4")) (Some "1.2.3.4"))
           "9.9.9.9, 1.2.3.4" DemoRate.limited_state).
  - reflexivity.
  - reflexivity.
Defined.

(** ** Waiting for a slot *)

Section WaitFacts.

Variable others : Z -> Z -> Z.





End WaitFacts.

(** ** How long the retry wrapper can take *)

Section RetryTimeFacts.

Context {T : Type}.
Variable operation : Operation T.
Variables maxRetries delay timeoutMs : Z.
Hypothesis delay_nonneg : 0 <= delay.
Hypothesis timeout_nonneg : 0 <= timeoutMs.




End RetryTimeFacts.



(** ** How long a request can take *)

Section LatencyFacts.

Variable url_hostname : string -> option string.
Variable sha256_hex : string -> string.
Variable extname : string -> string.
Variable sanitizeFilename : string -> string.
Variable toFixed1_MB : Z -> string.
Variable youtubedl : nat -> string -> string -> string -> ToolRun.
Variable unlink_fails : string -> bool.
Variable copy_fails : string -> bool.
Variable others : Z -> Z -> Z.

Local Abbreviation handler_ :=
  (handler url_hostname sha256_hex extname sanitizeFilename toFixed1_MB
           youtubedl unlink_fails copy_fails others).
Local Abbreviation try_block_ :=
  (try_block sha256_hex extname sanitizeFilename toFixed1_MB
             youtubedl copy_fails others).
Local Abbreviation download_fresh_ :=
  (download_fresh extname sanitizeFilename toFixed1_MB youtubedl copy_fails others).
Local Abbreviation deliver_ :=
  (deliver extname sanitizeFilename toFixed1_MB copy_fails).






End LatencyFacts.

(** ** Classifying the size error *)

Lemma toLowerCase_app (a b : string) :
  Str.toLowerCase (a ++ b) = Str.toLowerCase a ++ Str.toLowerCase b.
Proof.
  induction a as [|c a IH]; [reflexivity|].
  rewrite append_cons. cbn [Str.toLowerCase]. rewrite IH, append_cons. reflexivity.
Qed.

Lemma occurs_app c (a b : string) : occurs c (a ++ b) = occurs c a || occurs c b.
Proof.
  induction a as [|x a IH]; [reflexivity|].
  rewrite append_cons. cbn [occurs]. rewrite IH, orb_assoc. reflexivity.
Qed.

Lemma includes_spec (s p : string) :
  Str.includes s p = true -> exists q r, s = q ++ p ++ r.
Proof.
  induction s as [|c s IH]; cbn [Str.includes]; intros H.
  - rewrite orb_false_r in H. apply startsWith_spec in H. destruct H as [r Hr].
    exists "", r. exact Hr.
  - apply orb_true_iff in H. destruct H as [H|H].
    + apply startsWith_spec in H. destruct H as [r Hr]. exists "", r. exact Hr.
    + destruct (IH H) as (q & r & ->). exists (String c q), r. reflexivity.
Qed.

Lemma includes_occurs (s p : string) c :
  Str.includes s p = true -> occurs c p = true -> occurs c s = true.
Proof.
  intros H Hc. destruct (includes_spec s p H) as (q & r & ->).
  rewrite !occurs_app, Hc. apply orb_true_iff. right. reflexivity.
Qed.

Lemma includes_prefix (p r : string) : Str.includes (p ++ r) p = true.
Proof.
  assert (H : Str.startsWith (p ++ r) p = true) by (apply startsWith_spec; eauto).
  destruct (p ++ r); cbn [Str.includes]; rewrite H; reflexivity.
Qed.

Lemma plain_number_lower (s : string) :
  plain_number s = true -> Str.toLowerCase s = s.
Proof.
  induction s as [|c s IH]; [reflexivity|]. cbn [plain_number Str.toLowerCase].
  intros H. apply andb_true_iff in H. destruct H as [Hc Hs]. rewrite (IH Hs).
  f_equal. unfold Str.lower_ascii, digit_or_dot in *.
  destruct ((65 <=? nat_of_ascii c)%nat && (nat_of_ascii c <=? 90)%nat) eqn:E;
    [|reflexivity].
  exfalso. apply andb_true_iff in E. destruct E as [E1 E2].
  apply Nat.leb_le in E1. apply Nat.leb_le in E2.
  apply orb_true_iff in Hc. destruct Hc as [Hc|Hc].
  - apply andb_true_iff in Hc. destruct Hc as [_ Hc]. apply Nat.leb_le in Hc. lia.
  - apply Ascii.eqb_eq in Hc. subst c. vm_compute in E1. lia.
Qed.

Lemma plain_number_occurs (s : string) c :
  plain_number s = true -> digit_or_dot c = false -> occurs c s = false.
Proof.
  induction s as [|x s IH]; [reflexivity|]. cbn [plain_number occurs].
  intros H Hc. apply andb_true_iff in H. destruct H as [Hx Hs].
  rewrite (IH Hs Hc), orb_false_r.
  apply Ascii.eqb_neq. intros ->. congruence.
Qed.

(** The size error is answered with status 413 and its own message. *)
Lemma classify_too_large (formatted : string) :
  plain_number formatted = true ->
  classify (ErrorObj (too_large_message formatted))
  = (too_large_message formatted, 413).
Proof.
  intros Hp. unfold classify, too_large_message.
  rewrite !toLowerCase_app, (plain_number_lower _ Hp).
  change (Str.toLowerCase "File too large: ") with "file too large: ".
  change (Str.toLowerCase "MB (max: 100MB)") with "mb (max: 100mb)".
  set (L := "file too large: " ++ formatted ++ "mb (max: 100mb)").
  assert (Hno : forall c, digit_or_dot c = false ->
                          occurs c "file too large: " = false ->
                          occurs c "mb (max: 100mb)" = false ->
                          occurs c L = false).
  { intros c H1 H2 H3. unfold L.
    rewrite !occurs_app, H2, H3, (plain_number_occurs _ c Hp H1). reflexivity. }
  assert (Hex : forall p c, occurs c p = true -> occurs c L = false ->
                            Str.includes L p = false).
  { intros p c Hc HL. destruct (Str.includes L p) eqn:E; [|reflexivity].
    rewrite (includes_occurs L p c E Hc) in HL. discriminate. }
  rewrite (Hex "server too busy" "v"%char eq_refl (Hno "v"%char eq_refl eq_refl eq_refl)).
  rewrite (Hex "timed out" "d"%char eq_refl (Hno "d"%char eq_refl eq_refl eq_refl)).
  rewrite (Hex "unsupported url" "u"%char eq_refl (Hno "u"%char eq_refl eq_refl eq_refl)).
  rewrite (Hex "video unavailable" "v"%char eq_refl (Hno "v"%char eq_refl eq_refl eq_refl)).
  assert (Hin : Str.includes L "file too large" = true).
  { unfold L.
    change ("file too large: " ++ formatted ++ "mb (max: 100mb)")
      with ("file too large" ++ (": " ++ formatted ++ "mb (max: 100mb)")).
    apply includes_prefix. }
  rewrite Hin. reflexivity.
Qed.

Lemma pretty_max_size : pretty config.maxFileSizeMB = "100".
Proof. vm_compute. reflexivity. Qed.

(** ** Delivery *)

Section DeliveryFacts.

Variable sha256_hex : string -> string.
Variable extname : string -> string.
Variable sanitizeFilename : string -> string.
Variable toFixed1_MB : Z -> string.
Variable youtubedl : nat -> string -> string -> string -> ToolRun.
Variable unlink_fails : string -> bool.
Variable copy_fails : string -> bool.
Variable others : Z -> Z -> Z.

Local Abbreviation try_block_ :=
  (try_block sha256_hex extname sanitizeFilename toFixed1_MB
             youtubedl copy_fails others).
Local Abbreviation download_fresh_ :=
  (download_fresh extname sanitizeFilename toFixed1_MB youtubedl copy_fails others).
Local Abbreviation deliver_ :=
  (deliver extname sanitizeFilename toFixed1_MB copy_fails).

Lemma truthy_tmp (f : string) : Str.truthy ("/tmp/" ++ f) = true.
Proof. reflexivity. Qed.

(** X10. A downloaded file above 100 MB is not streamed: the [try] block
    throws the size error, and, when the file can be deleted, the [catch]
    block deletes it, gives the slot back, and answers with status 413 and
    the message that names the size; the video cache is not written. *)
Theorem oversized_file_rejected (cacheKey : string) (timestamp startTime : Z)
        (s : State) (f : string) (fileSize : Z)
        (Hfind : List.find (is_download timestamp) (readdirSync_tmp s) = Some f)
        (Hfile : files s !! ("/tmp/" ++ f) = Some fileSize)
        (Hbig : config.maxFileSizeMB * MB < fileSize)
        (Hfmt : plain_number (toFixed1_MB fileSize) = true)
        (Hunlink : unlink_fails ("/tmp/" ++ f) = false) :
  let path := "/tmp/" ++ f in
  let error := ErrorObj (too_large_message (toFixed1_MB fileSize)) in
  deliver_ cacheKey timestamp startTime s = ((Throws error, Some path), s) /\
  let '(resp, s') := catch_block unlink_fails error None (Some path) s in
  resp = RJson 413 (too_large_message (toFixed1_MB fileSize)) None
               (Some (Z.max 0 (activeDownloads s - 1), maxConcurrent)) /\
  files s' = delete path (files s) /\
  activeDownloads s' = Z.max 0 (activeDownloads s - 1) /\
  videoCache s' = videoCache s.
Proof.
  cbv zeta. split.
  - unfold deliver. rewrite Hfind, Hfile.
    destruct (config.maxFileSizeMB * MB <? fileSize) eqn:E; [|lia].
    rewrite pretty_max_size. unfold too_large_message. reflexivity.
  - unfold catch_block, catch_cleanup.
    rewrite (classify_too_large _ Hfmt).
    rewrite truthy_tmp. unfold existsSync at 1. rewrite Hfile. cbn [andb].
    unfold unlinkSync, existsSync. rewrite Hunlink, Hfile. cbn [orb negb].
    repeat split.
Qed.

Lemma tmp_video_not_cached (x y : string) :
  "/tmp/" ++ "video_" ++ x <> "/tmp/cached_" ++ y.
Proof. intros H. vm_compute in H. discriminate. Qed.

Lemma is_download_name timestamp f :
  is_download timestamp f = true ->
  (exists rest, f = "video_" ++ pretty timestamp ++ "_" ++ rest) /\
  Str.endsWith f ".part" = false.
Proof.
  unfold is_download, video_prefix. intros H. apply andb_true_iff in H.
  destruct H as [Hp Hn]. split.
  - apply startsWith_spec in Hp. destruct Hp as [r ->]. exists r.
    rewrite !append_assoc. reflexivity.
  - apply negb_true_iff in Hn. exact Hn.
Qed.

Lemma cache_video_files_other cacheKey ext outputPath ctype sanitized fileSize s p :
  p <> "/tmp/cached_" ++ cacheKey ++ ext ->
  files (cache_video copy_fails cacheKey ext outputPath ctype sanitized fileSize s) !! p
  = files s !! p.
Proof.
  intros Hne. unfold cache_video. destruct (copy_fails _); [reflexivity|].
  destruct (NodeCache.set _ _ _ _ _ _); simpl; rewrite lookup_insert_ne by congruence;
    reflexivity.
Qed.

Lemma cache_video_activeDownloads cacheKey ext outputPath ctype sanitized fileSize s :
  activeDownloads (cache_video copy_fails cacheKey ext outputPath ctype sanitized
                               fileSize s) = activeDownloads s.
Proof.
  unfold cache_video. destruct (copy_fails _); [reflexivity|].
  destruct (NodeCache.set _ _ _ _ _ _); reflexivity.
Qed.

(** What a normal end of [deliver] has done. *)
Lemma deliver_normal cacheKey timestamp startTime s resp cl op s' :
  deliver_ cacheKey timestamp startTime s = ((Normal (resp, cl), op), s') ->
  exists f fileSize,
    List.find (is_download timestamp) (readdirSync_tmp s) = Some f /\
    files s !! ("/tmp/" ++ f) = Some fileSize /\
    fileSize <= config.maxFileSizeMB * MB /\
    (exists ctype active,
        resp = RStream (miss_headers toFixed1_MB ctype (sanitizeFilename f) fileSize
                                     (now s - startTime) active)
                       ("/tmp/" ++ f)) /\
    cl = Some (createCleanupFunction ("/tmp/" ++ f)) /\
    op = Some ("/tmp/" ++ f) /\
    files s' !! ("/tmp/" ++ f) = Some fileSize /\
    activeDownloads s' = activeDownloads s.
Proof.
  unfold deliver.
  destruct (List.find _ _) as [f|] eqn:Hfind; [|discriminate].
  destruct (files s !! ("/tmp/" ++ f)) as [sz|] eqn:Hfile; [|discriminate].
  destruct (config.maxFileSizeMB * MB <? sz) eqn:Hbig; [discriminate|].
  intros H. injection H as <- <- <- <-.
  exists f, sz. split; [reflexivity|]. split; [exact Hfile|]. split; [lia|].
  split; [eexists _, _; reflexivity|]. split; [reflexivity|]. split; [reflexivity|].
  apply find_some in Hfind. destruct Hfind as [_ Hd].
  destruct (is_download_name _ _ Hd) as [[rest ->] _].
  cbn [files emit activeDownloads].
  destruct (sz <? 50 * MB); [|split; [exact Hfile | reflexivity]].
  split.
  - rewrite cache_video_files_other; [exact Hfile|]. apply tmp_video_not_cached.
  - apply cache_video_activeDownloads.
Qed.

(** X11. What is streamed after a download is a file that is there: its
    name starts with video_, the time stamp of the request and an
    underscore, and does not end in .part; it is no larger than 100 MB; the
    Content-Length sent is its size and X-Cache is MISS; and the cleanup
    closure handed on is the one for that very file, not yet run. *)
Theorem delivered_file_is_sound (cacheKey : string) (timestamp startTime : Z)
        (s s' : State) (headers : list (string * string)) (path : string)
        (cl : option Cleanup) (op : option string)
        (Hok : deliver_ cacheKey timestamp startTime s
               = ((Normal (RStream headers path, cl), op), s')) :
  exists f fileSize,
    path = "/tmp/" ++ f /\
    Str.startsWith f ("video_" ++ pretty timestamp ++ "_") = true /\
    Str.endsWith f ".part" = false /\
    files s' !! path = Some fileSize /\
    fileSize <= 100 * 1024 * 1024 /\
    assoc "Content-Length" headers = Some (pretty fileSize) /\
    assoc "X-Cache" headers = Some "MISS" /\
    cl = Some (mkCleanup path false).
Proof.
  destruct (deliver_normal _ _ _ _ _ _ _ _ Hok)
    as (f & sz & Hfind & Hfile & Hsz & (ctype & active & Hresp) & Hcl & _ & Hfile' & _).
  injection Hresp as -> ->.
  apply find_some in Hfind. destruct Hfind as [_ Hd].
  exists f, sz. split; [reflexivity|].
  unfold is_download, video_prefix in Hd. apply andb_true_iff in Hd.
  destruct Hd as [Hp Hn]. apply negb_true_iff in Hn.
  split; [exact Hp|]. split; [exact Hn|]. split; [exact Hfile'|].
  split; [unfold config.maxFileSizeMB, MB in Hsz; lia|].
  split; [reflexivity|]. split; [reflexivity|]. exact Hcl.
Qed.

Lemma run_cleanup_fresh path s :
  Str.truthy path = true ->
  let s' := snd (run_cleanup unlink_fails (createCleanupFunction path) s) in
  activeDownloads s' = (if 0 <? activeDownloads s then activeDownloads s - 1
                        else activeDownloads s) /\
  videoCache s' = videoCache s /\
  (forall p, p <> path -> files s' !! p = files s !! p) /\
  (unlink_fails path = false -> files s' !! path = None).
Proof.
  intros Ht. unfold run_cleanup, createCleanupFunction. cbn [cleaned cl_outputPath snd].
  rewrite Ht. cbn [andb]. unfold unlinkSync.
  destruct (existsSync path s) eqn:Hex.
  - cbn [negb]. rewrite orb_false_r.
    destruct (unlink_fails path) eqn:Hu; cbv zeta.
    + destruct (0 <? activeDownloads s); simpl; repeat split; auto; discriminate.
    + cbn [activeDownloads emit set_files].
      destruct (0 <? activeDownloads s); simpl; repeat split; auto;
        try (intros p Hp; rewrite lookup_delete_ne by congruence; reflexivity);
        try (intros _; apply lookup_delete_eq).
  - cbv zeta. assert (Hnone : files s !! path = None).
    { unfold existsSync in Hex. destruct (files s !! path); [discriminate|reflexivity]. }
    destruct (0 <? activeDownloads s); simpl; repeat split; auto.
Qed.

(** X12. A download that ends well, started with a slot free, holds
    exactly one slot while the file is streamed, and the cleanup closure
    gives exactly that slot back, also when the file cannot be deleted;
    when it can, the file is gone afterwards. The cleanup touches neither
    the video cache nor any other file. *)
Theorem successful_download_slot (url cacheKey : string) (startTime : Z)
        (s s' : State) (resp : Response) (cl : option Cleanup) (op : option string)
        (Hpos : 0 <= activeDownloads s)
        (Hfree : activeDownloads s < maxConcurrent)
        (Hok : download_fresh_ url cacheKey startTime s = ((Normal (resp, cl), op), s')) :
  exists path,
    cl = Some (createCleanupFunction path) /\
    existsSync path s' = true /\
    activeDownloads s' = activeDownloads s + 1 /\
    let s'' := snd (run_cleanup unlink_fails (createCleanupFunction path) s') in
    activeDownloads s'' = activeDownloads s /\
    videoCache s'' = videoCache s' /\
    (forall p, p <> path -> files s'' !! p = files s' !! p) /\
    (unlink_fails path = false -> existsSync path s'' = false).
Proof.
  unfold download_fresh in Hok. rewrite (waitForSlot_free others s Hfree) in Hok.
  set (s2 := set_activeDownloads (activeDownloads s + 1) s) in *.
  pose proof (retry_download_frame youtubedl url
                ("/tmp/" ++ video_prefix (now s2) ++ "%(title)s.%(ext)s")
                config.maxRetries config.retryDelay config.downloadTimeoutMs
                (Z.to_nat config.maxRetries) 1 Undefined s2) as (_ & _ & Ha).
  cbv zeta in Ha. unfold retryOperation in Hok.
  destruct (retry_loop _ _ _ _ _ _ _ s2) as [[[]|e] s3]; [|discriminate].
  cbn [snd] in Ha.
  destruct (deliver_normal _ _ _ _ _ _ _ _ Hok)
    as (f & sz & _ & _ & _ & _ & Hcl & _ & Hfile' & Hact).
  exists ("/tmp/" ++ f). split; [exact Hcl|].
  split; [unfold existsSync; rewrite Hfile'; reflexivity|].
  assert (Ha' : activeDownloads s' = activeDownloads s + 1).
  { rewrite Hact, Ha. reflexivity. }
  split; [exact Ha'|].
  destruct (run_cleanup_fresh ("/tmp/" ++ f) s' (truthy_tmp f)) as (H1 & H2 & H3 & H4).
  cbv zeta. split.
  - rewrite H1, Ha'. destruct (0 <? activeDownloads s + 1) eqn:E; lia.
  - split; [exact H2|]. split; [exact H3|].
    intros Hu. unfold existsSync. rewrite (H4 Hu). reflexivity.
Qed.

(** X13. A download under 50 MB that is delivered while the cache has
    room, and whose copy succeeds, is found by the next lookup of the same
    url: after the cleanup closure has removed the temporary file, and up
    to two hours later, the [try] block serves the cached copy, with the
    size, file name and content type of the download, and goes no
    further. *)
Theorem cached_download_is_hit (url : string) (timestamp startTime startTime2 t : Z)
        (s : State) (f : string) (fileSize : Z)
        (Hfind : List.find (is_download timestamp) (readdirSync_tmp s) = Some f)
        (Hfile : files s !! ("/tmp/" ++ f) = Some fileSize)
        (Hsmall : fileSize < 50 * MB)
        (Hcopy : copy_fails ("/tmp/cached_" ++ getCacheKey sha256_hex url
                             ++ Str.toLowerCase (extname f)) = false)
        (Hroom : Z.of_nat (base.size (videoCache s)) < config.cache_maxSize)
        (Hlater : t <= now s + config.cache_ttl * 1000) :
  let key := getCacheKey sha256_hex url in
  let ext := Str.toLowerCase (extname f) in
  let c := mkCachedVideo ("/tmp/cached_" ++ key ++ ext) (sanitizeFilename f)
                         (content_type_of ext) fileSize in
  let s1 := snd (deliver_ key timestamp startTime s) in
  let s2 := set_now t (snd (run_cleanup unlink_fails
                                        (createCleanupFunction ("/tmp/" ++ f)) s1)) in
  try_block_ url startTime2 s2 = serve_cached c s2 /\
  assoc "Content-Length" (hit_headers c) = Some (pretty fileSize) /\
  existsSync (filePath c) s2 = true.
Proof.
  cbv zeta.
  set (key := getCacheKey sha256_hex url).
  set (ext := Str.toLowerCase (extname f)).
  set (cpath := "/tmp/cached_" ++ key ++ ext).
  change (copy_fails cpath = false) in Hcopy.
  set (c := mkCachedVideo cpath (sanitizeFilename f) (content_type_of ext) fileSize).
  apply find_some in Hfind as Hd. destruct Hd as [_ Hd].
  destruct (is_download_name _ _ Hd) as [[rest Hname] _].
  assert (Hne : "/tmp/" ++ f <> cpath).
  { rewrite Hname. apply tmp_video_not_cached. }
  (* the state in which deliver ends *)
  assert (Hs1 : videoCache (snd (deliver_ key timestamp startTime s)) !! key
                = Some (c, now s + config.cache_ttl * 1000) /\
                files (snd (deliver_ key timestamp startTime s)) !! cpath
                = Some fileSize).
  { unfold deliver. rewrite Hfind, Hfile.
    destruct (config.maxFileSizeMB * MB <? fileSize) eqn:E;
      [unfold config.maxFileSizeMB, MB in *; lia|].
    destruct (fileSize <? 50 * MB) eqn:E2; [|lia].
    cbn [snd]. unfold cache_video. fold ext. fold cpath. rewrite Hcopy.
    unfold NodeCache.set. cbn [videoCache emit set_files].
    destruct (config.cache_maxSize <=? Z.of_nat (base.size (videoCache s))) eqn:E3;
      [lia|].
    cbn [videoCache files emit set_videoCache set_files now].
    rewrite !lookup_insert_eq. split; reflexivity. }
  destruct Hs1 as [Hentry Hcopied].
  destruct (run_cleanup_fresh ("/tmp/" ++ f) (snd (deliver_ key timestamp startTime s))
                              (truthy_tmp f)) as (_ & Hvc & Hother & _).
  cbv zeta in Hvc, Hother.
  set (s2 := set_now t _).
  assert (Hc : cached sha256_hex url c s2).
  { exists (now s + config.cache_ttl * 1000). split.
    - subst s2. cbn [videoCache set_now]. rewrite Hvc. exact Hentry.
    - apply not_expired. subst s2. cbn [now set_now]. exact Hlater. }
  assert (Hex : existsSync (filePath c) s2 = true).
  { unfold existsSync. subst s2. cbn [files set_now filePath c].
    rewrite Hother by congruence. rewrite Hcopied. reflexivity. }
  split; [apply (try_block_hit sha256_hex extname sanitizeFilename toFixed1_MB
                               youtubedl copy_fails others url startTime2 c s2 Hc Hex)|].
  split; [reflexivity | exact Hex].
Qed.

End DeliveryFacts.

Lemma oversized_file_rejected_witness :
  let s := DemoDeliver.downloaded (200 * MB) in
  let path := "/tmp/" ++ "video_0_clip.mp4" in
  let error := ErrorObj (too_large_message (DemoDeliver.one_decimal (200 * MB))) in
  deliver Demo.ext_mp4 Demo.same DemoDeliver.one_decimal Demo.never
          "key" 0 0 s = ((Throws error, Some path), s) /\
  let '(resp, s') := catch_block Demo.never error None (Some path) s in
  resp = RJson 413 (too_large_message (DemoDeliver.one_decimal (200 * MB))) None
               (Some (Z.max 0 (activeDownloads s - 1), maxConcurrent)) /\
  files s' = delete path (files s) /\
  activeDownloads s' = Z.max 0 (activeDownloads s - 1) /\
  videoCache s' = videoCache s.
Proof.
  apply (oversized_file_rejected Demo.ext_mp4 Demo.same DemoDeliver.one_decimal
           Demo.never Demo.never "key" 0 0 (DemoDeliver.downloaded (200 * MB))
           "video_0_clip.mp4" (200 * MB)).
  - vm_compute. reflexivity.
  - vm_compute. reflexivity.
  - vm_compute. reflexivity.
  - reflexivity.
  - reflexivity.
Defined.

Lemma delivered_file_is_sound_witness :
  exists headers path cl op s',
    deliver Demo.ext_mp4 Demo.same DemoDeliver.one_decimal Demo.never
            "key" 0 0 (DemoDeliver.downloaded 1000)
    = ((Normal (RStream headers path, cl), op), s') /\
    exists f fileSize,
      path = "/tmp/" ++ f /\
      Str.startsWith f ("video_" ++ pretty 0 ++ "_") = true /\
      Str.endsWith f ".part" = false /\
      files s' !! path = Some fileSize /\
      fileSize <= 100 * 1024 * 1024 /\
      assoc "Content-Length" headers = Some (pretty fileSize) /\
      assoc "X-Cache" headers = Some "MISS" /\
      cl = Some (mkCleanup path false).
Proof.
  assert (H : exists headers path cl op s',
             deliver Demo.ext_mp4 Demo.same DemoDeliver.one_decimal Demo.never
                     "key" 0 0 (DemoDeliver.downloaded 1000)
             = ((Normal (RStream headers path, cl), op), s')).
  { do 5 eexists. vm_compute. reflexivity. }
  destruct H as (headers & path & cl & op & s' & H).
  exists headers, path, cl, op, s'. split; [exact H|].
  exact (delivered_file_is_sound Demo.ext_mp4 Demo.same DemoDeliver.one_decimal
           Demo.never "key" 0 0 (DemoDeliver.downloaded 1000) s' headers path cl op H).
Defined.

Lemma successful_download_slot_witness :
  0 <= activeDownloads Demo.empty_state /\
  activeDownloads Demo.empty_state < maxConcurrent /\
  exists resp cl op s',
    download_fresh Demo.ext_mp4 Demo.same DemoDeliver.one_decimal
                   (DemoDeliver.tool 1000) Demo.never Demo.nobody
                   Demo.youtube_url "key" 0 Demo.empty_state
    = ((Normal (resp, cl), op), s') /\
    exists path,
      cl = Some (createCleanupFunction path) /\
      existsSync path s' = true /\
      activeDownloads s' = activeDownloads Demo.empty_state + 1 /\
      let s'' := snd (run_cleanup Demo.never (createCleanupFunction path) s') in
      activeDownloads s'' = activeDownloads Demo.empty_state /\
      videoCache s'' = videoCache s' /\
      (forall p, p <> path -> files s'' !! p = files s' !! p) /\
      (Demo.never path = false -> existsSync path s'' = false).
Proof.
  split; [vm_compute; discriminate|]. split; [vm_compute; reflexivity|].
  assert (H : exists resp cl op s',
             download_fresh Demo.ext_mp4 Demo.same DemoDeliver.one_decimal
                            (DemoDeliver.tool 1000) Demo.never Demo.nobody
                            Demo.youtube_url "key" 0 Demo.empty_state
             = ((Normal (resp, cl), op), s')).
  { do 4 eexists. vm_compute. reflexivity. }
  destruct H as (resp & cl & op & s' & H).
  exists resp, cl, op, s'. split; [exact H|].
  apply (successful_download_slot Demo.ext_mp4 Demo.same DemoDeliver.one_decimal
           (DemoDeliver.tool 1000) Demo.never Demo.never Demo.nobody
           Demo.youtube_url "key" 0 Demo.empty_state s' resp cl op).
  - vm_compute. discriminate.
  - vm_compute. reflexivity.
  - exact H.
Defined.

Lemma cached_download_is_hit_witness :
  let s := DemoDeliver.downloaded 1000 in
  let key := getCacheKey Demo.same Demo.youtube_url in
  let ext := Str.toLowerCase (Demo.ext_mp4 "video_0_clip.mp4") in
  let c := mkCachedVideo ("/tmp/cached_" ++ key ++ ext) (Demo.same "video_0_clip.mp4")
                         (content_type_of ext) 1000 in
  let s1 := snd (deliver Demo.ext_mp4 Demo.same DemoDeliver.one_decimal Demo.never
                         key 0 0 s) in
  let s2 := set_now 5000 (snd (run_cleanup Demo.never
                                 (createCleanupFunction ("/tmp/" ++ "video_0_clip.mp4"))
                                 s1)) in
  try_block Demo.same Demo.ext_mp4 Demo.same DemoDeliver.one_decimal
            DemoCache.unavailable Demo.never Demo.nobody Demo.youtube_url 5000 s2
  = serve_cached c s2 /\
  assoc "Content-Length" (hit_headers c) = Some (pretty 1000) /\
  existsSync (filePath c) s2 = true.
Proof.
  apply (cached_download_is_hit Demo.same Demo.ext_mp4 Demo.same DemoDeliver.one_decimal
           DemoCache.unavailable Demo.never Demo.never Demo.nobody
           Demo.youtube_url 0 0 5000 5000 (DemoDeliver.downloaded 1000)
           "video_0_clip.mp4" 1000).
  - vm_compute. reflexivity.
  - vm_compute. reflexivity.
  - vm_compute. reflexivity.
  - reflexivity.
  - vm_compute. reflexivity.
  - vm_compute. discriminate.
Defined.

(** ** The video cache stays within its bound *)

Lemma get_size {V} tnow key (m : gmap string (V * Z)) :
  (base.size (snd (NodeCache.get tnow key m)) <= base.size m)%nat.
Proof.
  unfold NodeCache.get. destruct (m !! key) as [[v t]|] eqn:E; [|simpl; lia].
  destruct (NodeCache.expired tnow t); simpl; [|lia].
  rewrite map_size_delete, E. lia.
Qed.

Lemma set_size {V} tnow ttl K key (v : V) (m m' : gmap string (V * Z)) :
  NodeCache.set tnow ttl (Some K) key v m = Some m' ->
  Z.of_nat (base.size m') <= K.
Proof.
  unfold NodeCache.set. destruct (K <=? Z.of_nat (base.size m)) eqn:E; [discriminate|].
  intros [= <-]. rewrite map_size_insert. destruct (m !! key); simpl; lia.
Qed.

Section CapacityFacts.

Variable url_hostname : string -> option string.
Variable sha256_hex : string -> string.
Variable extname : string -> string.
Variable sanitizeFilename : string -> string.
Variable toFixed1_MB : Z -> string.
Variable youtubedl : nat -> string -> string -> string -> ToolRun.
Variable unlink_fails : string -> bool.
Variable copy_fails : string -> bool.
Variable others : Z -> Z -> Z.

Local Abbreviation handler_ :=
  (handler url_hostname sha256_hex extname sanitizeFilename toFixed1_MB
           youtubedl unlink_fails copy_fails others).
Local Abbreviation try_block_ :=
  (try_block sha256_hex extname sanitizeFilename toFixed1_MB
             youtubedl copy_fails others).
Local Abbreviation download_fresh_ :=
  (download_fresh extname sanitizeFilename toFixed1_MB youtubedl copy_fails others).
Local Abbreviation deliver_ :=
  (deliver extname sanitizeFilename toFixed1_MB copy_fails).

Lemma cache_video_bounded cacheKey ext outputPath ctype sanitized fileSize s :
  cache_bounded s ->
  cache_bounded (cache_video copy_fails cacheKey ext outputPath ctype sanitized fileSize s).
Proof.
  intros H. unfold cache_video. destruct (copy_fails _); [exact H|].
  destruct (NodeCache.set _ _ _ _ _ _) as [m'|] eqn:E; [|exact H].
  unfold cache_bounded. cbn [videoCache set_videoCache].
  eapply set_size, E.
Qed.

Lemma deliver_bounded cacheKey timestamp startTime s :
  cache_bounded s -> cache_bounded (snd (deliver_ cacheKey timestamp startTime s)).
Proof.
  intros H. unfold deliver.
  destruct (List.find _ _) as [f|]; [|exact H].
  destruct (files s !! _) as [sz|]; [|exact H].
  destruct (_ <? sz); [exact H|]. cbn [snd].
  destruct (sz <? 50 * MB); [|exact H].
  change (cache_bounded (cache_video copy_fails cacheKey (Str.toLowerCase (extname f))
                           ("/tmp/" ++ f)
                           (match assoc (Str.toLowerCase (extname f)) contentTypes with
                            | Some t => t | None => "application/octet-stream" end)
                           (sanitizeFilename f) sz s)).
  apply cache_video_bounded, H.
Qed.

Lemma download_fresh_bounded_cache url cacheKey startTime s :
  cache_bounded s -> cache_bounded (snd (download_fresh_ url cacheKey startTime s)).
Proof.
  intros H. unfold download_fresh.
  pose proof (waitForSlot_kept others s) as Hw.
  assert (Hw' : videoCache (snd (waitForSlot others s)) = videoCache s).
  { change (k_videoCache (kept (snd (waitForSlot others s))) = k_videoCache (kept s)).
    rewrite Hw. reflexivity. }
  destruct (waitForSlot others s) as [[[]|e] s1]; cbn [snd] in Hw' |- *;
    [|unfold cache_bounded; rewrite Hw'; exact H].
  set (s2 := set_activeDownloads (activeDownloads s1 + 1) s1).
  unfold retryOperation.
  pose proof (retry_download_frame youtubedl url
                ("/tmp/" ++ video_prefix (now s2) ++ "%(title)s.%(ext)s")
                config.maxRetries config.retryDelay config.downloadTimeoutMs
                (Z.to_nat config.maxRetries) 1 Undefined s2) as (Hv & _).
  cbv zeta in Hv.
  destruct (retry_loop _ _ _ _ _ _ _ s2) as [[[]|e] s3]; cbn [snd] in Hv |- *.
  - apply deliver_bounded. unfold cache_bounded. rewrite Hv. cbn. rewrite Hw'. exact H.
  - unfold cache_bounded. rewrite Hv. cbn. rewrite Hw'. exact H.
Qed.

(** X14. The video cache never grows beyond [maxKeys] (100) entries:
    a state within the bound is left within the bound by every request. *)
Theorem video_cache_stays_bounded (req : Request) (s : State)
        (Hb : cache_bounded s) :
  cache_bounded (snd (handler_ req s)).
Proof.
  unfold handler.
  destruct (negb (String.eqb (method req) "POST")); [exact Hb|].
  destruct (body_url req) as [url|]; [|exact Hb].
  destruct (negb (Str.truthy url)); [exact Hb|].
  destruct (url_hostname url); [|exact Hb].
  destruct (negb (isAllowedDomain url_hostname url)); [exact Hb|].
  destruct (checkRateLimit_frame (ip_string (getClientIP req)) s) as [m Hm].
  destruct (checkRateLimit (ip_string (getClientIP req)) s) as [r s1].
  cbn [snd] in Hm. subst s1.
  destruct (negb (allowed r)); [exact Hb|].
  set (s1 := set_rateLimitCache m s).
  assert (Ht : cache_bounded (snd (try_block_ url (now s1) s1))).
  { unfold try_block.
    pose proof (get_size (now s1) (getCacheKey sha256_hex url) (videoCache s1)) as Hg.
    destruct (NodeCache.get _ _ _) as [cv vc]. cbn [snd] in Hg.
    assert (Hb1 : cache_bounded (set_videoCache vc s1)).
    { unfold cache_bounded in *. cbn [videoCache set_videoCache].
      change (videoCache s1) with (videoCache s) in Hg. lia. }
    destruct cv as [c|];
      [destruct (existsSync _ _); [exact Hb1|]|];
      apply download_fresh_bounded_cache, Hb1. }
  destruct (try_block_ url (now s1) s1) as [[[r'|e] op] s2]; cbn [snd] in Ht |- *;
    [exact Ht|].
  pose proof (catch_block_kept unlink_fails e op s2) as Hc.
  destruct (catch_block unlink_fails e None op s2) as [resp s3]. cbn [snd] in Hc |- *.
  unfold cache_bounded.
  change (videoCache s3) with (k_videoCache (kept s3)). rewrite Hc. exact Ht.
Qed.

End CapacityFacts.

Lemma video_cache_stays_bounded_witness :
  cache_bounded DemoCache.hit_state /\
  cache_bounded (snd (Demo.handler_with (DemoDeliver.tool 1000)
                        (Demo.post "https://youtu.be/B" "1.2.3.4")
                        DemoCache.hit_state)).
Proof.
  assert (H : cache_bounded DemoCache.hit_state) by (vm_compute; discriminate).
  split; [exact H|].
  apply (video_cache_stays_bounded Demo.hostname Demo.same Demo.ext_mp4 Demo.same
           Demo.no_digits (DemoDeliver.tool 1000) Demo.never Demo.never Demo.nobody
           (Demo.post "https://youtu.be/B" "1.2.3.4") DemoCache.hit_state H).
Defined.

(** ** sanitizeFilename *)

Module SanitizeFacts.

Import Sanitize.

Example sanitize_sample :
  sanitizeFilename (units "  video_17_My: clip?   (final)/cut.MP4 ")
  = units "video_17_My clip (final)cut.MP4".
Proof. vm_compute. reflexivity. Qed.

Lemma is_space_32 : is_space 32 = true.
Proof. reflexivity. Qed.

(** What is kept and is no white space is plain. *)
Lemma kept_not_space_plain c :
  is_kept c = true -> is_space c = false -> is_plain c = true.
Proof.
  intros Hk Hs. destruct (is_plain c) eqn:Hp; [reflexivity|]. exfalso.
  unfold is_kept in Hk. rewrite Hs in Hk. unfold is_plain in Hp.
  destruct (is_word c) eqn:Ew; [discriminate|]. simpl in Hk, Hp.
  unfold is_word in Ew. units_arith; lia.
Qed.

Lemma plain_space_is_32 c : is_plain c = true -> is_space c = true -> c = 32.
Proof.
  unfold is_plain, is_word, is_space. intros Hp Hs. units_arith; lia.
Qed.

Lemma collapse_from_plain b l :
  Forall (fun c => is_kept c = true) l ->
  Forall (fun c => is_plain c = true) (collapse_from b l).
Proof.
  revert b. induction l as [|c l IH]; intros b H; [constructor|].
  apply Forall_cons_1 in H. destruct H as [Hc Hl]. cbn [collapse_from].
  destruct (is_space c) eqn:Es.
  - destruct b; [apply IH, Hl|]. constructor; [reflexivity | apply IH, Hl].
  - constructor; [apply kept_not_space_plain; assumption | apply IH, Hl].
Qed.

(** After the collapse: no space follows a space, and the text starts
    with no space when it continues a run. *)
Lemma collapse_from_spaced b l :
  Forall (fun c => is_kept c = true) l ->
  single_spaced (collapse_from b l) = true /\
  (b = true -> forall d r, collapse_from b l = d :: r -> d <> 32).
Proof.
  revert b. induction l as [|c l IH]; intros b H; [split; [reflexivity | discriminate]|].
  apply Forall_cons_1 in H. destruct H as [Hc Hl]. cbn [collapse_from].
  destruct (is_space c) eqn:Es.
  - destruct b.
    + apply IH, Hl.
    + destruct (IH true Hl) as [IH1 IH2]. split; [|discriminate].
      cbn [single_spaced]. destruct (collapse_from true l) as [|d r] eqn:E;
        [reflexivity|].
      rewrite IH1, andb_true_r. apply negb_true_iff, andb_false_iff. right.
      apply Z.eqb_neq. apply (IH2 eq_refl d r eq_refl).
  - destruct (IH false Hl) as [IH1 _]. split.
    + cbn [single_spaced]. destruct (collapse_from false l) as [|d r] eqn:E;
        [reflexivity|].
      rewrite IH1, andb_true_r. apply negb_true_iff, andb_false_iff. left.
      apply Z.eqb_neq. intros ->. rewrite is_space_32 in Es. discriminate.
    + intros _ d r [= <- _]. intros ->. rewrite is_space_32 in Es. discriminate.
Qed.

Lemma single_spaced_tail c l : single_spaced (c :: l) = true -> single_spaced l = true.
Proof.
  cbn [single_spaced]. destruct l as [|d r]; [reflexivity|].
  intros H. apply andb_true_iff in H. apply H.
Qed.

Lemma trim_start_suffix l :
  Forall (fun c => is_plain c = true) l -> single_spaced l = true ->
  Forall (fun c => is_plain c = true) (trim_start l) /\
  single_spaced (trim_start l) = true /\
  (forall d r, trim_start l = d :: r -> is_space d = false).
Proof.
  induction l as [|c l IH]; intros Hp Hs; [repeat split; [constructor | discriminate]|].
  cbn [trim_start]. destruct (is_space c) eqn:Es.
  - apply IH; [eapply Forall_cons_1, Hp | eapply single_spaced_tail, Hs].
  - split; [exact Hp|]. split; [exact Hs|]. intros d r [= <- _]. exact Es.
Qed.

Lemma trim_end_nil_iff l : trim_end l = [] -> Forall (fun c => is_space c = true) l.
Proof.
  induction l as [|c l IH]; [constructor|]. cbn [trim_end].
  destruct (trim_end l) as [|d r] eqn:E; [|discriminate].
  destruct (is_space c) eqn:Es; [|discriminate].
  intros _. constructor; [exact Es | apply IH; reflexivity].
Qed.

Lemma trim_end_prefix l :
  Forall (fun c => is_plain c = true) l -> single_spaced l = true ->
  Forall (fun c => is_plain c = true) (trim_end l) /\
  single_spaced (trim_end l) = true /\
  (forall d r, l = d :: r -> is_space d = false ->
               exists r', trim_end l = d :: r') /\
  (forall d, last (trim_end l) = Some d -> is_space d = false).
Proof.
  induction l as [|c l IH]; intros Hp Hs.
  - repeat split; [constructor | discriminate | discriminate].
  - apply Forall_cons_1 in Hp. destruct Hp as [Hc Hl].
    pose proof (single_spaced_tail _ _ Hs) as Hs'.
    destruct (IH Hl Hs') as (I1 & I2 & I3 & I4).
    cbn [trim_end]. destruct (trim_end l) as [|d r] eqn:E.
    + destruct (is_space c) eqn:Es.
      * repeat split; [constructor | | discriminate].
        intros d0 r0 [= <- _] Hd. congruence.
      * repeat split.
        -- constructor; [exact Hc | constructor].
        -- intros d0 r0 [= <- _] _. eauto.
        -- intros d0 [= <-]. exact Es.
    + split; [constructor; assumption|]. split.
      * change (negb ((c =? 32) && (d =? 32)) && single_spaced (d :: r) = true).
        rewrite I2, andb_true_r.
        (* the unit after [c] in [l] is [d] *)
        destruct l as [|e l']; [discriminate|].
        change (negb ((c =? 32) && (e =? 32)) && single_spaced (e :: l') = true) in Hs.
        apply andb_true_iff in Hs. destruct Hs as [Hce _].
        assert (He : d = e \/ is_space e = true).
        { destruct (is_space e) eqn:Ee; [right; reflexivity|].
          destruct (I3 e l' eq_refl Ee) as [r' Hr']. left. congruence. }
        destruct He as [->|He]; [exact Hce|].
        apply Forall_cons_1 in Hl. destruct Hl as [Hpe _].
        pose proof (plain_space_is_32 e Hpe He) as ->.
        apply negb_true_iff, andb_false_iff.
        apply negb_true_iff, andb_false_iff in Hce.
        destruct Hce as [Hce|Hce]; [left; exact Hce | discriminate].
      * split; [intros d0 r0 [= <- _] _; eauto|].
        intros d0 Hlast. apply I4. rewrite last_cons in Hlast.
        destruct (last (d :: r)) eqn:El; [exact Hlast|].
        apply last_None in El. discriminate.
Qed.

Lemma firstn_single_spaced n l :
  single_spaced l = true -> single_spaced (firstn n l) = true.
Proof.
  revert l. induction n as [|n IH]; intros l H; [reflexivity|].
  destruct l as [|c l]; [reflexivity|]. cbn [firstn].
  pose proof (IH l (single_spaced_tail _ _ H)) as IH'.
  destruct l as [|d l']; [destruct n; reflexivity|].
  change (negb ((c =? 32) && (d =? 32)) && single_spaced (d :: l') = true) in H.
  apply andb_true_iff in H. destruct H as [Hcd _].
  destruct n as [|n']; [reflexivity|].
  change (negb ((c =? 32) && (d =? 32)) && single_spaced (firstn (S n') (d :: l')) = true).
  rewrite IH', Hcd. reflexivity.
Qed.

Lemma last_firstn_all {A} n (l : list A) :
  (length l <= n)%nat -> firstn n l = l.
Proof. intros H. apply firstn_all2. exact H. Qed.

Lemma plain_range c :
  is_plain c = true ->
  32 <= c < 127 /\ c <> 34 /\ c <> 47 /\ c <> 92.
Proof. unfold is_plain, is_word. intros H. units_arith; lia. Qed.

Lemma plain_kept c : is_plain c = true -> is_kept c = true.
Proof.
  intros Hp. destruct (is_kept c) eqn:Hk; [reflexivity|]. exfalso.
  unfold is_kept in Hk. unfold is_plain in Hp.
  destruct (is_word c) eqn:Ew; [discriminate|]. simpl in Hk, Hp.
  unfold is_space in Hk. units_arith; lia.
Qed.

Lemma strip_clean l : Forall (fun c => is_plain c = true) l -> strip l = l.
Proof.
  induction 1 as [|c l Hc Hl IH]; [reflexivity|].
  unfold strip in *. cbn [List.filter]. rewrite (plain_kept c Hc), IH. reflexivity.
Qed.

Lemma collapse_from_clean b l :
  Forall (fun c => is_plain c = true) l -> single_spaced l = true ->
  (b = true -> forall d r, l = d :: r -> d <> 32) ->
  collapse_from b l = l.
Proof.
  revert b. induction l as [|c l IH]; intros b Hp Hs Hb; [reflexivity|].
  apply Forall_cons_1 in Hp. destruct Hp as [Hc Hl].
  pose proof (single_spaced_tail _ _ Hs) as Hs'. cbn [collapse_from].
  destruct (is_space c) eqn:Es.
  - pose proof (plain_space_is_32 c Hc Es) as ->.
    destruct b; [exfalso; exact (Hb eq_refl 32 l eq_refl eq_refl)|].
    rewrite IH; [reflexivity | exact Hl | exact Hs' |].
    intros _ d r ->.
    change (negb ((32 =? 32) && (d =? 32)) && single_spaced (d :: r) = true) in Hs.
    apply andb_true_iff in Hs. destruct Hs as [Hd _]. intros ->. discriminate.
  - rewrite IH; [reflexivity | exact Hl | exact Hs' | discriminate].
Qed.

Lemma trim_start_clean l :
  (forall d r, l = d :: r -> is_space d = false) -> trim_start l = l.
Proof.
  destruct l as [|c l]; [reflexivity|]. intros H. cbn [trim_start].
  rewrite (H c l eq_refl). reflexivity.
Qed.

Lemma trim_end_clean l :
  (forall d, last l = Some d -> is_space d = false) -> trim_end l = l.
Proof.
  induction l as [|c l IH]; [reflexivity|]. intros H. cbn [trim_end].
  destruct l as [|d r].
  - cbn [trim_end]. rewrite (H c eq_refl). reflexivity.
  - rewrite IH; [reflexivity|]. intros e He. apply H.
    rewrite last_cons, He. reflexivity.
Qed.

(** X15. Whatever the name of the downloaded file, the name that
    [sanitizeFilename] returns and the handler sends in the
    Content-Disposition header has at most 180 code units, each of them a
    letter, a digit, an underscore, a space, a hyphen, a full stop or a
    parenthesis (so it is printable ASCII and holds no quote, slash,
    backslash or line break); no space follows a space, the name starts
    with no space, and it ends with one only when it was cut at 180. *)
Theorem sanitizeFilename_safe (filename : list Z) :
  let name := sanitizeFilename filename in
  (length name <= 180)%nat /\
  Forall (fun c => is_plain c = true) name /\
  (forall c, In c name -> 32 <= c < 127 /\ c <> 34 /\ c <> 47 /\ c <> 92) /\
  single_spaced name = true /\
  (forall d r, name = d :: r -> d <> 32) /\
  ((length name < 180)%nat -> forall d, last name = Some d -> d <> 32).
Proof.
  intros name.
  assert (Hk : Forall (fun c => is_kept c = true) (strip filename)).
  { unfold strip. apply List.Forall_forall. intros c Hc.
    apply List.filter_In in Hc. apply Hc. }
  pose proof (collapse_from_plain false _ Hk) as Hp.
  destruct (collapse_from_spaced false _ Hk) as [Hs _].
  fold (collapse (strip filename)) in Hp, Hs.
  destruct (trim_start_suffix _ Hp Hs) as (Hp1 & Hs1 & Hh1).
  destruct (trim_end_prefix _ Hp1 Hs1) as (Hp2 & Hs2 & Hh2 & Hl2).
  fold (trim (collapse (strip filename))) in Hp2, Hs2, Hl2.
  assert (Hhead : forall d r, trim (collapse (strip filename)) = d :: r -> d <> 32).
  { intros d r E. unfold trim in E.
    destruct (trim_start (collapse (strip filename))) as [|e t] eqn:Et;
      [discriminate|].
    pose proof (Hh1 e t eq_refl) as He.
    destruct (Hh2 e t eq_refl He) as [r' Hr']. rewrite Hr' in E.
    injection E as <- _. intros ->. rewrite is_space_32 in He. discriminate. }
  assert (Hplain : Forall (fun c => is_plain c = true) name).
  { unfold name, sanitizeFilename, substring_0_180.
    apply Forall_take. exact Hp2. }
  split; [unfold name, sanitizeFilename, substring_0_180;
          rewrite List.length_firstn; lia|].
  split; [exact Hplain|]. split.
  { intros c Hc. apply plain_range. revert c Hc. apply List.Forall_forall.
    exact Hplain. }
  split; [apply firstn_single_spaced, Hs2|]. split.
  - intros d r E. unfold name, sanitizeFilename, substring_0_180 in E.
    destruct (trim (collapse (strip filename))) as [|e t] eqn:Et; [discriminate|].
    cbn [firstn] in E. injection E as <- _. apply (Hhead e t eq_refl).
  - intros Hlen d Hd. unfold name, sanitizeFilename, substring_0_180 in *.
    assert (Hshort : (length (trim (collapse (strip filename))) <= 180)%nat).
    { rewrite List.length_firstn in Hlen. lia. }
    rewrite (last_firstn_all _ _ Hshort) in Hd.
    pose proof (Hl2 d Hd) as Hsp. intros ->. rewrite is_space_32 in Hsp.
    discriminate.
Qed.

(** X16. A name that is clean already is returned as it is: at most 180
    code units, each of them plain, no space after a space, none at the
    start and none at the end.  So a second pass of [sanitizeFilename]
    changes nothing when the first one did not cut the name. *)
Theorem sanitizeFilename_clean (name : list Z)
    (Hlen : (length name <= 180)%nat)
    (Hplain : Forall (fun c => is_plain c = true) name)
    (Hspaced : single_spaced name = true)
    (Hhead : forall d r, name = d :: r -> d <> 32)
    (Hlast : forall d, last name = Some d -> d <> 32) :
  sanitizeFilename name = name.
Proof.
  unfold sanitizeFilename, substring_0_180, trim, collapse.
  rewrite (strip_clean _ Hplain).
  rewrite (collapse_from_clean false _ Hplain Hspaced) by discriminate.
  assert (Hns : forall d, In d name -> d <> 32 -> is_space d = false).
  { intros d Hd Hne. destruct (is_space d) eqn:Es; [|reflexivity].
    exfalso. apply Hne. apply plain_space_is_32; [|exact Es].
    apply (proj1 (List.Forall_forall _ _) Hplain d Hd). }
  rewrite trim_start_clean.
  2:{ intros d r ->. apply Hns; [left; reflexivity | apply (Hhead d r eq_refl)]. }
  rewrite trim_end_clean.
  2:{ intros d Hd. apply Hns; [|apply Hlast, Hd].
      apply last_Some in Hd. destruct Hd as [l' ->].
      apply List.in_or_app. right. left. reflexivity. }
  apply firstn_all2. exact Hlen.
Qed.

Lemma sanitizeFilename_clean_witness :
  sanitizeFilename (units "video_17_My clip (final).mp4")
  = units "video_17_My clip (final).mp4".
Proof.
  apply sanitizeFilename_clean.
  - simpl. lia.
  - repeat constructor.
  - vm_compute. reflexivity.
  - intros d r E. vm_compute in E. injection E as <- _. lia.
  - intros d E. vm_compute in E. injection E as <-. lia.
Defined.

End SanitizeFacts.

(** ** Requests that get no download *)

Section RefusalFacts.

Variable extname : string -> string.
Variable sanitizeFilename : string -> string.
Variable toFixed1_MB : Z -> string.
Variable youtubedl : nat -> string -> string -> string -> ToolRun.
Variable unlink_fails : string -> bool.
Variable copy_fails : string -> bool.
Variable others : Z -> Z -> Z.

Local Abbreviation download_fresh_ :=
  (download_fresh extname sanitizeFilename toFixed1_MB youtubedl copy_fails others).





Hypothesis no_slot_frees : forall t a, maxConcurrent <= a -> maxConcurrent <= others t a.


End RefusalFacts.



(** ** The counter at the gate *)

Module GateCountFacts.

Import Gate.

(** X19. However the requests interleave at the gate, [activeDownloads]
    is the number of requests that have made their increment and not yet
    run their cleanup: no release is lost, and the guard
    [activeDownloads > 0] of the cleanup never holds a decrement back. *)
Theorem counter_counts_holders (sys : Sys) (Hreach : reachable sys) :
  active sys = holding (reqs sys).
Proof.
  unfold reachable in Hreach.
  apply (rtc_ind_r (R := step) (fun sys => active sys = holding (reqs sys)) init);
    [| |exact Hreach].
  - reflexivity.
  - clear sys Hreach. intros sys0 sys' _ Hstep IH.
    destruct Hstep as [sys dt Hdt | sys | sys i st w Hi Hw | sys i Hi | sys i Hi];
      cbn [active reqs].
    + exact IH.
    + rewrite GateFacts.holding_app.
      destruct (poll _ _ _); unfold holding in *; simpl; lia.
    + rewrite (GateFacts.holding_insert _ _ _ _ Hi).
      destruct (poll _ _ _); simpl; lia.
    + rewrite (GateFacts.holding_insert _ _ _ _ Hi). simpl. lia.
    + rewrite (GateFacts.holding_insert _ _ _ _ Hi). simpl. unfold decrement.
      pose proof (GateFacts.holding_member _ _ Hi).
      destruct (0 <? active sys) eqn:E; lia.
Qed.

Lemma counter_counts_holders_witness :
  reachable four_holding /\ active four_holding = holding (reqs four_holding).
Proof.
  split; [apply GateFacts.reach_four_holding|].
  apply (counter_counts_holders four_holding). apply GateFacts.reach_four_holding.
Defined.

End GateCountFacts.

(** ** The page and the handler's headers *)

Section ClientFacts.

Variable url_hostname : string -> option string.
Variable sha256_hex : string -> string.
Variable extname : string -> string.
Variable sanitizeFilename : string -> string.
Variable toFixed1_MB : Z -> string.
Variable youtubedl : nat -> string -> string -> string -> ToolRun.
Variable unlink_fails : string -> bool.
Variable copy_fails : string -> bool.
Variable others : Z -> Z -> Z.

Local Abbreviation handler_ :=
  (handler url_hostname sha256_hex extname sanitizeFilename toFixed1_MB
           youtubedl unlink_fails copy_fails others).
Local Abbreviation try_block_ :=
  (try_block sha256_hex extname sanitizeFilename toFixed1_MB
             youtubedl copy_fails others).
Local Abbreviation download_fresh_ :=
  (download_fresh extname sanitizeFilename toFixed1_MB youtubedl copy_fails others).
Local Abbreviation deliver_ :=
  (deliver extname sanitizeFilename toFixed1_MB copy_fails).

Lemma deliver_headers cacheKey timestamp startTime s headers p cl op s' :
  deliver_ cacheKey timestamp startTime s = ((Normal (RStream headers p, cl), op), s') ->
  handler_headers toFixed1_MB headers.
Proof.
  unfold deliver.
  destruct (List.find _ _) as [f|]; [|discriminate].
  destruct (files s !! _) as [sz|]; [|discriminate].
  destruct (_ <? sz); [discriminate|].
  intros H. injection H as <- _ _ _ _. right. eauto 10.
Qed.

Lemma download_fresh_headers url cacheKey startTime s headers p cl op s' :
  download_fresh_ url cacheKey startTime s
  = ((Normal (RStream headers p, cl), op), s') ->
  handler_headers toFixed1_MB headers.
Proof.
  unfold download_fresh.
  destruct (waitForSlot others s) as [[u|e] s1]; [|discriminate].
  destruct (retryOperation _ _ _ _ _) as [[u'|e] s2]; [|discriminate].
  apply deliver_headers.
Qed.

Lemma try_block_headers url startTime s headers p cl op s' :
  try_block_ url startTime s = ((Normal (RStream headers p, cl), op), s') ->
  handler_headers toFixed1_MB headers.
Proof.
  unfold try_block.
  destruct (NodeCache.get _ _ _) as [[c|] vc].
  - destruct (existsSync _ _).
    + unfold serve_cached. intros H. injection H as <- _ _. left. eauto.
    + apply download_fresh_headers.
  - apply download_fresh_headers.
Qed.

Lemma handler_stream_headers req s headers p cl s' :
  handler_ req s = ((RStream headers p, cl), s') -> handler_headers toFixed1_MB headers.
Proof.
  unfold handler.
  destruct (negb (String.eqb (method req) "POST")); [discriminate|].
  destruct (body_url req) as [url|]; [|discriminate].
  destruct (negb (Str.truthy url)); [discriminate|].
  destruct (url_hostname url); [|discriminate].
  destruct (negb (isAllowedDomain url_hostname url)); [discriminate|].
  destruct (checkRateLimit _ s) as [r s1].
  destruct (negb (allowed r)); [discriminate|].
  destruct (try_block_ url (now s1) s1) as [[[[resp cl'] |e] op] s2] eqn:Et.
  - intros H. injection H as -> _ _. eapply try_block_headers, Et.
  - unfold catch_block. destruct (classify e). discriminate.
Qed.

(** X20. The page reads the cache status from a header named
    X-Cache-Status, the title from X-Video-Title and the platform from
    X-Platform; the handler sets none of them (its cache header is
    X-Cache). So on every streamed response of the handler, a cache hit
    included, the page finds no cache status, shows no cache indicator
    and the plain success message, and files the download in its history
    as 'Downloaded Video' from 'Unknown'. *)
Theorem page_never_sees_cache_hit (req : Request) (s s' : State)
    (headers : list (string * string)) (path : string) (cleanup : option Cleanup)
    (Hresp : handler_ req s = ((RStream headers path, cleanup), s')) :
  (Client.headers_get "X-Cache" headers = Some "HIT" \/
   Client.headers_get "X-Cache" headers = Some "MISS") /\
  Client.cacheStatus headers = None /\
  Client.cached headers = false /\
  Client.message headers = "Download successful" /\
  Client.videoTitle headers = "Downloaded Video" /\
  Client.platform headers = "Unknown".
Proof.
  destruct (handler_stream_headers _ _ _ _ _ _ Hresp)
    as [[c ->] | (ct & sn & fs & dt & a & ->)].
  - split; [left; reflexivity|]. repeat split.
  - split; [right; reflexivity|]. repeat split.
Qed.

End ClientFacts.

Lemma page_never_sees_cache_hit_witness :
  exists s',
    Demo.handler_with DemoCache.unavailable
      (Demo.post Demo.youtube_url "1.2.3.4") DemoCache.hit_state
    = ((RStream (hit_headers DemoCache.clip) "/tmp/cached_clip.mp4", None), s') /\
    Client.headers_get "X-Cache" (hit_headers DemoCache.clip) = Some "HIT" /\
    Client.cached (hit_headers DemoCache.clip) = false /\
    Client.message (hit_headers DemoCache.clip) = "Download successful".
Proof.
  eexists. split; [vm_compute; reflexivity|].
  destruct (page_never_sees_cache_hit Demo.hostname Demo.same Demo.ext_mp4 Demo.same
              Demo.no_digits DemoCache.unavailable Demo.never Demo.never Demo.nobody
              (Demo.post Demo.youtube_url "1.2.3.4") DemoCache.hit_state _ _ _ _
              ltac:(vm_compute; reflexivity)) as (Hx & _ & Hc & Hm & _).
  split; [reflexivity|]. split; [exact Hc | exact Hm].
Defined.

Module ClientNameFacts.


Lemma not_quote_run_app (name rest : string) :
  Client.no_quote name = true ->
  Client.not_quote_run (name ++ String (ascii_of_nat 34) rest) = name.
Proof.
  induction name as [|c name IH]; intros H.
  - reflexivity.
  - cbn [Client.no_quote] in H. apply andb_true_iff in H. destruct H as [Hc Hn].
    rewrite append_cons. cbn [Client.not_quote_run].
    apply negb_true_iff in Hc. rewrite Hc, (IH Hn). reflexivity.
Qed.

Lemma filename_match_unfold (s : string) :
  Client.filename_match s
  = match Client.match_here s with
    | Some g => Some g
    | None => match s with
              | EmptyString => None
              | String _ s' => Client.filename_match s'
              end
    end.
Proof. destruct s; reflexivity. Qed.

Lemma filename_match_skip c (r : string) :
  Client.match_here (String c r) = None ->
  Client.filename_match (String c r) = Client.filename_match r.
Proof. intros H. rewrite filename_match_unfold, H. reflexivity. Qed.

Lemma match_here_quoted (s : string) :
  Client.match_here ("filename=" ++ dquote ++ s)
  = match Client.group s with
    | Some g => Some g
    | None => Client.group (dquote ++ s)
    end.
Proof. reflexivity. Qed.

(** The Content-Disposition value that the handler sends for [name]. *)
Lemma disposition_match (name : string) :
  Client.no_quote name = true ->
  Client.filename_match ("attachment; filename=" ++ dquote ++ name ++ dquote)
  = if Str.truthy name then Some name else None.
Proof.
  intros Hq. destruct name as [|c name]; [vm_compute; reflexivity|].
  change ("attachment; filename=" ++ dquote ++ String c name ++ dquote)
    with (String "a" (String "t" (String "t" (String "a" (String "c" (String "h"
          (String "m" (String "e" (String "n" (String "t" (String ";" (String " "
          ("filename=" ++ dquote ++ String c name ++ dquote))))))))))))).
  do 12 (rewrite filename_match_skip by reflexivity).
  rewrite filename_match_unfold, match_here_quoted.
  unfold Client.group, dquote. rewrite (not_quote_run_app (String c name) "" Hq).
  reflexivity.
Qed.

(** X21. The file name comes back from the Content-Disposition header as
    the handler put it there, on a miss and on a hit, whenever it holds no
    quote (as every result of sanitizeFilename does) and is not empty; for
    an empty name the page falls back on 'video'. *)
Theorem page_recovers_filename (toFixed1_MB : Z -> string)
    (ctype name : string) (fileSize downloadTime active : Z) (c : CachedVideo)
    (Hname : Client.no_quote name = true)
    (Hcached : Client.no_quote (filename c) = true) :
  Client.filename (miss_headers toFixed1_MB ctype name fileSize downloadTime active)
  = (if Str.truthy name then name else "video") /\
  Client.filename (hit_headers c)
  = (if Str.truthy (filename c) then filename c else "video").
Proof.
  split.
  - unfold Client.filename.
    change (Client.headers_get "Content-Disposition"
              (miss_headers toFixed1_MB ctype name fileSize downloadTime active))
      with (Some ("attachment; filename=" ++ dquote ++ name ++ dquote)).
    cbv beta iota. rewrite (disposition_match name Hname). destruct (Str.truthy name); reflexivity.
  - unfold Client.filename.
    change (Client.headers_get "Content-Disposition" (hit_headers c))
      with (Some ("attachment; filename=" ++ dquote ++ filename c ++ dquote)).
    cbv beta iota. rewrite (disposition_match _ Hcached).
    destruct (Str.truthy (filename c)); reflexivity.
Qed.

Lemma page_recovers_filename_witness :
  Client.filename
    (miss_headers Demo.no_digits "video/mp4" "video_17_My clip.mp4" 10 2000 1)
  = "video_17_My clip.mp4" /\
  Client.filename (hit_headers DemoCache.clip) = "clip.mp4".
Proof.
  apply (page_recovers_filename Demo.no_digits "video/mp4" "video_17_My clip.mp4"
           10 2000 1 DemoCache.clip); vm_compute; reflexivity.
Defined.

End ClientNameFacts.

(** ** The download history of the page *)

Module HistoryFacts.

Import History.

Lemma save_effect_history p : downloadHistory (save_effect p) = downloadHistory p.
Proof. unfold save_effect. destruct (0 <? _)%nat; reflexivity. Qed.

Lemma act_length a p :
  (length (downloadHistory p) <= 50)%nat ->
  (length (downloadHistory (act a p)) <= 50)%nat.
Proof.
  intros H. destruct a as [t1 t2 item | i |]; cbn [act];
    unfold addToHistory, removeFromHistory, clearHistory, setDownloadHistory;
    rewrite save_effect_history; cbn [downloadHistory].
  - rewrite List.length_firstn. lia.
  - pose proof (List.filter_length_le
                  (fun item => negb (String.eqb (id item) i)) (downloadHistory p)).
    lia.
  - simpl. lia.
Qed.

Lemma filter_all_removed (l : list HistoryItem) (i : string) :
  Forall (fun item => id item = i) l ->
  List.filter (fun item => negb (String.eqb (id item) i)) l = [].
Proof.
  induction 1 as [|x l Hx Hl IH]; [reflexivity|].
  cbn [List.filter]. rewrite Hx, String.eqb_refl. exact IH.
Qed.

Lemma save_effect_in_step p : in_step (save_effect p).
Proof.
  unfold in_step, save_effect.
  destruct (downloadHistory p) as [|x l] eqn:E; cbn [length Nat.ltb Nat.leb].
  - rewrite E. intros H. contradiction.
  - intros _. cbn [stored downloadHistory]. reflexivity.
Qed.

Lemma act_in_step a p : in_step (act a p).
Proof. destruct a; apply save_effect_in_step. Qed.

Lemma mount_in_step st : in_step (mount st).
Proof. destruct st; apply save_effect_in_step. Qed.

Lemma run_snoc actions a p : run (actions ++ [a])%list p = act a (run actions p).
Proof. unfold run. rewrite fold_left_app. reflexivity. Qed.

(** X22. From the page as it comes up, whatever is stored, through any
    sequence of adding, removing and clearing: an added entry is the first
    of the history and the 49 entries before it follow in their order;
    the history never holds more than 50 entries once it was that short;
    and a history that is not empty is back unchanged after a reload. *)
Theorem history_kept (storage : option (list HistoryItem)) (actions : list Action)
    (t_id t_stamp : Z) (item : Entry) :
  let p := run actions (mount storage) in
  downloadHistory (addToHistory t_id t_stamp item p)
  = mkHistoryItem (pretty t_id) (e_title item) (e_url item) (e_platform item)
                  (e_fileSize item) t_stamp
    :: firstn 49 (downloadHistory p) /\
  (length (downloadHistory (addToHistory t_id t_stamp item p)) <= 50)%nat /\
  ((length (downloadHistory (mount storage)) <= 50)%nat ->
   (length (downloadHistory p) <= 50)%nat) /\
  (downloadHistory p <> [] -> reload p = p).
Proof.
  intros p. split; [|split; [|split]].
  - unfold addToHistory, setDownloadHistory. rewrite save_effect_history.
    reflexivity.
  - unfold addToHistory, setDownloadHistory. rewrite save_effect_history.
    cbn [downloadHistory]. rewrite List.length_firstn. lia.
  - intros H0. subst p. induction actions as [|a actions IH] using rev_ind.
    + exact H0.
    + rewrite run_snoc. apply act_length, IH.
  - assert (Hstep : in_step p).
    { subst p. destruct actions as [|a actions] using rev_ind.
      - apply mount_in_step.
      - rewrite run_snoc. apply act_in_step. }
    intros Hne. specialize (Hstep Hne). unfold reload. rewrite Hstep.
    unfold mount, setDownloadHistory, save_effect. cbn [downloadHistory stored].
    destruct p as [h st]. cbn [downloadHistory stored] in *.
    destruct h as [|x l]; [contradiction|]. cbn [length Nat.ltb Nat.leb].
    rewrite Hstep. reflexivity.
Qed.

(** X23. Removing the entries that are all of the history leaves the
    page with an empty history and the storage as it was: the effect does
    not write an empty history. After a reload the removed entries are
    back. Clearing the history removes the stored item too, and the
    history stays empty. *)
Theorem removed_history_returns (p : Page) (i : string)
    (Hsome : downloadHistory p <> [])
    (Hstored : stored p = Some (downloadHistory p))
    (Hall : Forall (fun item => id item = i) (downloadHistory p)) :
  downloadHistory (removeFromHistory i p) = [] /\
  stored (removeFromHistory i p) = Some (downloadHistory p) /\
  downloadHistory (reload (removeFromHistory i p)) = downloadHistory p /\
  reload (clearHistory p) = mkPage [] None.
Proof.
  pose proof (filter_all_removed _ _ Hall) as Hf.
  unfold removeFromHistory, setDownloadHistory. rewrite Hf.
  unfold save_effect at 1 2 3. cbn [downloadHistory length Nat.ltb Nat.leb stored].
  split; [reflexivity|]. split; [exact Hstored|]. split; [|reflexivity].
  unfold reload. cbn [stored]. rewrite Hstored.
  unfold mount, setDownloadHistory. rewrite save_effect_history. reflexivity.
Qed.

Lemma removed_history_returns_witness :
  downloadHistory (removeFromHistory "17" DemoHistory.page) = [] /\
  stored (removeFromHistory "17" DemoHistory.page)
  = Some (downloadHistory DemoHistory.page) /\
  downloadHistory (reload (removeFromHistory "17" DemoHistory.page))
  = downloadHistory DemoHistory.page /\
  reload (clearHistory DemoHistory.page) = mkPage [] None.
Proof.
  apply (removed_history_returns DemoHistory.page "17").
  - simpl. discriminate.
  - reflexivity.
  - simpl. repeat constructor.
Defined.

End HistoryFacts.
